(** * Sequence-stratigraphy exam tool: annotation surfaces, projector, timer

    A shallow embedding of the JavaScript sources
      - the exam timer (class [ExamTimer], the wall-clock variant and the
        older decrementing variant),
      - the drawing canvas (class [DrawingCanvas] of js/canvas.js),
      - the orchestrator callbacks that project terminations onto the
        Wheeler canvas and generate system tracts (exercise/js/storage.js),
    followed by the properties of the specification that concern them and
    by further properties of the same code (pausing and persistence of the
    timer, eraser and hit test, line and polygon tools, saved state, undo
    and clearing across the two canvases).

    Conventions of the embedding.
      - [Date.now()] and integral millisecond quantities are [Z].
      - Pixel coordinates are JavaScript numbers; they are modelled as exact
        rationals [Q] (rounding of IEEE doubles is outside the model).
        [Math.hypot(dx, dy) < r] is modelled by comparing squares.
      - A JavaScript array keeps its order: index 0 is the head of the list,
        [push] appends at the end, [pop] removes the last item and [shift]
        the first one.
      - Object identity ([Array.prototype.indexOf] on objects) is modelled by
        a reference number carried by every element; an object literal gets
        the reference handed to the function that evaluates it.
      - Callbacks supplied by the orchestrator are modelled as outputs of the
        method that invokes them.
      - Drawing and DOM effects ([redraw], the termination hint, the cursor)
        change nothing the properties speak about and are left out; readings
        of the clock within one method call are taken to be equal.
      - A string is the sequence of the UTF-8 bytes of the text, so that
        ASCII text has one character per code unit; the numbers [parseInt]
        returns are exact integers. *)

From Stdlib Require Import ZArith QArith Qminmax List Bool Lia String Ascii.
From Stdlib Require Import Lqa.
From Stdlib Require Import Permutation Sorted DecimalString DecimalPos.
Import ListNotations.

Local Open Scope Z_scope.

(* ================================================================== *)
(** * Array helpers *)

Section ArrayOps.
Context {A : Type}.

(** [arr.push(x)] *)
Definition push (arr : list A) (x : A) : list A := arr ++ [x].

(** [arr.pop()]: the last item and the shortened array. *)
Definition pop (arr : list A) : option (list A * A) :=
  match rev arr with
  | [] => None
  | x :: r => Some (rev r, x)
  end.

(** [arr.shift()]: only the shortened array is used by the sources. *)
Definition shift (arr : list A) : list A := tl arr.

(** [arr.splice(i, 1)] *)
Definition splice_remove (i : nat) (arr : list A) : list A :=
  firstn i arr ++ skipn (S i) arr.

(** [arr.splice(i, 0, x)]; a start beyond the end is clamped to the end. *)
Definition splice_insert (i : nat) (x : A) (arr : list A) : list A :=
  firstn i arr ++ x :: skipn i arr.

(** [arr.findIndex(p)], [None] standing for -1. *)
Fixpoint find_index (p : A -> bool) (arr : list A) : option nat :=
  match arr with
  | [] => None
  | x :: r => if p x then Some 0%nat else option_map S (find_index p r)
  end.

(** Stable insertion sort by an integer key: the behaviour of
    [arr.sort((a, b) => key(a) - key(b))]. *)
Fixpoint insert_by (key : A -> Z) (x : A) (arr : list A) : list A :=
  match arr with
  | [] => [x]
  | y :: r => if key y <=? key x then y :: insert_by key x r else x :: y :: r
  end.

Definition sort_by (key : A -> Z) (arr : list A) : list A :=
  fold_left (fun acc x => insert_by key x acc) arr [].

(** The order [sort_by] sorts into. *)
Definition key_le (key : A -> Z) (a b : A) : Prop := key a <= key b.
End ArrayOps.

Arguments pop {A} arr : simpl never.

(** [`${n}`] for an integer [n]. *)
Definition num_to_string (n : Z) : string := NilZero.string_of_int (Z.to_int n).

(* ================================================================== *)
(** * [parseInt(text)] *)

Definition charCode (c : ascii) : Z := Z.of_nat (nat_of_ascii c).

(** White space and line terminators of one byte: TAB, LF, VT, FF, CR and
    the space. *)
Definition isWhiteSpace1 (a : ascii) : bool :=
  let n := charCode a in ((9 <=? n) && (n <=? 13)) || (n =? 32).

(** ... of two bytes: U+00A0. *)
Definition isWhiteSpace2 (a b : ascii) : bool :=
  (charCode a =? 194) && (charCode b =? 160).

(** ... of three bytes: U+1680, U+2000 to U+200A, U+2028, U+2029, U+202F,
    U+205F, U+3000 and U+FEFF. *)
Definition isWhiteSpace3 (a b c : ascii) : bool :=
  let x := charCode a in
  let y := charCode b in
  let z := charCode c in
  ((x =? 225) && (y =? 154) && (z =? 128))
  || ((x =? 226) && (y =? 128)
      && (((128 <=? z) && (z <=? 138)) || (z =? 168) || (z =? 169)
          || (z =? 175)))
  || ((x =? 226) && (y =? 129) && (z =? 159))
  || ((x =? 227) && (y =? 128) && (z =? 128))
  || ((x =? 239) && (y =? 187) && (z =? 191)).

(** The text without its leading white space. *)
Fixpoint trimStart (s : string) : string :=
  match s with
  | String a r1 =>
      if isWhiteSpace1 a then trimStart r1
      else
        match r1 with
        | String b r2 =>
            if isWhiteSpace2 a b then trimStart r2
            else
              match r2 with
              | String c r3 => if isWhiteSpace3 a b c then trimStart r3 else s
              | EmptyString => s
              end
        | EmptyString => s
        end
  | EmptyString => s
  end.

(** The value of a character as a digit of the given radix: [0-9], then
    [a-z] or [A-Z] for 10 to 35. *)
Definition digitValue (radix : Z) (c : ascii) : option Z :=
  let n := charCode c in
  let v := if (48 <=? n) && (n <=? 57) then n - 48
           else if (97 <=? n) && (n <=? 122) then n - 87
           else if (65 <=? n) && (n <=? 90) then n - 55
           else radix in
  if v <? radix then Some v else None.

(** The value of the longest prefix of digits; [acc] is the value read so
    far, [None] while no digit was read. *)
Fixpoint parseDigits (radix : Z) (s : string) (acc : option Z) : option Z :=
  match s with
  | String c r =>
      match digitValue radix c with
      | Some d =>
          parseDigits radix r
            (Some (match acc with Some a => a * radix + d | None => d end))
      | None => acc
      end
  | EmptyString => acc
  end.

(** [parseInt(text)] without a radix: leading white space is skipped, a
    sign is read, [0x] or [0X] selects radix 16, and the longest prefix of
    digits is the result, whatever follows it; [None] is NaN. *)
Definition parseInt (text : string) : option Z :=
  let S := trimStart text in
  let sign := match S with
              | String c _ => if Ascii.eqb c "-" then -1 else 1
              | EmptyString => 1
              end in
  let S := match S with
           | String c r => if Ascii.eqb c "+" || Ascii.eqb c "-" then r else S
           | EmptyString => S
           end in
  let (R, S) :=
    match S with
    | String a (String b r) =>
        if Ascii.eqb a "0" && (Ascii.eqb b "x" || Ascii.eqb b "X")
        then (16, r) else (10, S)
    | _ => (10, S)
    end in
  match parseDigits R S None with
  | Some mathInt => Some (sign * mathInt)
  | None => None
  end.

(** The text is empty or starts with a character that is no decimal
    digit. *)
Definition notDigit (rest : string) : Prop :=
  match rest with
  | EmptyString => True
  | String c _ => digitValue 10 c = None
  end.

(* ================================================================== *)
(** * The exam timer (wall-clock variant) *)

Module Timer.

(** What the timer tells the orchestrator. *)
Inductive Callback :=
| OnTick (remainingMs : Z) (cls : string)
| OnWarning (minutes : Z)
| OnExpire.

(** The record written under [storageKey]. *)
Record SavedState := mkSaved {
  savedEndTime : option Z;
  savedWarningsShown : list Z;
  savedDuration : Z
}.

Record ExamTimer := mkTimer {
  duration : Z;
  remaining : Z;
  warningsShown : list Z;      (* a Set, in insertion order *)
  intervalId : bool;           (* is the 1 s interval installed *)
  listening : bool;            (* visibilitychange / focus listeners *)
  endTime : option Z;          (* null or the absolute deadline *)
  isRunning : bool;
  localStorage : option SavedState
}.

Definition warningTimes : list Z :=
  [30 * 60 * 1000; 15 * 60 * 1000; 5 * 60 * 1000].

(** [options.duration || 2 * 60 * 60 * 1000] *)
Definition constructor (optDuration : option Z) : ExamTimer :=
  let d := match optDuration with
           | Some d => if d =? 0 then 2 * 60 * 60 * 1000 else d
           | None => 2 * 60 * 60 * 1000
           end in
  mkTimer d d [] false false None false None.

Definition has (s : list Z) (x : Z) : bool := existsb (Z.eqb x) s.
Definition add (s : list Z) (x : Z) : list Z := if has s x then s else s ++ [x].

Definition with_remaining (t : ExamTimer) (r : Z) : ExamTimer :=
  mkTimer (duration t) r (warningsShown t) (intervalId t) (listening t)
          (endTime t) (isRunning t) (localStorage t).

Definition saveState (t : ExamTimer) : ExamTimer :=
  mkTimer (duration t) (remaining t) (warningsShown t) (intervalId t)
          (listening t) (endTime t) (isRunning t)
          (Some (mkSaved (endTime t) (warningsShown t) (duration t))).

Definition clearState (t : ExamTimer) : ExamTimer :=
  mkTimer (duration t) (remaining t) (warningsShown t) (intervalId t)
          (listening t) (endTime t) (isRunning t) None.

(** [if (this.endTime) this.remaining = Math.max(0, this.endTime - Date.now())] *)
Definition updateRemaining (t : ExamTimer) (now : Z) : ExamTimer :=
  match endTime t with
  | Some e => if e =? 0 then t else with_remaining t (Z.max 0 (e - now))
  | None => t
  end.

Definition getTimerClass (t : ExamTimer) : string :=
  if 30 * 60 * 1000 <? remaining t then "safe"
  else if 15 * 60 * 1000 <? remaining t then "warning"
  else if 5 * 60 * 1000 <? remaining t then "warning"
  else "danger".

Definition stop (t : ExamTimer) : ExamTimer :=
  mkTimer (duration t) (remaining t) (warningsShown t) false false
          (endTime t) false (localStorage t).

Definition start (t : ExamTimer) (now : Z) : ExamTimer * list Callback :=
  if isRunning t then (t, [])
  else
    let t1 := mkTimer (duration t) (remaining t) (warningsShown t)
                      (intervalId t) (listening t)
                      (Some (now + remaining t)) true (localStorage t) in
    let t2 := saveState t1 in
    let t3 := updateRemaining t2 now in
    let out := [OnTick (remaining t3) (getTimerClass t3)] in
    (mkTimer (duration t3) (remaining t3) (warningsShown t3) true true
             (endTime t3) (isRunning t3) (localStorage t3), out).

(** One iteration of the [warningTimes.forEach] of [tick]. *)
Definition checkWarning (acc : ExamTimer * list Callback) (time : Z)
  : ExamTimer * list Callback :=
  let (t, out) := acc in
  if (remaining t <=? time) && (time - 1500 <? remaining t)
     && negb (has (warningsShown t) time)
  then
    let t1 := mkTimer (duration t) (remaining t) (add (warningsShown t) time)
                      (intervalId t) (listening t) (endTime t) (isRunning t)
                      (localStorage t) in
    (saveState t1, out ++ [OnWarning (time / 60000)])
  else (t, out).

Definition tick (t : ExamTimer) (now : Z) : ExamTimer * list Callback :=
  let t1 := updateRemaining t now in
  let (t2, out2) := fold_left checkWarning warningTimes (t1, []) in
  let out3 := out2 ++ [OnTick (remaining t2) (getTimerClass t2)] in
  let t3 := if Z.rem (remaining t2 / 1000) 10 =? 0 then saveState t2 else t2 in
  if remaining t3 <=? 0 then
    (clearState (with_remaining (stop t3) 0), out3 ++ [OnExpire])
  else (t3, out3).

Definition handleVisibilityChange (t : ExamTimer) (now : Z)
  : ExamTimer * list Callback :=
  if isRunning t then
    let t1 := updateRemaining t now in
    let out := [OnTick (remaining t1) (getTimerClass t1)] in
    if remaining t1 <=? 0 then (with_remaining (stop t1) 0, out ++ [OnExpire])
    else (t1, out)
  else (t, []).

(** [setRemaining(ms)] *)
Definition setRemaining (t : ExamTimer) (ms now : Z) : ExamTimer * list Callback :=
  let r := Z.max 0 ms in
  let shown := fold_left (fun s time => if r <=? time then add s time else s)
                         warningTimes [] in
  let t1 := saveState (mkTimer (duration t) r shown (intervalId t) (listening t)
                               (Some (now + r)) (isRunning t) (localStorage t)) in
  (t1, [OnTick (remaining t1) (getTimerClass t1)]).

(** The browser delivers an interval callback only while the interval is
    installed and a visibility/focus event only while the listeners are. *)
Inductive Event :=
| IntervalFire (now : Z)
| VisibilityCheck (now : Z).

Definition eventTime (e : Event) : Z :=
  match e with IntervalFire n => n | VisibilityCheck n => n end.

Definition dispatch (t : ExamTimer) (e : Event) : ExamTimer * list Callback :=
  match e with
  | IntervalFire now => if intervalId t then tick t now else (t, [])
  | VisibilityCheck now =>
      if listening t then handleVisibilityChange t now else (t, [])
  end.

(** The run of a timer over a sequence of events, with the callbacks each
    event produced. *)
Fixpoint runLog (t : ExamTimer) (evs : list Event)
  : ExamTimer * list (Event * list Callback) :=
  match evs with
  | [] => (t, [])
  | e :: r =>
      let (t1, out) := dispatch t e in
      let (t2, log) := runLog t1 r in
      (t2, (e, out) :: log)
  end.

Definition trace (log : list (Event * list Callback)) : list Callback :=
  flat_map snd log.

(** The remaining times passed to [onTick]. *)
Definition reported (out : list Callback) : list Z :=
  flat_map (fun c => match c with OnTick r _ => [r] | _ => [] end) out.

Definition warnings (out : list Callback) : list Z :=
  flat_map (fun c => match c with OnWarning m => [m] | _ => [] end) out.

(** The test of [checkWarning] that looks at the clock only. *)
Definition inWindow (r time : Z) : bool :=
  (r <=? time) && (time - 1500 <? r).

Definition fires (t : ExamTimer) (time : Z) : bool :=
  inWindow (remaining t) time && negb (has (warningsShown t) time).

(** Everything but the fired set and the stored record is left alone by
    the warning loop. *)
Definition sameClock (t t' : ExamTimer) : Prop :=
  remaining t' = remaining t /\ endTime t' = endTime t /\
  isRunning t' = isRunning t /\ intervalId t' = intervalId t /\
  listening t' = listening t /\ duration t' = duration t.

(** How often the minute value [m] occurs among the warnings emitted. *)
Definition timesWarned (m : Z) (out : list Callback) : nat :=
  List.length (filter (Z.eqb m) (warnings out)).

(** A suspended tab: the timer is started with two hours at wall-clock
    [t0]; the first interval callback is delivered 5,999,000 ms later, and
    from then on one every second until the deadline has passed. *)
Definition suspendedTabEvents (t0 : Z) : list Event :=
  map (fun k => IntervalFire (t0 + 5999000 + 1000 * Z.of_nat k)) (seq 0 1202).

Definition suspendedTabRun (t0 : Z) : ExamTimer * list (Event * list Callback) :=
  runLog (fst (start (constructor (Some 7200000)) t0)) (suspendedTabEvents t0).

Definition isExpire (c : Callback) : bool :=
  match c with OnExpire => true | _ => false end.

End Timer.

(* ================================================================== *)
(** * The exam timer (older variant, one-second decrement) *)

Module LegacyTimer.
Import Timer.

Record ExamTimer := mkTimer {
  duration : Z;
  remaining : Z;
  warningsShown : list Z;
  intervalId : bool;
  isRunning : bool
}.

Definition getTimerClass (t : ExamTimer) : string :=
  if 30 * 60 * 1000 <? remaining t then "safe"
  else if 15 * 60 * 1000 <? remaining t then "warning"
  else if 5 * 60 * 1000 <? remaining t then "warning"
  else "danger".

Definition checkWarning (acc : ExamTimer * list Callback) (time : Z)
  : ExamTimer * list Callback :=
  let (t, out) := acc in
  if (remaining t <=? time) && (time - 1000 <? remaining t)
     && negb (has (warningsShown t) time)
  then (mkTimer (duration t) (remaining t) (add (warningsShown t) time)
                (intervalId t) (isRunning t),
        out ++ [OnWarning (time / 60000)])
  else (t, out).

Definition tick (t : ExamTimer) : ExamTimer * list Callback :=
  let t1 := mkTimer (duration t) (remaining t - 1000) (warningsShown t)
                    (intervalId t) (isRunning t) in
  let (t2, out2) := fold_left checkWarning warningTimes (t1, []) in
  let out3 := out2 ++ [OnTick (remaining t2) (getTimerClass t2)] in
  if remaining t2 <=? 0 then
    (mkTimer (duration t2) 0 (warningsShown t2) false false, out3 ++ [OnExpire])
  else (t2, out3).
End LegacyTimer.

(* ================================================================== *)
(** * The drawing canvas (js/canvas.js, class DrawingCanvas) *)

Module Canvas.

Local Open Scope Q_scope.

Definition Qltb (a b : Q) : bool := negb (Qle_bool b a).
Definition Qabs' (a : Q) : Q := if Qle_bool 0 a then a else - a.

(** [Math.hypot(dx, dy) < r] *)
Definition hypot_lt (dx dy r : Q) : bool :=
  Qltb 0 r && Qltb (dx * dx + dy * dy) (r * r).

Record Point := mkPoint { px : Q; py : Q }.

(** The element variants, by their [type] field. [Other] stands for the
    types that the hit test has no case for ([rolloverSquare],
    [drillingProjection]). *)
Inductive ElemData :=
| Line (color : string) (width : Q) (points : list Point)
| Polygon (color : string) (points : list Point)
| Marker (color : string) (x y size : Q)
| Text (color : string) (x y : Q) (text : string) (fontSize : Q)
| Termination (color : string) (x y : Q) (label : string) (number : Z)
              (isFirstPoint : bool)
| TerminationLine (color : string) (x1 x2 y : Q) (label : string)
                  (number : Z) (lineWidth : Q)
| Surface (surfaceType : string) (color : string) (width : Q)
          (points : list Point)
| SystemTract (tractType : string) (color : string) (points : list Point)
| Other (type : string).

(** An element object: its identity, its [timestamp] and its fields. *)
Record Element := mkElement { ref : nat; timestamp : Z; data : ElemData }.

(** An entry of the undo or redo stack. *)
Inductive Action :=
| Add (element : Element)
| Remove (element : Element) (index : nat).

(** [terminationState]: the two shapes the code ever stores.  [Idle] is
    [{waitingForSecondClick: false, firstPoint: null, currentNumber: null,
    color: null}] (and the not yet initialised state, which
    [initTerminationState] turns into it). *)
Inductive TerminationState :=
| Idle
| Awaiting (firstPoint : Point) (currentNumber : Z) (color : string).

(** The counter object shared by both canvases; [availableNumbers] is
    absent until first used. *)
Record Registry := mkRegistry {
  count : Z;
  availableNumbers : option (list Z)
}.

Record Canvas := mkCanvas {
  canvasWidth : Z;
  canvasHeight : Z;
  isDrawing : bool;
  currentTool : string;
  currentColor : string;
  lineWidth : Q;
  points : list Point;
  elements : list Element;
  undoStack : list Action;
  redoStack : list Action;
  activeElement : option ElemData;
  hoverElement : option Element;
  textInput : bool;
  terminationState : TerminationState
}.

Definition maxHistory : nat := 50.

(** The state the constructor leaves, for a canvas of the given size. *)
Definition constructor (w h : Z) : Canvas :=
  mkCanvas w h false "line" "#FF0000" 3 [] [] [] [] None None false Idle.

(** Field updates. *)
Definition set_drawing (s : Canvas) (d : bool) (pts : list Point)
           (act : option ElemData) : Canvas :=
  mkCanvas (canvasWidth s) (canvasHeight s) d (currentTool s) (currentColor s)
           (lineWidth s) pts (elements s) (undoStack s) (redoStack s) act
           (hoverElement s) (textInput s) (terminationState s).

Definition set_history (s : Canvas) (els : list Element)
           (u r : list Action) : Canvas :=
  mkCanvas (canvasWidth s) (canvasHeight s) (isDrawing s) (currentTool s)
           (currentColor s) (lineWidth s) (points s) els u r
           (activeElement s) (hoverElement s) (textInput s)
           (terminationState s).

Definition set_terminationState (s : Canvas) (ts : TerminationState) : Canvas :=
  mkCanvas (canvasWidth s) (canvasHeight s) (isDrawing s) (currentTool s)
           (currentColor s) (lineWidth s) (points s) (elements s)
           (undoStack s) (redoStack s) (activeElement s) (hoverElement s)
           (textInput s) ts.

Definition set_hoverElement (s : Canvas) (h : option Element) : Canvas :=
  mkCanvas (canvasWidth s) (canvasHeight s) (isDrawing s) (currentTool s)
           (currentColor s) (lineWidth s) (points s) (elements s)
           (undoStack s) (redoStack s) (activeElement s) h
           (textInput s) (terminationState s).

Definition set_textInput (s : Canvas) (b : bool) : Canvas :=
  mkCanvas (canvasWidth s) (canvasHeight s) (isDrawing s) (currentTool s)
           (currentColor s) (lineWidth s) (points s) (elements s)
           (undoStack s) (redoStack s) (activeElement s) (hoverElement s)
           b (terminationState s).

Definition set_currentTool (s : Canvas) (tool : string) : Canvas :=
  mkCanvas (canvasWidth s) (canvasHeight s) (isDrawing s) tool
           (currentColor s) (lineWidth s) (points s) (elements s)
           (undoStack s) (redoStack s) (activeElement s) (hoverElement s)
           (textInput s) (terminationState s).

Definition setColor (s : Canvas) (color : string) : Canvas :=
  mkCanvas (canvasWidth s) (canvasHeight s) (isDrawing s) (currentTool s)
           color (lineWidth s) (points s) (elements s)
           (undoStack s) (redoStack s) (activeElement s) (hoverElement s)
           (textInput s) (terminationState s).

(** ** Numbering registry *)

Definition pool (reg : Registry) : list Z :=
  match availableNumbers reg with Some l => l | None => [] end.

Definition includes (l : list Z) (n : Z) : bool := existsb (Z.eqb n) l.

Definition getNextTerminationNumber (reg : Registry) : Z * Registry :=
  match pool reg with
  | _ :: _ =>
      let sorted := sort_by (fun n : Z => n) (pool reg) in
      (hd 0%Z sorted, mkRegistry (count reg) (Some (shift sorted)))
  | [] =>
      ((count reg + 1)%Z, mkRegistry (count reg + 1)%Z (Some []))
  end.

Definition recycleTerminationNumber (reg : Registry) (num : Z) : Registry :=
  if includes (pool reg) num
  then mkRegistry (count reg) (Some (pool reg))
  else mkRegistry (count reg) (Some (push (pool reg) num)).

(** ** Element management *)

(** [this.elements.indexOf(element)]: the first index holding that object. *)
Definition indexOf (els : list Element) (e : Element) : option nat :=
  find_index (fun x => Nat.eqb (ref x) (ref e)) els.

Definition addElement (s : Canvas) (e : Element) : Canvas :=
  let u := if (maxHistory <=? List.length (undoStack s))%nat
           then shift (undoStack s) else undoStack s in
  set_history s (push (elements s) e) (push u (Add e)) [].

Definition undo (s : Canvas) (reg : Registry) : bool * Canvas * Registry :=
  match pop (undoStack s) with
  | None => (false, s, reg)
  | Some (rest, Add e) =>
      let els := match indexOf (elements s) e with
                 | Some i => splice_remove i (elements s)
                 | None => elements s
                 end in
      let reg' := match data e with
                  | Termination _ _ _ _ number _ =>
                      recycleTerminationNumber reg number
                  | _ => reg
                  end in
      (true, set_history s els rest (push (redoStack s) (Add e)), reg')
  | Some (rest, Remove e index) =>
      (true, set_history s (splice_insert index e (elements s)) rest
                         (push (redoStack s) (Remove e index)), reg)
  end.

Definition redo (s : Canvas) : bool * Canvas :=
  match pop (redoStack s) with
  | None => (false, s)
  | Some (rest, Add e) =>
      (true, set_history s (push (elements s) e)
                         (push (undoStack s) (Add e)) rest)
  | Some (rest, Remove e index) =>
      let els := match indexOf (elements s) e with
                 | Some i => splice_remove i (elements s)
                 | None => elements s
                 end in
      (true, set_history s els (push (undoStack s) (Remove e index)) rest)
  end.

Definition clear (s : Canvas) : Canvas :=
  set_drawing (set_history s [] [] []) false [] None.

(** ** Hit testing *)

Definition pointToLineDistance_lt (point lineStart lineEnd : Point)
           (threshold : Q) : bool :=
  let A := px point - px lineStart in
  let B := py point - py lineStart in
  let C := px lineEnd - px lineStart in
  let D := py lineEnd - py lineStart in
  let dot := A * C + B * D in
  let lenSq := C * C + D * D in
  let param := if Qeq_bool lenSq 0 then - (1) else dot / lenSq in
  let (xx, yy) :=
    if Qltb param 0 then (px lineStart, py lineStart)
    else if Qltb 1 param then (px lineEnd, py lineEnd)
    else (px lineStart + param * C, py lineStart + param * D) in
  hypot_lt (px point - xx) (py point - yy) threshold.

Fixpoint isPointNearLine (pos : Point) (pts : list Point) (threshold : Q)
  : bool :=
  match pts with
  | a :: (b :: _) as rest =>
      pointToLineDistance_lt pos a b threshold
      || isPointNearLine pos rest threshold
  | _ => false
  end.

(** The loop of [isPointInPolygon]: [pj] is [points[j]], the vertex
    visited before [points[i]] (initially the last one). *)
Fixpoint polygonLoop (pos : Point) (pts : list Point) (pj : Point)
         (inside : bool) : bool :=
  match pts with
  | [] => inside
  | pi :: rest =>
      let crosses :=
        negb (Bool.eqb (Qltb (py pos) (py pi)) (Qltb (py pos) (py pj)))
        && Qltb (px pos)
                ((px pj - px pi) * (py pos - py pi) / (py pj - py pi) + px pi) in
      polygonLoop pos rest pi (if crosses then negb inside else inside)
  end.

Definition isPointInPolygon (pos : Point) (pts : list Point) : bool :=
  match pts with
  | [] => false
  | p :: _ => polygonLoop pos pts (last pts p) false
  end.

Definition isPointInElement (pos : Point) (element : Element) : bool :=
  let threshold := 10 in
  match data element with
  | Line _ _ pts => isPointNearLine pos pts threshold
  | Polygon _ pts => isPointInPolygon pos pts
  | Marker _ x y size => hypot_lt (px pos - x) (py pos - y) (size + 5)
  | Text _ x y text fontSize =>
      let textWidth := inject_Z (Z.of_nat (String.length text)) * 8 in
      let textHeight := fontSize in
      Qle_bool x (px pos) && Qle_bool (px pos) (x + textWidth)
      && Qle_bool (y - textHeight) (py pos) && Qle_bool (py pos) y
  | Termination _ x y _ _ _ => hypot_lt (px pos - x) (py pos - y) 15
  | TerminationLine _ x1 x2 y _ _ _ =>
      Qltb (Qabs' (py pos - y)) 10
      && Qle_bool x1 (px pos) && Qle_bool (px pos) x2
  | Surface _ _ _ pts => isPointNearLine pos pts threshold
  | SystemTract _ _ pts => isPointInPolygon pos pts
  | Other _ => false
  end.

(** Topmost element first. *)
Definition findElementAt (s : Canvas) (pos : Point) : option Element :=
  find (isPointInElement pos) (rev (elements s)).

Definition handleEraser (s : Canvas) (pos : Point) : Canvas :=
  match findElementAt s pos with
  | Some element =>
      match indexOf (elements s) element with
      | Some index =>
          set_hoverElement
            (set_history s (splice_remove index (elements s))
                         (push (undoStack s) (Remove element index)) [])
            None
      | None => s
      end
  | None => s
  end.

(** ** Tools *)

Definition startLine (s : Canvas) (pos : Point) : Canvas :=
  set_drawing s true [pos] (Some (Line (currentColor s) (lineWidth s) [pos])).

Definition addLinePoint (s : Canvas) (pos : Point) : Canvas :=
  if isDrawing s then
    let pts := push (points s) pos in
    set_drawing s true pts
      (match activeElement s with
       | Some (Line c w _) => Some (Line c w pts)
       | Some (Polygon c _) => Some (Polygon c pts)
       | Some (Surface t c w _) => Some (Surface t c w pts)
       | Some (SystemTract t c _) => Some (SystemTract t c pts)
       | other => other
       end)
  else startLine s pos.

(** What [placeMarker] hands to [onMarkerPlaced]. *)
Record MarkerData := mkMarkerData {
  mx : Q; my : Q; mcolor : string; mcanvasWidth : Z; mcanvasHeight : Z
}.

Definition placeMarker (s : Canvas) (pos : Point) (now : Z) (r : nat)
  : Canvas * MarkerData :=
  let element := mkElement r now (Marker (currentColor s) (px pos) (py pos) 12) in
  (addElement s element,
   mkMarkerData (px pos) (py pos) (currentColor s)
                (canvasWidth s) (canvasHeight s)).

(** What the second click hands to [onTerminationPlaced]. *)
Record TermData := mkTermData {
  tx1 : Q; tx2 : Q; ty1 : Q; ty2 : Q;
  tlabel : string;
  tnumber : Z;
  tcolor : string;
  tcanvasWidth : Z;
  tcanvasHeight : Z
}.

(** [placeTermination(pos)]: [now] is [Date.now()] and [r] the identity
    of the element object it creates.  The result carries the payload of
    [onTerminationPlaced] when the callback is invoked. *)
Definition placeTermination (s : Canvas) (reg : Registry) (pos : Point)
           (now : Z) (r : nat) : Canvas * Registry * option TermData :=
  match terminationState s with
  | Idle =>
      let (num, reg') := getNextTerminationNumber reg in
      let s1 := set_terminationState s
                  (Awaiting (mkPoint (px pos) (py pos)) num (currentColor s)) in
      let element := mkElement r now
                       (Termination (currentColor s) (px pos) (py pos)
                                    (num_to_string num) num true) in
      (addElement s1 element, reg', None)
  | Awaiting firstPoint num color =>
      let element := mkElement r now
                       (Termination color (px pos) (py pos)
                                    (num_to_string num) num false) in
      let s1 := addElement s element in
      let x1 := Qmin (px firstPoint) (px pos) in
      let x2 := Qmax (px firstPoint) (px pos) in
      let y1 := if Qltb (px firstPoint) (px pos) then py firstPoint else py pos in
      let y2 := if Qltb (px firstPoint) (px pos) then py pos else py firstPoint in
      let payload :=
        mkTermData x1 x2 y1 y2
                   (num_to_string num ++ "-" ++ num_to_string num)%string
                   num color (canvasWidth s) (canvasHeight s) in
      (set_terminationState s1 Idle, reg, Some payload)
  end.

Definition cancelTermination (s : Canvas) (reg : Registry) : Canvas * Registry :=
  match terminationState s with
  | Awaiting _ num _ =>
      let popped :=
        match pop (elements s) with
        | Some (rest, lastElement) =>
            match data lastElement with
            | Termination _ _ _ _ number _ =>
                if (number =? num)%Z then Some rest else None
            | _ => None
            end
        | None => None
        end in
      match popped with
      | Some rest =>
          (set_terminationState
             (set_history s rest (undoStack s) (redoStack s)) Idle,
           recycleTerminationNumber reg num)
      | None => (set_terminationState s Idle, reg)
      end
  | Idle => (s, reg)
  end.

Definition cancelCurrentOperation (s : Canvas) (reg : Registry)
  : Canvas * Registry :=
  let s1 := if isDrawing s then set_drawing s false [] None else s in
  let s2 := if textInput s1 then set_textInput s1 false else s1 in
  cancelTermination s2 reg.

Definition handleKeyDown (s : Canvas) (reg : Registry) (key : string)
  : Canvas * Registry :=
  if String.eqb key "Escape" then cancelCurrentOperation s reg else (s, reg).

Definition setTool (s : Canvas) (reg : Registry) (tool : string)
  : Canvas * Registry :=
  let (s1, reg1) := cancelCurrentOperation s reg in
  (set_hoverElement (set_currentTool s1 tool) None, reg1).

(** ** Derived observations used by the properties *)

Definition terminationNumber (e : Element) : option Z :=
  match data e with
  | Termination _ _ _ _ number _ => Some number
  | _ => None
  end.

Definition isTermination (e : Element) : bool :=
  match data e with Termination _ _ _ _ _ _ => true | _ => false end.

(** The [number]s of the termination elements of a list, in order. *)
Definition terminationNumbers (els : list Element) : list Z :=
  flat_map (fun e => match terminationNumber e with
                     | Some n => [n] | None => [] end) els.

(** [n] consecutive calls of [addElement]. *)
Definition addElements (s : Canvas) (es : list Element) : Canvas :=
  fold_left addElement es s.

(** [n] consecutive calls of [undo], with the value each call returned. *)
Fixpoint undoTimes (n : nat) (s : Canvas) (reg : Registry)
  : list bool * Canvas * Registry :=
  match n with
  | O => ([], s, reg)
  | S k =>
      let '(ok, s1, reg1) := undo s reg in
      let '(oks, s2, reg2) := undoTimes k s1 reg1 in
      (ok :: oks, s2, reg2)
  end.

Fixpoint redoTimes (n : nat) (s : Canvas) : list bool * Canvas :=
  match n with
  | O => ([], s)
  | S k =>
      let '(ok, s1) := redo s in
      let '(oks, s2) := redoTimes k s1 in
      (ok :: oks, s2)
  end.

(** The operations on one surface that touch its element list, history or
    two-click state. *)
Inductive Op :=
| OpAdd (e : Element)
| OpErase (pos : Point)
| OpUndo
| OpRedo
| OpClear
| OpClick (pos : Point) (now : Z) (r : nat)
| OpSetTool (tool : string).

Definition step (st : Canvas * Registry) (op : Op) : Canvas * Registry :=
  let (s, reg) := st in
  match op with
  | OpAdd e => (addElement s e, reg)
  | OpErase pos => (handleEraser s pos, reg)
  | OpUndo => let '(_, s1, reg1) := undo s reg in (s1, reg1)
  | OpRedo => (snd (redo s), reg)
  | OpClear => (clear s, reg)
  | OpClick pos now r =>
      let '(s1, reg1, _) := placeTermination s reg pos now r in (s1, reg1)
  | OpSetTool tool => setTool s reg tool
  end.

Definition run (st : Canvas * Registry) (ops : list Op) : Canvas * Registry :=
  fold_left step ops st.

(** The number of entries held by both stacks. *)
Definition historySize (s : Canvas) : nat :=
  (List.length (undoStack s) + List.length (redoStack s))%nat.

Definition isErase (op : Op) : bool :=
  match op with OpErase _ => true | _ => false end.

(** The state on which [cancelCurrentOperation] calls
    [cancelTermination]. *)
Definition afterDrawingReset (s : Canvas) : Canvas :=
  let s1 := if isDrawing s then set_drawing s false [] None else s in
  if textInput s1 then set_textInput s1 false else s1.

(** The [number]s of the first-click ([first = true]) or second-click
    termination elements of a list. *)
Definition clickNumbers (first : bool) (els : list Element) : list Z :=
  flat_map (fun e => match data e with
                     | Termination _ _ _ _ number isFirstPoint =>
                         if Bool.eqb isFirstPoint first then [number] else []
                     | _ => []
                     end) els.

(** Operations other than undo and redo, with [addElement] restricted to
    elements that are not terminations (those come from the termination
    tool only). *)
Definition keepsNumbering (op : Op) : bool :=
  match op with
  | OpUndo | OpRedo => false
  | OpAdd e => negb (isTermination e)
  | _ => true
  end.

(** The invariant that ties the numbers on a surface to the registry:
    numbers in use are at most [count] and not in the pool; first-click
    numbers are pairwise distinct and so are second-click numbers; the
    number of a pending pair has no second-click element yet; the pool
    holds numbers up to [count], each once. *)
Definition numbering (els : list Element) (ts : TerminationState)
           (reg : Registry) : Prop :=
  (forall n, In n (terminationNumbers els) ->
             (n <= count reg)%Z /\ ~ In n (pool reg)) /\
  NoDup (clickNumbers true els) /\
  NoDup (clickNumbers false els) /\
  (forall fp n color, ts = Awaiting fp n color ->
                      (n <= count reg)%Z /\ ~ In n (pool reg)
                      /\ ~ In n (clickNumbers false els)) /\
  (forall n, In n (pool reg) -> (n <= count reg)%Z) /\
  NoDup (pool reg).

Definition NumberingInv (st : Canvas * Registry) : Prop :=
  numbering (elements (fst st)) (terminationState (fst st)) (snd st).

End Canvas.

(* ================================================================== *)
(** * The orchestrator callbacks (exercise/js/storage.js) *)

Module App.
Import Canvas.
Local Open Scope Q_scope.

(** [showToast(message, type)] *)
Record Toast := mkToast { message : string; kind : string }.

(** [AppState]: the two drawing canvases (null until initialised), the
    counter object they share, and the toasts shown so far.  [nextRef] is
    the identity the next allocated element object receives. *)
Record AppState := mkApp {
  crossSectionCanvas : option Canvas;
  wheelerCanvas : option Canvas;
  terminationCounter : Registry;
  nextRef : nat;
  toasts : list Toast
}.

Record Padding := mkPadding { top : Q; right : Q; bottom : Q; left : Q }.

(** [{ top: 40, right: 40, bottom: 60, left: 70 }] *)
Definition padding : Padding := mkPadding 40 40 60 70.

Definition showToast (app : AppState) (msg type : string) : AppState :=
  mkApp (crossSectionCanvas app) (wheelerCanvas app) (terminationCounter app)
        (nextRef app) (push (toasts app) (mkToast msg type)).

Definition plotWidth (w : Canvas) : Q :=
  inject_Z (canvasWidth w) - left padding - right padding.

Definition plotHeight (w : Canvas) : Q :=
  inject_Z (canvasHeight w) - top padding - bottom padding.

(** The element [handleTerminationPlaced] builds for the Wheeler canvas. *)
Definition terminationLineFor (w : Canvas) (termData : TermData) : ElemData :=
  let x1Ratio := tx1 termData / inject_Z (tcanvasWidth termData) in
  let x2Ratio := tx2 termData / inject_Z (tcanvasWidth termData) in
  let wheelerX1 := left padding + (x1Ratio * plotWidth w) in
  let wheelerX2 := left padding + (x2Ratio * plotWidth w) in
  let yRatio := inject_Z (tnumber termData) / 50 in
  let wheelerY := inject_Z (canvasHeight w) - bottom padding
                  - (yRatio * plotHeight w) in
  TerminationLine "#000000" wheelerX1 wheelerX2 wheelerY
                  (tlabel termData) (tnumber termData) 4.

Definition handleTerminationPlaced (app : AppState) (termData : TermData)
           (now : Z) : AppState :=
  match wheelerCanvas app with
  | None => app
  | Some w =>
      let lineElement := mkElement (nextRef app) now (terminationLineFor w termData) in
      showToast
        (mkApp (crossSectionCanvas app) (Some (addElement w lineElement))
               (terminationCounter app) (S (nextRef app)) (toasts app))
        ("Termination " ++ tlabel termData ++ " projected to Wheeler diagram")
        "success"
  end.

(** Deliberately empty. *)
Definition handleMarkerPlaced (app : AppState) (markerData : MarkerData)
  : AppState := app.

(** A left click on the cross-section canvas while its tool is
    [termination]: [placeTermination] runs on that canvas and, on a second
    click, calls [handleTerminationPlaced] before it returns.  The callback
    reads nothing of the cross-section canvas, so running it on the state
    left by [placeTermination] is the same. *)
Definition crossSectionTerminationClick (app : AppState) (pos : Point)
           (now : Z) : AppState :=
  match crossSectionCanvas app with
  | None => app
  | Some c =>
      let '(c', reg', payload) :=
        placeTermination c (terminationCounter app) pos now (nextRef app) in
      let app1 := mkApp (Some c') (wheelerCanvas app) reg'
                        (S (nextRef app)) (toasts app) in
      match payload with
      | Some termData => handleTerminationPlaced app1 termData now
      | None => app1
      end
  end.

(** [tractColors[tractType] || '#FFFF00'] *)
Definition tractColor (tractType : string) : string :=
  if String.eqb tractType "HST" then "#FFFF00"
  else if String.eqb tractType "TST" then "#00FFFF"
  else if String.eqb tractType "LST" then "#FFA500"
  else if String.eqb tractType "FSST" then "#FF69B4"
  else if String.eqb tractType "RST" then "#90EE90"
  else "#FFFF00".

Definition lineNumber (e : Element) : Z :=
  match data e with TerminationLine _ _ _ _ _ n _ => n | _ => 0%Z end.
Definition lineX1 (e : Element) : Q :=
  match data e with TerminationLine _ x1 _ _ _ _ _ => x1 | _ => 0 end.
Definition lineX2 (e : Element) : Q :=
  match data e with TerminationLine _ _ x2 _ _ _ _ => x2 | _ => 0 end.
Definition lineY (e : Element) : Q :=
  match data e with TerminationLine _ _ _ y _ _ _ => y | _ => 0 end.

(** The filter of [handleGenerateAutoTract]. *)
Definition inRange (fromNum toNum : Z) (el : Element) : bool :=
  match data el with
  | TerminationLine _ _ _ _ _ number _ =>
      (fromNum <=? number)%Z && (number <=? toNum)%Z
  | _ => false
  end.

Definition polygonPoints (terminationLines : list Element) : list Point :=
  map (fun line => mkPoint (lineX1 line) (lineY line)) terminationLines
  ++ map (fun line => mkPoint (lineX2 line) (lineY line)) (rev terminationLines).

Definition msgInvalidNumbers : string := "Please enter valid termination numbers".
Definition msgFromNotLess : string := "From number must be less than To number".
Definition msgNotEnough (fromNum toNum : Z) (found : nat) : string :=
  ("Need at least 2 termination lines in range " ++ num_to_string fromNum
   ++ "-" ++ num_to_string toNum ++ ". Found "
   ++ num_to_string (Z.of_nat found) ++ ".")%string.

(** [handleGenerateAutoTract]: [fromValue], [toValue] and [tractType] are
    the values of the fields [DOM.tractFromNum], [DOM.tractToNum] and
    [DOM.autoTractType]. *)
Definition handleGenerateAutoTract (app : AppState) (fromValue toValue : string)
           (tractType : string) (now : Z) : AppState :=
  match wheelerCanvas app with
  | None => showToast app "Wheeler canvas not initialized" "error"
  | Some w =>
      let fromNum := parseInt fromValue in
      let toNum := parseInt toValue in
      match fromNum, toNum with
      | Some f, Some t =>
          if (f <? 1)%Z || (t <? 1)%Z then showToast app msgInvalidNumbers "error"
          else if (t <=? f)%Z then showToast app msgFromNotLess "error"
          else
            let terminationLines := filter (inRange f t) (elements w) in
            if (List.length terminationLines <? 2)%nat then
              showToast app (msgNotEnough f t (List.length terminationLines)) "error"
            else
              let sorted := sort_by lineNumber terminationLines in
              let tractElement :=
                mkElement (nextRef app) now
                          (SystemTract tractType (tractColor tractType)
                                       (polygonPoints sorted)) in
              showToast
                (mkApp (crossSectionCanvas app) (Some (addElement w tractElement))
                       (terminationCounter app) (S (nextRef app)) (toasts app))
                (tractType ++ " system tract generated from terminations "
                 ++ num_to_string f ++ "-" ++ num_to_string t)
                "success"
      | _, _ => showToast app msgInvalidNumbers "error"
      end
  end.

(** [setColor(color)] of the orchestrator: both canvases take the colour. *)
Definition setColor (app : AppState) (color : string) : AppState :=
  mkApp (option_map (fun c => Canvas.setColor c color) (crossSectionCanvas app))
        (option_map (fun w => Canvas.setColor w color) (wheelerCanvas app))
        (terminationCounter app) (nextRef app) (toasts app).

Definition resetTerminationCounter (app : AppState) : AppState :=
  mkApp (crossSectionCanvas app) (wheelerCanvas app) (mkRegistry 0 (Some []))
        (nextRef app) (toasts app).

(** [handleConfirmClear] for the target [crossSection]. *)
Definition confirmClearCrossSection (app : AppState) : AppState :=
  match crossSectionCanvas app with
  | Some c =>
      showToast
        (resetTerminationCounter
           (mkApp (Some (clear c)) (wheelerCanvas app) (terminationCounter app)
                  (nextRef app) (toasts app)))
        "Cross-section cleared" "info"
  | None => app
  end.

(** [handleConfirmClear] for the target [wheeler]. *)
Definition confirmClearWheeler (app : AppState) : AppState :=
  match wheelerCanvas app with
  | Some w =>
      showToast
        (mkApp (crossSectionCanvas app) (Some (clear w)) (terminationCounter app)
               (nextRef app) (toasts app))
        "Wheeler diagram cleared" "info"
  | None => app
  end.

(** [initializeCanvases]: both canvases share [{ count: 0 }]; the Wheeler
    canvas is [Math.round(height * 1.5)] high. *)
Definition initializeCanvases (width height : Z) : AppState :=
  mkApp (Some (constructor width height))
        (Some (constructor width ((3 * height + 1) / 2)%Z))
        (mkRegistry 0 None) 0 [].

End App.

(* ================================================================== *)
(** * Concrete states and inputs used as examples *)

Module Scenarios.
Import Canvas App.
Local Open Scope Q_scope.

(** A marker object with identity [i], placed at [(20 i, 10)]. *)
Definition markerAt (i : nat) : Element :=
  mkElement i 0 (Marker "#FF0000" (inject_Z (20 * Z.of_nat i)) 10 12).

(** [n] marker objects with identities [0 .. n-1]. *)
Definition markers (n : nat) : list Element := map markerAt (seq 0 n).

Definition freshCanvas : Canvas := constructor 1400 500.
Definition freshRegistry : Registry := mkRegistry 0 None.

(** A canvas on which fifty markers were added, one after the other. *)
Definition fiftyMarkers : Canvas := addElements freshCanvas (markers 50).

(** The state after one termination click at (100, 200). *)
Definition afterFirstClick : Canvas * Registry :=
  run (freshCanvas, freshRegistry) [OpClick (mkPoint 100 200) 0 0].

(** ... and after [clear()] was then called. *)
Definition clearedWhileAwaiting : Canvas * Registry :=
  run afterFirstClick [OpClear].

(** One termination click, then a marker is added to the same canvas. *)
Definition clickThenMarker : Canvas * Registry :=
  run afterFirstClick [OpAdd (markerAt 7)].

(** A complete pair: clicks at (100, 200) and (300, 220). *)
Definition onePair : Canvas * Registry :=
  run (freshCanvas, freshRegistry)
      [OpClick (mkPoint 100 200) 0 0; OpClick (mkPoint 300 220) 1 1].

(** A pair, the second click undone, and a new first click. *)
Definition pairUndoClick : Canvas * Registry :=
  run onePair [OpUndo; OpClick (mkPoint 500 200) 2 2].

(** Two Wheeler canvases: lines numbered 2, 7 and 5, and lines 2 and 7. *)
Definition wheelerLine (r : nat) (n : Z) (x1 x2 : Q) : Element :=
  mkElement r 0 (TerminationLine "#000000" x1 x2 (inject_Z (500 - 10 * n))
                                 (num_to_string n ++ "-" ++ num_to_string n)
                                 n 4).

Definition wheeler257 : Canvas :=
  addElements (constructor 1400 750)
    [wheelerLine 0 2 100 300; wheelerLine 1 7 200 500; wheelerLine 2 5 150 400].

Definition wheeler27 : Canvas :=
  addElements (constructor 1400 750)
    [wheelerLine 0 2 100 300; wheelerLine 1 7 200 500].

Definition appWith (w : Canvas) : AppState :=
  mkApp (Some freshCanvas) (Some w) (mkRegistry 7 (Some [])) 10 [].

End Scenarios.

(* ================================================================== *)
(** * The exam timer: pausing, persistence and display *)

Module TimerOps.
Import Timer.

(** [pause()] *)
Definition pause (t : ExamTimer) (now : Z) : ExamTimer :=
  if isRunning t then saveState (stop (updateRemaining t now)) else t.

(** [resume()] *)
Definition resume (t : ExamTimer) (now : Z) : ExamTimer * list Callback :=
  if isRunning t then (t, []) else start t now.

(** [reset()] *)
Definition reset (t : ExamTimer) : ExamTimer :=
  clearState (mkTimer (duration t) (duration t) [] false false None false
                      (localStorage t)).

(** [new Set(array)]: later duplicates are dropped. *)
Definition newSet (arr : list Z) : list Z := fold_left add arr [].

(** [loadState()]: the value returned and the timer afterwards. *)
Definition loadState (t : ExamTimer) (now : Z) : bool * ExamTimer :=
  match localStorage t with
  | Some state =>
      match savedEndTime state with
      | Some e =>
          if e =? 0 then (false, t)
          else (true,
                mkTimer (duration t) (Z.max 0 (e - now))
                        (newSet (savedWarningsShown state)) (intervalId t)
                        (listening t) (Some e) (isRunning t) (localStorage t))
      | None => (false, t)
      end
  | None => (false, t)
  end.

(** The timer object a page constructs after a reload: what was written to
    [localStorage] is still there. *)
Definition reopen (optDuration : option Z) (stored : option SavedState)
  : ExamTimer :=
  let t := constructor optDuration in
  mkTimer (duration t) (remaining t) (warningsShown t) (intervalId t)
          (listening t) (endTime t) (isRunning t) stored.

(** [getRemaining()] and [getTimeSpent()]: the value and the timer. *)
Definition getRemaining (t : ExamTimer) (now : Z) : Z * ExamTimer :=
  let t1 := updateRemaining t now in (remaining t1, t1).

Definition getTimeSpent (t : ExamTimer) (now : Z) : Z * ExamTimer :=
  let t1 := updateRemaining t now in (duration t1 - remaining t1, t1).

(** [s.padStart(2, '0')] *)
Definition padStart2 (s : string) : string :=
  match String.length s with
  | O => ("00" ++ s)%string
  | S O => ("0" ++ s)%string
  | _ => s
  end.

(** [ExamTimer.formatTime(ms)] *)
Definition formatTime (ms : Z) : string :=
  let ms := if ms <? 0 then 0 else ms in
  let hours := ms / 3600000 in
  let minutes := Z.rem ms 3600000 / 60000 in
  let seconds := Z.rem ms 60000 / 1000 in
  (padStart2 (num_to_string hours) ++ ":" ++ padStart2 (num_to_string minutes)
   ++ ":" ++ padStart2 (num_to_string seconds))%string.

(** How often [onExpire] was invoked. *)
Definition timesExpired (out : list Callback) : nat :=
  List.length (filter isExpire out).

(** No interval, no listeners, not running. *)
Definition stopped (t : ExamTimer) : Prop :=
  intervalId t = false /\ listening t = false /\ isRunning t = false.

(** The stored record is the one [saveState()] would write now. *)
Definition synced (t : ExamTimer) : Prop :=
  localStorage t
  = Some (mkSaved (endTime t) (warningsShown t) (duration t)).

End TimerOps.

(* ================================================================== *)
(** * The older timer: start and a run of interval callbacks *)

Module LegacyOps.
Import Timer.

(** [start()]; the fields [startTime] and [pausedTime], which are written
    and never read, are not part of the record. *)
Definition start (t : LegacyTimer.ExamTimer)
  : LegacyTimer.ExamTimer * list Callback :=
  if LegacyTimer.isRunning t then (t, [])
  else
    (LegacyTimer.mkTimer (LegacyTimer.duration t) (LegacyTimer.remaining t)
                         (LegacyTimer.warningsShown t) true true,
     [OnTick (LegacyTimer.remaining t) (LegacyTimer.getTimerClass t)]).

(** [n] interval callbacks, each delivered only while the interval is
    installed, with everything they invoke. *)
Fixpoint ticks (n : nat) (t : LegacyTimer.ExamTimer)
  : LegacyTimer.ExamTimer * list Callback :=
  match n with
  | O => (t, [])
  | S k =>
      if LegacyTimer.intervalId t then
        let (t1, out) := LegacyTimer.tick t in
        let (t2, out') := ticks k t1 in
        (t2, out ++ out')
      else (t, [])
  end.

(** The test of the older [tick] for one threshold. *)
Definition fires (t : LegacyTimer.ExamTimer) (time : Z) : bool :=
  (LegacyTimer.remaining t <=? time) && (time - 1000 <? LegacyTimer.remaining t)
  && negb (has (LegacyTimer.warningsShown t) time).

(** The timer with one second taken off. *)
Definition decremented (t : LegacyTimer.ExamTimer) : LegacyTimer.ExamTimer :=
  LegacyTimer.mkTimer (LegacyTimer.duration t) (LegacyTimer.remaining t - 1000)
                      (LegacyTimer.warningsShown t) (LegacyTimer.intervalId t)
                      (LegacyTimer.isRunning t).

End LegacyOps.

(* ================================================================== *)
(** * The drawing canvas: line and polygon tools, saved state *)

Module Tools.
Import Canvas.
Local Open Scope Q_scope.

(** [this.activeElement.points = [...this.points]] *)
Definition withPoints (act : option ElemData) (pts : list Point)
  : option ElemData :=
  match act with
  | Some (Line c w _) => Some (Line c w pts)
  | Some (Polygon c _) => Some (Polygon c pts)
  | Some (Surface t c w _) => Some (Surface t c w pts)
  | Some (SystemTract t c _) => Some (SystemTract t c pts)
  | other => other
  end.

(** [finishLine()]: [now] is [Date.now()], [r] the identity of the element
    object it creates. *)
Definition finishLine (s : Canvas) (reg : Registry) (now : Z) (r : nat)
  : Canvas * Registry :=
  if (List.length (points s) <? 2)%nat then cancelCurrentOperation s reg
  else
    let element := mkElement r now
                     (Line (currentColor s) (lineWidth s) (points s)) in
    (set_drawing (addElement s element) false [] None, reg).

(** [finishPolygon()] *)
Definition finishPolygon (s : Canvas) (reg : Registry) (now : Z) (r : nat)
  : Canvas * Registry :=
  if (List.length (points s) <? 3)%nat then cancelCurrentOperation s reg
  else
    let element := mkElement r now (Polygon (currentColor s) (points s)) in
    (set_drawing (addElement s element) false [] None, reg).

(** [addPolygonPoint(pos)].  With [isDrawing] set and no point stored the
    method throws on [start.x] before it changes anything. *)
Definition addPolygonPoint (s : Canvas) (reg : Registry) (pos : Point)
           (now : Z) (r : nat) : Canvas * Registry :=
  if isDrawing s then
    match points s with
    | start :: _ =>
        if (3 <=? List.length (points s))%nat
           && hypot_lt (px pos - px start) (py pos - py start) 15
        then finishPolygon s reg now r
        else
          let pts := push (points s) pos in
          (set_drawing s true pts (withPoints (activeElement s) pts), reg)
    | [] => (s, reg)
    end
  else
    (set_drawing s true [pos] (Some (Polygon (currentColor s) [pos])), reg).

(** Clicks of the line tool, one after the other. *)
Definition lineClicks (s : Canvas) (clicks : list Point) : Canvas :=
  fold_left addLinePoint clicks s.

(** A click of the polygon tool: the position, the time and the identity
    of the object the click may create. *)
Definition clickPos (c : Point * Z * nat) : Point := fst (fst c).

(** Clicks of the polygon tool, one after the other; every click is handed
    the time and the object identity it may need. *)
Fixpoint polygonClicks (st : Canvas * Registry) (clicks : list (Point * Z * nat))
  : Canvas * Registry :=
  match clicks with
  | [] => st
  | (pos, now, r) :: rest =>
      polygonClicks (addPolygonPoint (fst st) (snd st) pos now r) rest
  end.

(** The object [getState()] returns and [loadState(state)] reads. *)
Record SavedCanvas := mkSavedCanvas {
  savedElements : option (list Element);
  savedCanvasId : string
}.

(** [JSON.parse(JSON.stringify(elements))]: the same fields in new objects,
    which receive the identities [r0], [r0 + 1], ... *)
Fixpoint deepCopy (r0 : nat) (els : list Element) : list Element :=
  match els with
  | [] => []
  | e :: rest => mkElement r0 (timestamp e) (data e) :: deepCopy (S r0) rest
  end.

(** [getState()] *)
Definition getState (s : Canvas) (canvasId : string) (r0 : nat) : SavedCanvas :=
  mkSavedCanvas (Some (deepCopy r0 (elements s))) canvasId.

(** [loadState(state)]: [None] is a null or undefined [state]. *)
Definition loadState (s : Canvas) (state : option SavedCanvas) : Canvas :=
  match state with
  | Some st =>
      match savedElements st with
      | Some els => set_history s els [] []
      | None => s
      end
  | None => s
  end.

(** [hasElements()] and [getElementCount()] *)
Definition hasElements (s : Canvas) : bool :=
  (0 <? List.length (elements s))%nat.

Definition getElementCount (s : Canvas) : nat := List.length (elements s).

End Tools.

(* ================================================================== *)
(** * The orchestrator: undo, redo and clearing across both canvases *)

Module Orchestrator.
Import Canvas App.

(** [getActiveDrawingCanvas()], and the canvas [handleUndo] and
    [handleRedo] call [otherCanvas]. *)
Definition getActiveDrawingCanvas (app : AppState) (activeCanvas : string)
  : option Canvas :=
  if String.eqb activeCanvas "crossSection"
  then crossSectionCanvas app else wheelerCanvas app.

Definition otherCanvas (app : AppState) (activeCanvas : string)
  : option Canvas :=
  if String.eqb activeCanvas "crossSection"
  then wheelerCanvas app else crossSectionCanvas app.

(** [canvas && canvas.undo()] on the cross-section canvas ([onCross]) or on
    the Wheeler canvas: the value and the state afterwards. *)
Definition undoOn (app : AppState) (onCross : bool) : bool * AppState :=
  match (if onCross then crossSectionCanvas app else wheelerCanvas app) with
  | None => (false, app)
  | Some c =>
      let '(ok, c', reg') := undo c (terminationCounter app) in
      (ok,
       if onCross
       then mkApp (Some c') (wheelerCanvas app) reg' (nextRef app) (toasts app)
       else mkApp (crossSectionCanvas app) (Some c') reg' (nextRef app)
                  (toasts app))
  end.

Definition redoOn (app : AppState) (onCross : bool) : bool * AppState :=
  match (if onCross then crossSectionCanvas app else wheelerCanvas app) with
  | None => (false, app)
  | Some c =>
      let '(ok, c') := redo c in
      (ok,
       if onCross
       then mkApp (Some c') (wheelerCanvas app) (terminationCounter app)
                  (nextRef app) (toasts app)
       else mkApp (crossSectionCanvas app) (Some c') (terminationCounter app)
                  (nextRef app) (toasts app))
  end.

(** [handleUndo()]: [activeCanvas] is [AppState.activeCanvas]. *)
Definition handleUndo (app : AppState) (activeCanvas : string) : AppState :=
  let crossActive := String.eqb activeCanvas "crossSection" in
  let (ok, app1) := undoOn app crossActive in
  if ok then showToast app1 "Undo" "info"
  else
    let (ok2, app2) := undoOn app1 (negb crossActive) in
    if ok2 then showToast app2 "Undo" "info" else app2.

(** [handleRedo()] *)
Definition handleRedo (app : AppState) (activeCanvas : string) : AppState :=
  let crossActive := String.eqb activeCanvas "crossSection" in
  let (ok, app1) := redoOn app crossActive in
  if ok then showToast app1 "Redo" "info"
  else
    let (ok2, app2) := redoOn app1 (negb crossActive) in
    if ok2 then showToast app2 "Redo" "info" else app2.

Definition isSome {A : Type} (o : option A) : bool :=
  match o with Some _ => true | None => false end.

(** [handleConfirmClear()], [clearTarget] being the target chosen in the
    modal. *)
Definition handleConfirmClear (app : AppState) (clearTarget : string)
  : AppState :=
  if String.eqb clearTarget "crossSection" && isSome (crossSectionCanvas app)
  then confirmClearCrossSection app
  else if String.eqb clearTarget "wheeler" && isSome (wheelerCanvas app)
  then confirmClearWheeler app
  else if String.eqb clearTarget "all"
  then
    showToast
      (resetTerminationCounter
         (mkApp (option_map clear (crossSectionCanvas app))
                (option_map clear (wheelerCanvas app))
                (terminationCounter app) (nextRef app) (toasts app)))
      "All drawings cleared" "warning"
  else app.

(** [setTool(tool)] of the orchestrator: both canvases are given the
    tool, the cross-section canvas first.  [AppState.currentTool] and the
    toolbar, which nothing modelled here reads, are left out. *)
Definition setTool (app : AppState) (tool : string) : AppState :=
  let (cross, reg1) :=
    match crossSectionCanvas app with
    | Some c =>
        let (c', reg') := Canvas.setTool c (terminationCounter app) tool in
        (Some c', reg')
    | None => (None, terminationCounter app)
    end in
  let (wheeler, reg2) :=
    match wheelerCanvas app with
    | Some w =>
        let (w', reg') := Canvas.setTool w reg1 tool in (Some w', reg')
    | None => (None, reg1)
    end in
  mkApp cross wheeler reg2 (nextRef app) (toasts app).

(** A left click on the Wheeler canvas while its tool is [termination]:
    that canvas was constructed without [onTerminationPlaced], so its
    second click calls the default callback, which does nothing. *)
Definition wheelerTerminationClick (app : AppState) (pos : Point) (now : Z)
  : AppState :=
  match wheelerCanvas app with
  | None => app
  | Some w =>
      let '(w', reg', _) :=
        placeTermination w (terminationCounter app) pos now (nextRef app) in
      mkApp (crossSectionCanvas app) (Some w') reg' (S (nextRef app))
            (toasts app)
  end.

(** [n] calls of [handleUndo]. *)
Fixpoint handleUndoTimes (n : nat) (app : AppState) (activeCanvas : string)
  : AppState :=
  match n with
  | O => app
  | S k => handleUndoTimes k (handleUndo app activeCanvas) activeCanvas
  end.

End Orchestrator.

(* ================================================================== *)
(** * Properties of the exam timer *)

Module TimerProps.
Import Timer.

Lemma has_In (s : list Z) (x : Z) : has s x = true <-> In x s.
Proof.
  unfold has. rewrite existsb_exists. split.
  - intros [y [Hy Heq]]. apply Z.eqb_eq in Heq. now subst.
  - intros H. exists x. split; [assumption | apply Z.eqb_refl].
Qed.

Lemma has_add (s : list Z) (x y : Z) :
  has (add s x) y = has s y || (y =? x).
Proof.
  unfold add. destruct (has s x) eqn:Hx.
  - destruct (Z.eqb_spec y x) as [->|]; [now rewrite Hx | now rewrite orb_false_r].
  - unfold has. rewrite existsb_app. simpl. now rewrite orb_false_r.
Qed.

Lemma checkWarning_step (t : ExamTimer) (out : list Callback) (time : Z) :
  let res := checkWarning (t, out) time in
  sameClock t (fst res) /\
  warningsShown (fst res) =
    (if fires t time then add (warningsShown t) time else warningsShown t) /\
  snd res = out ++ (if fires t time then [OnWarning (time / 60000)] else []).
Proof.
  unfold checkWarning, fires, inWindow, sameClock.
  destruct ((remaining t <=? time) && (time - 1500 <? remaining t)
            && negb (has (warningsShown t) time)); simpl;
    rewrite ?app_nil_r; auto 10.
Qed.

Lemma fold_checkWarning (ws : list Z) :
  NoDup ws ->
  forall (t : ExamTimer) (out : list Callback),
    let res := fold_left checkWarning ws (t, out) in
    sameClock t (fst res) /\
    (forall x, has (warningsShown (fst res)) x =
               has (warningsShown t) x || (existsb (Z.eqb x) ws && fires t x)) /\
    snd res = out ++ map (fun time => OnWarning (time / 60000))
                         (filter (fires t) ws).
Proof.
  induction 1 as [|w ws Hnotin Hnd IH]; intros t out; cbn [fold_left]; cbv zeta.
  - simpl. unfold sameClock. rewrite app_nil_r.
    split; [auto 10 | split; [intros; now rewrite orb_false_r | reflexivity]].
  - destruct (checkWarning (t, out) w) as [t1 out1] eqn:Hstep.
    pose proof (checkWarning_step t out w) as Hs. cbv zeta in Hs.
    rewrite Hstep in Hs. cbn [fst snd] in Hs.
    destruct Hs as [Hclock [Hshown Hout]].
    specialize (IH t1 out1). cbv zeta in IH.
    destruct IH as [Hclock' [Hhas Hout']].
    assert (Hfires : forall x, In x ws -> fires t1 x = fires t x).
    { intros x Hx. unfold fires.
      destruct Hclock as [-> _]. f_equal. f_equal.
      rewrite Hshown. destruct (fires t w); [|reflexivity].
      rewrite has_add.
      destruct (Z.eqb_spec x w) as [->|]; [contradiction | apply orb_false_r]. }
    split; [|split].
    + destruct Hclock as (a1 & a2 & a3 & a4 & a5 & a6).
      destruct Hclock' as (b1 & b2 & b3 & b4 & b5 & b6).
      repeat split;
        [exact (eq_trans b1 a1) | exact (eq_trans b2 a2) | exact (eq_trans b3 a3)
        | exact (eq_trans b4 a4) | exact (eq_trans b5 a5) | exact (eq_trans b6 a6)].
    + intros x. rewrite Hhas, Hshown. cbn [existsb].
      assert (Hsame : has (if fires t w then add (warningsShown t) w
                           else warningsShown t) x
                      = has (warningsShown t) x || ((x =? w) && fires t w)).
      { destruct (fires t w); [rewrite has_add | idtac];
          destruct (x =? w); now rewrite ?orb_false_r. }
      rewrite Hsame.
      destruct (existsb (Z.eqb x) ws) eqn:E.
      * apply existsb_exists in E. destruct E as [y [Hy Hyx]].
        apply Z.eqb_eq in Hyx. subst y. rewrite (Hfires x Hy).
        destruct (Z.eqb_spec x w) as [Heq|Hne]; [subst; contradiction|].
        simpl. now rewrite orb_false_r.
      * simpl. rewrite !orb_false_r.
        destruct (Z.eqb_spec x w) as [Heq|Hne]; [subst x|]; reflexivity.
    + rewrite Hout', Hout.
      rewrite (filter_ext_in (fires t1) (fires t) ws Hfires).
      cbn [filter]. destruct (fires t w); cbn [map];
        rewrite <- ?app_assoc, ?app_nil_r; reflexivity.
Qed.

Lemma NoDup_warningTimes : NoDup warningTimes.
Proof.
  unfold warningTimes. repeat constructor; simpl; intuition discriminate.
Qed.

Lemma updateRemaining_frame (t : ExamTimer) (now : Z) :
  warningsShown (updateRemaining t now) = warningsShown t /\
  endTime (updateRemaining t now) = endTime t /\
  isRunning (updateRemaining t now) = isRunning t /\
  intervalId (updateRemaining t now) = intervalId t /\
  listening (updateRemaining t now) = listening t.
Proof.
  unfold updateRemaining. destruct (endTime t) as [e|] eqn:E; [|now rewrite E].
  destruct (e =? 0); simpl; rewrite ?E; auto 10.
Qed.

Lemma updateRemaining_deadline (t : ExamTimer) (now d : Z) :
  endTime t = Some d -> d <> 0 ->
  remaining (updateRemaining t now) = Z.max 0 (d - now).
Proof.
  intros E Hd. unfold updateRemaining. rewrite E.
  destruct (Z.eqb_spec d 0); [contradiction | reflexivity].
Qed.

Lemma tick_callbacks (t : ExamTimer) (now : Z) :
  let t1 := updateRemaining t now in
  exists t2 tail,
    sameClock t1 t2 /\
    (tail = [] \/ tail = [OnExpire]) /\
    snd (tick t now) =
      map (fun time => OnWarning (time / 60000)) (filter (fires t1) warningTimes)
      ++ OnTick (remaining t1) (getTimerClass t2) :: tail /\
    (forall x, has (warningsShown (fst (tick t now))) x =
               has (warningsShown t) x
               || (existsb (Z.eqb x) warningTimes && fires t1 x)) /\
    endTime (fst (tick t now)) = endTime t.
Proof.
  intros t1. unfold tick. fold t1.
  pose proof (fold_checkWarning warningTimes NoDup_warningTimes t1 []) as H.
  destruct (fold_left checkWarning warningTimes (t1, [])) as [t2 out2].
  simpl in H. destruct H as [Hclock [Hhas Hout]].
  destruct (updateRemaining_frame t now) as (Hshown1 & Hend1 & _).
  fold t1 in Hshown1, Hend1.
  pose proof Hclock as (c1 & c2 & _).
  exists t2.
  destruct (Z.rem (remaining t2 / 1000) 10 =? 0);
    match goal with
    | |- context [if ?c then _ else _] => destruct c
    end;
    [exists [OnExpire] | exists [] | exists [OnExpire] | exists []];
    simpl; rewrite Hout, ?c1, ?c2, ?Hend1; simpl; rewrite <- ?app_assoc; simpl;
    (split; [exact Hclock |
     split; [auto |
     split; [reflexivity |
     split; [intros x; rewrite Hhas, Hshown1; reflexivity | reflexivity]]]]).
Qed.

Lemma reported_warnings (l : list Z) :
  reported (map (fun time => OnWarning (time / 60000)) l) = [].
Proof. induction l; simpl; auto. Qed.

Lemma warnings_warnings (l : list Z) :
  warnings (map (fun time => OnWarning (time / 60000)) l)
  = map (fun time => time / 60000) l.
Proof. induction l; simpl; congruence. Qed.

Lemma reported_app (a b : list Callback) :
  reported (a ++ b) = reported a ++ reported b.
Proof. unfold reported. now rewrite flat_map_app. Qed.

Lemma warnings_app (a b : list Callback) :
  warnings (a ++ b) = warnings a ++ warnings b.
Proof. unfold warnings. now rewrite flat_map_app. Qed.

Lemma tick_reported (t : ExamTimer) (now : Z) :
  reported (snd (tick t now)) = [remaining (updateRemaining t now)].
Proof.
  destruct (tick_callbacks t now) as (t2 & tail & _ & Htail & Hout & _).
  rewrite Hout, reported_app, reported_warnings.
  destruct Htail as [-> | ->]; reflexivity.
Qed.

Lemma tick_warnings (t : ExamTimer) (now : Z) :
  warnings (snd (tick t now))
  = map (fun time => time / 60000)
        (filter (fires (updateRemaining t now)) warningTimes).
Proof.
  destruct (tick_callbacks t now) as (t2 & tail & _ & Htail & Hout & _).
  rewrite Hout, warnings_app, warnings_warnings.
  destruct Htail as [-> | ->]; simpl; now rewrite app_nil_r.
Qed.

Lemma visibility_callbacks (t : ExamTimer) (now : Z) :
  isRunning t = true ->
  exists tail,
    snd (handleVisibilityChange t now)
    = OnTick (remaining (updateRemaining t now))
             (getTimerClass (updateRemaining t now)) :: tail
    /\ (tail = [] \/ tail = [OnExpire]).
Proof.
  intros Hrun. unfold handleVisibilityChange. rewrite Hrun.
  destruct (remaining (updateRemaining t now) <=? 0);
    [exists [OnExpire] | exists []]; simpl; auto.
Qed.

Lemma visibility_frame (t : ExamTimer) (now : Z) :
  warningsShown (fst (handleVisibilityChange t now)) = warningsShown t /\
  endTime (fst (handleVisibilityChange t now)) = endTime t /\
  warnings (snd (handleVisibilityChange t now)) = [].
Proof.
  unfold handleVisibilityChange.
  destruct (updateRemaining_frame t now) as (Hs & He & _).
  destruct (isRunning t); [|auto].
  destruct (remaining (updateRemaining t now) <=? 0); simpl; auto.
Qed.

Lemma dispatch_endTime (t : ExamTimer) (e : Event) :
  endTime (fst (dispatch t e)) = endTime t.
Proof.
  destruct e as [now|now]; simpl.
  - destruct (intervalId t); [|reflexivity].
    now destruct (tick_callbacks t now) as (? & ? & _ & _ & _ & _ & ->).
  - destruct (listening t); [|reflexivity]. apply visibility_frame.
Qed.

(** Every callback batch of a run reports the time left to the deadline,
    or is empty because the timer had stopped. *)
Lemma runLog_reported (d : Z) (evs : list Event) :
  d <> 0 ->
  forall t, endTime t = Some d ->
    Forall (fun entry =>
              reported (snd entry) = [Z.max 0 (d - eventTime (fst entry))]
              \/ snd entry = [])
           (snd (runLog t evs)).
Proof.
  intros Hd. induction evs as [|e evs IH]; intros t Hend; simpl.
  - constructor.
  - destruct (dispatch t e) as [t1 out] eqn:Hdisp.
    pose proof (dispatch_endTime t e) as Hend1. rewrite Hdisp in Hend1.
    simpl in Hend1. rewrite Hend in Hend1.
    specialize (IH t1 Hend1). destruct (runLog t1 evs) as [t2 log].
    simpl in *. constructor; [|exact IH]. simpl.
    destruct e as [now|now]; simpl in Hdisp.
    + destruct (intervalId t).
      * left. replace out with (snd (tick t now)) by now rewrite Hdisp.
        rewrite tick_reported. f_equal. now apply updateRemaining_deadline.
      * right. congruence.
    + destruct (listening t); [|right; congruence].
      unfold handleVisibilityChange in Hdisp.
      destruct (isRunning t) eqn:Hrun; [|right; congruence].
      left. rewrite (updateRemaining_deadline t now d Hend Hd) in Hdisp.
      destruct (Z.max 0 (d - now) <=? 0); inversion Hdisp; reflexivity.
Qed.

(** C1. After [start()], every tick and every visibility check reports
    [max(0, deadline - now)], where the deadline is the wall-clock time of
    the start plus the time then remaining: the value is recomputed from
    the absolute deadline.  With two hours remaining and the clock
    5,999,000 ms further on, with no tick in between, the next tick
    reports 1,201,000 ms. *)
Theorem remaining_recomputed_from_deadline :
  forall (t : ExamTimer) (now0 : Z),
    isRunning t = false -> 0 < now0 -> 0 <= remaining t ->
    let d := now0 + remaining t in
    let t1 := fst (start t now0) in
    endTime t1 = Some d /\
    isRunning t1 = true /\
    (forall now, reported (snd (tick t1 now)) = [Z.max 0 (d - now)]) /\
    (forall now,
        reported (snd (handleVisibilityChange t1 now)) = [Z.max 0 (d - now)]) /\
    (forall evs,
        Forall (fun entry =>
                  reported (snd entry) = [Z.max 0 (d - eventTime (fst entry))]
                  \/ snd entry = [])
               (snd (runLog t1 evs))) /\
    (remaining t = 7200000 ->
     reported (snd (tick t1 (now0 + 5999000))) = [1201000]).
Proof.
  intros t now0 Hrun Hnow Hrem d t1.
  assert (Hd : d <> 0) by (unfold d; lia).
  assert (Hend : endTime t1 = Some d).
  { unfold t1, start. rewrite Hrun. simpl.
    now destruct (updateRemaining_frame
                    (saveState (mkTimer (duration t) (remaining t)
                       (warningsShown t) (intervalId t) (listening t)
                       (Some (now0 + remaining t)) true (localStorage t))) now0)
      as (_ & -> & _). }
  assert (Hrun1 : isRunning t1 = true).
  { unfold t1, start. rewrite Hrun. simpl.
    now destruct (updateRemaining_frame
                    (saveState (mkTimer (duration t) (remaining t)
                       (warningsShown t) (intervalId t) (listening t)
                       (Some (now0 + remaining t)) true (localStorage t))) now0)
      as (_ & _ & -> & _). }
  assert (Htick : forall now, reported (snd (tick t1 now)) = [Z.max 0 (d - now)]).
  { intros now. rewrite tick_reported.
    now rewrite (updateRemaining_deadline t1 now d Hend Hd). }
  repeat split; try assumption.
  - intros now.
    destruct (visibility_callbacks t1 now Hrun1) as (tail & -> & Htail).
    rewrite (updateRemaining_deadline t1 now d Hend Hd).
    destruct Htail as [-> | ->]; reflexivity.
  - intros evs. now apply runLog_reported.
  - intros H72. rewrite Htick. unfold d. rewrite H72. f_equal. lia.
Qed.

Lemma remaining_recomputed_from_deadline_witness :
  let t := constructor (Some 7200000) in
  let t1 := fst (start t 1700000000000) in
  endTime t1 = Some (1700000000000 + 7200000) /\
  reported (snd (tick t1 (1700000000000 + 5999000))) = [1201000].
Proof.
  pose proof (remaining_recomputed_from_deadline
                (constructor (Some 7200000)) 1700000000000
                eq_refl ltac:(lia) ltac:(simpl; lia)) as H.
  cbv zeta in H. destruct H as (H1 & _ & _ & _ & _ & H6).
  split; [exact H1 | exact (H6 eq_refl)].
Defined.

Lemma timesWarned_app (m : Z) (a b : list Callback) :
  timesWarned m (a ++ b) = (timesWarned m a + timesWarned m b)%nat.
Proof.
  unfold timesWarned. now rewrite warnings_app, filter_app, length_app.
Qed.

Lemma warned_In (m : Z) (out : list Callback) :
  In (OnWarning m) out <-> (0 < timesWarned m out)%nat.
Proof.
  unfold timesWarned. induction out as [|c out IH]; simpl.
  - split; [tauto | lia].
  - destruct c as [r cls|m'|]; simpl.
    + rewrite <- IH. split; [intros [H|H]; [discriminate | exact H] | auto].
    + destruct (Z.eqb_spec m m') as [->|Hne]; simpl.
      * split; [lia | auto].
      * rewrite <- IH. split; [intros [H|H]; [congruence | exact H] | auto].
    + rewrite <- IH. split; [intros [H|H]; [discriminate | exact H] | auto].
Qed.

Lemma tick_warned (t : ExamTimer) (now time : Z) :
  In time warningTimes ->
  timesWarned (time / 60000) (snd (tick t now))
  = if fires (updateRemaining t now) time then 1%nat else 0%nat.
Proof.
  intros Hin. unfold timesWarned. rewrite tick_warnings.
  change warningTimes with [1800000; 900000; 300000] in *.
  cbn [filter].
  destruct Hin as [<-|[<-|[<-|[]]]];
    destruct (fires (updateRemaining t now) 1800000);
    destruct (fires (updateRemaining t now) 900000);
    destruct (fires (updateRemaining t now) 300000); reflexivity.
Qed.

Lemma existsb_warningTimes (time : Z) :
  In time warningTimes -> existsb (Z.eqb time) warningTimes = true.
Proof.
  intros H. apply existsb_exists. exists time. split; [exact H | apply Z.eqb_refl].
Qed.

Lemma fires_shown (t : ExamTimer) (time : Z) :
  has (warningsShown t) time = true -> fires t time = false.
Proof. intros H. unfold fires. rewrite H. apply andb_false_r. Qed.

Lemma fires_updateRemaining (t : ExamTimer) (now time : Z) :
  has (warningsShown t) time = true ->
  fires (updateRemaining t now) time = false.
Proof.
  intros H. apply fires_shown.
  now destruct (updateRemaining_frame t now) as (-> & _).
Qed.

(** One delivered event: the warning for [time] is emitted at most once,
    never when it is already in the fired set, and when it is emitted it
    is in the fired set afterwards. *)
Lemma dispatch_warned (t : ExamTimer) (e : Event) (time : Z) :
  In time warningTimes ->
  let m := time / 60000 in
  let res := dispatch t e in
  (timesWarned m (snd res) <= 1)%nat /\
  (has (warningsShown t) time = true ->
   timesWarned m (snd res) = 0%nat /\
   has (warningsShown (fst res)) time = true) /\
  (timesWarned m (snd res) = 1%nat ->
   has (warningsShown (fst res)) time = true).
Proof.
  intros Hin m res. subst m res.
  destruct e as [now|now]; simpl.
  - destruct (intervalId t); simpl;
      [|change (timesWarned (time / 60000) []) with 0%nat;
        split; [lia | split; [auto | discriminate]]].
    rewrite (tick_warned t now time Hin).
    destruct (tick_callbacks t now) as (t2 & tail & _ & _ & _ & Hhas & _).
    rewrite Hhas, (existsb_warningTimes time Hin). simpl.
    split; [destruct (fires (updateRemaining t now) time); lia|].
    split.
    + intros Hshown. rewrite Hshown, (fires_updateRemaining t now time Hshown).
      auto.
    + destruct (fires (updateRemaining t now) time);
        [intros _; apply orb_true_r | discriminate].
  - destruct (listening t); simpl;
      [|change (timesWarned (time / 60000) []) with 0%nat;
        split; [lia | split; [auto | discriminate]]].
    destruct (visibility_frame t now) as (Hs & _ & Hw).
    unfold timesWarned. rewrite Hw, Hs. simpl.
    split; [lia | split; [auto | discriminate]].
Qed.

Lemma runLog_warned (time : Z) (evs : list Event) :
  In time warningTimes ->
  forall t,
    (timesWarned (time / 60000) (trace (snd (runLog t evs))) <= 1)%nat /\
    (has (warningsShown t) time = true ->
     timesWarned (time / 60000) (trace (snd (runLog t evs))) = 0%nat).
Proof.
  intros Hin. induction evs as [|e evs IH]; intros t; simpl.
  - split; [unfold timesWarned; simpl; lia | reflexivity].
  - pose proof (dispatch_warned t e time Hin) as Hd. cbv zeta in Hd.
    destruct (dispatch t e) as [t1 out]. simpl in Hd.
    destruct Hd as (Hle & Hshown & Hone).
    destruct (IH t1) as [IHle IHshown].
    destruct (runLog t1 evs) as [t2 log]. simpl in *.
    unfold trace in *. simpl. rewrite timesWarned_app.
    split.
    + destruct (Nat.eq_dec (timesWarned (time / 60000) out) 1) as [H1|H1].
      * rewrite (IHshown (Hone H1)). lia.
      * lia.
    + intros Hs. destruct (Hshown Hs) as [H0 Hs1].
      rewrite H0, (IHshown Hs1). reflexivity.
Qed.

(** C2, as the code has it. Over any run of ticks and visibility checks
    the warning of a threshold is invoked at most once; a tick invokes it
    exactly when the remaining time it computes lies in the window
    (threshold - 1500 ms, threshold] and the threshold has not fired
    before; a visibility check never invokes a warning. *)
Theorem warning_at_most_once_within_window :
  forall (t : ExamTimer) (time : Z),
    In time warningTimes ->
    (forall evs,
        (timesWarned (time / 60000) (trace (snd (runLog t evs))) <= 1)%nat) /\
    (forall now,
        In (OnWarning (time / 60000)) (snd (tick t now)) <->
        remaining (updateRemaining t now) <= time /\
        time - 1500 < remaining (updateRemaining t now) /\
        ~ In time (warningsShown t)) /\
    (forall now,
        ~ In (OnWarning (time / 60000)) (snd (handleVisibilityChange t now))).
Proof.
  intros t time Hin. split; [|split].
  - intros evs. now apply runLog_warned.
  - intros now. rewrite warned_In, (tick_warned t now time Hin).
    unfold fires, inWindow.
    destruct (updateRemaining_frame t now) as (-> & _).
    rewrite <- has_In.
    destruct (remaining (updateRemaining t now) <=? time) eqn:E1;
      destruct (time - 1500 <? remaining (updateRemaining t now)) eqn:E2;
      destruct (has (warningsShown t) time) eqn:E3; simpl;
      rewrite ?Z.leb_le, ?Z.leb_gt, ?Z.ltb_lt, ?Z.ltb_ge in *;
      split; try lia; intuition (try lia; try discriminate).
  - intros now. rewrite warned_In.
    destruct (visibility_frame t now) as (_ & _ & Hw).
    unfold timesWarned. rewrite Hw. simpl. lia.
Qed.

Lemma warning_at_most_once_within_window_witness :
  In 1800000 warningTimes /\
  (timesWarned 30
     (trace (snd (runLog (fst (start (constructor None) 1000))
                         [IntervalFire 5401000; IntervalFire 5402000])))
   <= 1)%nat.
Proof.
  assert (Hin : In 1800000 warningTimes) by (simpl; auto).
  split; [exact Hin|].
  exact (proj1 (warning_at_most_once_within_window
                  (fst (start (constructor None) 1000)) 1800000 Hin)
               [IntervalFire 5401000; IntervalFire 5402000]).
Defined.

(** C2 fails as stated. In the suspended-tab run the first tick after
    the suspension observes 1,201,000 ms, far below the 30-minute
    threshold; the run goes on to expiry, the 15- and 5-minute warnings
    fire once each, and the 30-minute warning is never invoked. *)
Lemma warning_skipped_after_suspension :
  let run := suspendedTabRun 1700000000000 in
  hd_error (reported (trace (snd run))) = Some 1201000 /\
  timesWarned 30 (trace (snd run)) = 0%nat /\
  timesWarned 15 (trace (snd run)) = 1%nat /\
  timesWarned 5 (trace (snd run)) = 1%nat /\
  existsb isExpire (trace (snd run)) = true /\
  isRunning (fst run) = false.
Proof. vm_compute. repeat split. Qed.

(** The older variant of the timer has no deadline: its tick reports the
    stored counter less one second, whatever the wall clock says. *)
Lemma legacy_tick_decrements (t : LegacyTimer.ExamTimer) :
  reported (snd (LegacyTimer.tick t)) = [LegacyTimer.remaining t - 1000].
Proof.
  unfold LegacyTimer.tick, warningTimes. cbn [fold_left].
  unfold LegacyTimer.checkWarning at 3. cbn [LegacyTimer.remaining LegacyTimer.warningsShown].
  repeat match goal with
         | |- context [if ?c then _ else _] => destruct c
         | |- context [LegacyTimer.checkWarning (?a, ?b) ?c] =>
             unfold LegacyTimer.checkWarning at 1; cbn [LegacyTimer.remaining LegacyTimer.warningsShown]
         end; reflexivity.
Qed.

End TimerProps.

(* ================================================================== *)
(** * Facts about the array helpers *)

Section ArrayFacts.
Context {A : Type}.

Lemma pop_push (arr : list A) (x : A) : pop (push arr x) = Some (arr, x).
Proof.
  unfold pop, push. rewrite rev_app_distr. simpl. now rewrite rev_involutive.
Qed.

Lemma pop_nil : pop (@nil A) = None.
Proof. reflexivity. Qed.

Lemma pop_None (arr : list A) : pop arr = None <-> arr = [].
Proof.
  unfold pop. split.
  - destruct (rev arr) eqn:E; [|discriminate].
    intros _. apply (f_equal (@rev A)) in E. now rewrite rev_involutive in E.
  - now intros ->.
Qed.

Lemma pop_Some (arr rest : list A) (x : A) :
  pop arr = Some (rest, x) -> arr = push rest x.
Proof.
  unfold pop, push. destruct (rev arr) as [|y r] eqn:E; [discriminate|].
  intros H. inversion H; subst.
  apply (f_equal (@rev A)) in E. rewrite rev_involutive in E. now subst.
Qed.

Lemma length_push (arr : list A) (x : A) :
  List.length (push arr x) = S (List.length arr).
Proof. unfold push. rewrite length_app. simpl. lia. Qed.

Lemma splice_remove_last (p : A -> bool) (arr : list A) (x : A) :
  (forall y, In y arr -> p y = false) -> p x = true ->
  find_index p (push arr x) = Some (List.length arr)
  /\ splice_remove (List.length arr) (push arr x) = arr.
Proof.
  intros Hno Hx. unfold push, splice_remove. split.
  - induction arr as [|y arr IH]; simpl.
    + now rewrite Hx.
    + rewrite (Hno y (or_introl eq_refl)).
      rewrite IH; [reflexivity | intros z Hz; apply Hno; now right].
  - rewrite firstn_app, Nat.sub_diag, firstn_all. cbn [firstn].
    rewrite app_nil_r.
    rewrite (skipn_all2 (n := S (List.length arr)));
      [apply app_nil_r | rewrite length_app; simpl; lia].
Qed.

Lemma tl_skipn (k : nat) (arr : list A) : tl (skipn k arr) = skipn (S k) arr.
Proof.
  revert arr. induction k as [|k IH]; intros [|x arr]; try reflexivity.
  apply (IH arr).
Qed.

Section Sorting.
Variable key : A -> Z.

Lemma insert_by_perm (x : A) (arr : list A) :
  Permutation (insert_by key x arr) (x :: arr).
Proof.
  induction arr as [|y arr IH]; simpl; [reflexivity|].
  destruct (key y <=? key x); [|reflexivity].
  rewrite IH. apply perm_swap.
Qed.

Lemma insert_by_sorted (x : A) (arr : list A) :
  StronglySorted (key_le key) arr -> StronglySorted (key_le key) (insert_by key x arr).
Proof.
  induction 1 as [|y arr Hs IH Hall]; simpl.
  - repeat constructor.
  - destruct (Z.leb_spec (key y) (key x)) as [Hle|Hlt].
    + constructor; [exact IH|].
      apply (Permutation_Forall (Permutation_sym (insert_by_perm x arr))).
      constructor; assumption.
    + constructor; [constructor; assumption|].
      constructor; [unfold key_le; lia|].
      eapply Forall_impl; [|exact Hall]. unfold key_le. intros; lia.
Qed.

Lemma fold_insert_by (arr acc : list A) :
  StronglySorted (key_le key) acc ->
  StronglySorted (key_le key) (fold_left (fun a x => insert_by key x a) arr acc)
  /\ Permutation (fold_left (fun a x => insert_by key x a) arr acc) (acc ++ arr).
Proof.
  revert acc. induction arr as [|x arr IH]; intros acc Hacc; simpl.
  - rewrite app_nil_r. auto.
  - destruct (IH (insert_by key x acc) (insert_by_sorted x acc Hacc)) as [Hs Hp].
    split; [exact Hs|]. rewrite Hp, insert_by_perm.
    apply Permutation_cons_app. reflexivity.
Qed.

Lemma sort_by_sorted (arr : list A) : StronglySorted (key_le key) (sort_by key arr).
Proof. apply fold_insert_by. constructor. Qed.

Lemma sort_by_perm (arr : list A) : Permutation (sort_by key arr) arr.
Proof. apply (fold_insert_by arr []). constructor. Qed.

Lemma sort_by_length (arr : list A) :
  List.length (sort_by key arr) = List.length arr.
Proof. apply Permutation_length, sort_by_perm. Qed.
End Sorting.
End ArrayFacts.

(* ================================================================== *)
(** * Properties of the numbering registry *)

Module RegistryProps.
Import Canvas.

Lemma includes_In (l : list Z) (n : Z) : includes l n = true <-> In n l.
Proof.
  unfold includes. rewrite existsb_exists. split.
  - intros [y [Hy Heq]]. apply Z.eqb_eq in Heq. now subst.
  - intros H. exists n. split; [assumption | apply Z.eqb_refl].
Qed.

(** With recycled numbers available, the smallest one is handed out and
    leaves the pool; the counter is not touched. *)
Lemma getNext_recycled (reg : Registry) :
  pool reg <> [] ->
  exists v rest,
    getNextTerminationNumber reg = (v, mkRegistry (count reg) (Some rest))
    /\ Permutation (pool reg) (v :: rest)
    /\ Forall (Z.le v) rest
    /\ StronglySorted Z.le rest.
Proof.
  intros Hne. unfold getNextTerminationNumber.
  destruct (pool reg) as [|p ps] eqn:Hpool; [contradiction|].
  pose proof (sort_by_sorted (fun n : Z => n) (p :: ps)) as Hs.
  pose proof (sort_by_perm (fun n : Z => n) (p :: ps)) as Hp.
  destruct (sort_by (fun n : Z => n) (p :: ps)) as [|v rest].
  - apply Permutation_nil in Hp. discriminate.
  - exists v, rest. simpl. inversion Hs; subst.
    repeat split; [now apply Permutation_sym | assumption | assumption].
Qed.

Lemma getNext_fresh (reg : Registry) :
  pool reg = [] ->
  getNextTerminationNumber reg
  = (count reg + 1, mkRegistry (count reg + 1) (Some [])).
Proof. intros H. unfold getNextTerminationNumber. now rewrite H. Qed.

Lemma pool_recycle (reg : Registry) (n : Z) :
  pool (recycleTerminationNumber reg n)
  = if includes (pool reg) n then pool reg else push (pool reg) n.
Proof.
  unfold recycleTerminationNumber. now destruct (includes (pool reg) n).
Qed.

Lemma count_recycle (reg : Registry) (n : Z) :
  count (recycleTerminationNumber reg n) = count reg.
Proof.
  unfold recycleTerminationNumber. now destruct (includes (pool reg) n).
Qed.

Lemma In_pool_recycle (reg : Registry) (n x : Z) :
  In x (pool (recycleTerminationNumber reg n)) <-> In x (pool reg) \/ x = n.
Proof.
  rewrite pool_recycle. destruct (includes (pool reg) n) eqn:E.
  - apply includes_In in E. split; [auto | intros [H| ->]; assumption].
  - unfold push. rewrite in_app_iff. simpl. intuition.
Qed.

(** A number handed out and recycled at once is handed out next. *)
Lemma getNext_recycle_getNext (reg reg1 : Registry) (v : Z) :
  getNextTerminationNumber reg = (v, reg1) ->
  fst (getNextTerminationNumber (recycleTerminationNumber reg1 v)) = v.
Proof.
  intros Hnext.
  assert (Hmin : forall x, In x (pool reg1) -> v <= x).
  { destruct (pool reg) as [|p ps] eqn:Hpool.
    - rewrite (getNext_fresh reg Hpool) in Hnext. inversion Hnext; subst.
      simpl. contradiction.
    - destruct (getNext_recycled reg) as (v' & rest & E & _ & Hall & _);
        [rewrite Hpool; discriminate|].
      rewrite E in Hnext. inversion Hnext; subst. simpl.
      now apply Forall_forall. }
  set (reg2 := recycleTerminationNumber reg1 v).
  assert (Hv : In v (pool reg2)) by (apply In_pool_recycle; now right).
  destruct (getNext_recycled reg2) as (m & rest & -> & Hp & Hall & _).
  { intros E. rewrite E in Hv. contradiction. }
  simpl.
  assert (Hm : In m (pool reg2))
    by (apply (Permutation_in m (Permutation_sym Hp)); now left).
  apply In_pool_recycle in Hm.
  apply (Permutation_in v Hp) in Hv.
  assert (m <= v).
  { destruct Hv as [->|Hv]; [lia|]. rewrite Forall_forall in Hall. auto. }
  destruct Hm as [Hm| ->]; [|reflexivity].
  specialize (Hmin m Hm). lia.
Qed.

(** C4. [getNextTerminationNumber] hands out the smallest recycled
    number and removes it from the pool when the pool is not empty, and
    otherwise increments [count] and returns it;
    [recycleTerminationNumber] of a number already in the pool changes
    nothing; and a number that was handed out and recycled at once is the
    one handed out next. *)
Theorem registry_smallest_available_policy :
  forall reg : Registry,
    (pool reg <> [] ->
     In (fst (getNextTerminationNumber reg)) (pool reg) /\
     (forall x, In x (pool reg) -> fst (getNextTerminationNumber reg) <= x) /\
     Permutation (pool reg)
                 (fst (getNextTerminationNumber reg)
                  :: pool (snd (getNextTerminationNumber reg))) /\
     count (snd (getNextTerminationNumber reg)) = count reg) /\
    (pool reg = [] ->
     fst (getNextTerminationNumber reg) = count reg + 1 /\
     count (snd (getNextTerminationNumber reg)) = count reg + 1 /\
     pool (snd (getNextTerminationNumber reg)) = []) /\
    (forall n, In n (pool reg) -> recycleTerminationNumber reg n = reg) /\
    (forall n, recycleTerminationNumber (recycleTerminationNumber reg n) n
               = recycleTerminationNumber reg n) /\
    (let (v, reg1) := getNextTerminationNumber reg in
     fst (getNextTerminationNumber (recycleTerminationNumber reg1 v)) = v).
Proof.
  intros reg. split; [|split; [|split; [|split]]].
  - intros Hne. destruct (getNext_recycled reg Hne) as (v & rest & -> & Hp & Hall & _).
    simpl. repeat split.
    + apply (Permutation_in v (Permutation_sym Hp)). now left.
    + intros x Hx. apply (Permutation_in x Hp) in Hx. destruct Hx as [<-|Hx].
      * lia.
      * rewrite Forall_forall in Hall. now apply Hall.
    + exact Hp.
  - intros He. rewrite (getNext_fresh reg He). simpl. auto.
  - intros n Hn. unfold recycleTerminationNumber.
    apply includes_In in Hn as Hinc. rewrite Hinc.
    destruct reg as [c [l|]]; simpl in *; [reflexivity | contradiction].
  - intros n. unfold recycleTerminationNumber at 1.
    assert (Hin : In n (pool (recycleTerminationNumber reg n)))
      by (apply In_pool_recycle; now right).
    apply includes_In in Hin. rewrite Hin, count_recycle.
    unfold recycleTerminationNumber. now destruct (includes (pool reg) n).
  - destruct (getNextTerminationNumber reg) as [v reg1] eqn:Hnext.
    exact (getNext_recycle_getNext reg reg1 v Hnext).
Qed.

Lemma registry_smallest_available_policy_witness :
  let reg := mkRegistry 7 (Some [5; 2; 9]) in
  pool reg <> [] /\
  fst (getNextTerminationNumber reg) = 2 /\
  In (fst (getNextTerminationNumber reg)) (pool reg) /\
  recycleTerminationNumber reg 9 = reg.
Proof.
  set (reg := mkRegistry 7 (Some [5; 2; 9])).
  assert (Hne : pool reg <> []) by discriminate.
  destruct (registry_smallest_available_policy reg) as (H1 & _ & H3 & _).
  split; [exact Hne|]. split; [reflexivity|].
  split; [exact (proj1 (H1 Hne))|].
  apply H3. simpl. auto.
Defined.

End RegistryProps.

(* ================================================================== *)
(** * Properties of the element list and its history *)

Module HistoryProps.
Import Canvas.

Lemma set_history_twice (s : Canvas) els u r els' u' r' :
  set_history (set_history s els u r) els' u' r' = set_history s els' u' r'.
Proof. reflexivity. Qed.

Lemma set_history_same (s : Canvas) :
  set_history s (elements s) (undoStack s) (redoStack s) = s.
Proof. now destruct s. Qed.

Lemma undoStack_addElement (s : Canvas) (e : Element) :
  undoStack (addElement s e)
  = push (if (maxHistory <=? List.length (undoStack s))%nat
          then shift (undoStack s) else undoStack s) (Add e).
Proof. reflexivity. Qed.

Lemma addElements_snoc (s : Canvas) (es : list Element) (e : Element) :
  addElements s (es ++ [e]) = addElement (addElements s es) e.
Proof. unfold addElements. now rewrite fold_left_app. Qed.

Lemma elements_addElements (es : list Element) (s : Canvas) :
  elements (addElements s es) = elements s ++ es.
Proof.
  induction es as [|e es IH] using rev_ind.
  - simpl. now rewrite app_nil_r.
  - rewrite addElements_snoc. unfold addElement. simpl. rewrite IH.
    unfold push. now rewrite <- app_assoc.
Qed.

(** Up to [maxHistory] consecutive adds are all on top of the undo stack. *)
Lemma undoStack_addElements (es : list Element) (s : Canvas) :
  (List.length es <= maxHistory)%nat ->
  exists U, undoStack (addElements s es) = U ++ map Add es.
Proof.
  induction es as [|e es IH] using rev_ind; intros Hlen.
  - exists (undoStack s). simpl. now rewrite app_nil_r.
  - rewrite length_app in Hlen. simpl in Hlen.
    destruct IH as [U HU]; [lia|].
    rewrite addElements_snoc, undoStack_addElement, HU.
    rewrite map_app. cbn [map]. unfold push, shift.
    destruct (maxHistory <=? List.length (U ++ map Add es))%nat eqn:E.
    + apply Nat.leb_le in E. rewrite length_app, length_map in E.
      destruct U as [|u U]; [simpl in E; unfold maxHistory in *; lia|].
      exists U. cbn [tl app]. now rewrite <- app_assoc.
    + exists U. now rewrite <- app_assoc.
Qed.

(** From a history within the cap, the undo stack after any number of
    adds is the last [maxHistory] entries. *)
Lemma undoStack_addElements_cap (es : list Element) (s : Canvas) :
  (List.length (undoStack s) <= maxHistory)%nat ->
  undoStack (addElements s es)
  = skipn (List.length (undoStack s) + List.length es - maxHistory)
          (undoStack s ++ map Add es).
Proof.
  intros HU. pose proof (eq_refl : maxHistory = 50%nat) as Hmax.
  induction es as [|e es IH] using rev_ind.
  - simpl. rewrite app_nil_r, Nat.add_0_r.
    replace (List.length (undoStack s) - maxHistory)%nat with 0%nat by lia.
    reflexivity.
  - rewrite addElements_snoc, undoStack_addElement, IH.
    set (L := undoStack s ++ map Add es).
    assert (HL : List.length L = (List.length (undoStack s) + List.length es)%nat)
      by (unfold L; now rewrite length_app, length_map).
    rewrite map_app, app_assoc. fold L. cbn [map]. rewrite length_app.
    cbn [List.length]. rewrite Nat.add_assoc, <- HL.
    rewrite length_skipn. unfold push, shift.
    destruct (Nat.leb_spec maxHistory (List.length L - (List.length L - maxHistory)))
      as [Hge|Hlt].
    + assert (maxHistory <= List.length L)%nat by lia.
      replace (List.length L + 1 - maxHistory)%nat
        with (S (List.length L - maxHistory)) by lia.
      rewrite skipn_app.
      replace (S (List.length L - maxHistory) - List.length L)%nat with 0%nat by lia.
      cbn [skipn]. f_equal. apply tl_skipn.
    + replace (List.length L - maxHistory)%nat with 0%nat by lia.
      replace (List.length L + 1 - maxHistory)%nat with 0%nat by lia.
      reflexivity.
Qed.

Lemma ref_not_before (l : list Element) (e : Element) :
  NoDup (map ref (l ++ [e])) ->
  forall y, In y l -> Nat.eqb (ref y) (ref e) = false.
Proof.
  intros Hnd y Hy. apply Nat.eqb_neq. intros Heq.
  rewrite map_app in Hnd. simpl in Hnd.
  apply NoDup_remove_2 in Hnd. rewrite app_nil_r in Hnd.
  apply Hnd. rewrite <- Heq. now apply in_map.
Qed.

(** Undoing an add whose element is the last of the list. *)
Lemma undo_last_add (s : Canvas) (reg : Registry) (U : list Action)
      (l : list Element) (e : Element) :
  undoStack s = push U (Add e) ->
  elements s = push l e ->
  NoDup (map ref (l ++ [e])) ->
  exists reg',
    undo s reg = (true, set_history s l U (push (redoStack s) (Add e)), reg').
Proof.
  intros HU Hel Hnd. unfold undo. rewrite HU, pop_push, Hel.
  destruct (splice_remove_last (fun x => Nat.eqb (ref x) (ref e)) l e
              (ref_not_before l e Hnd) (Nat.eqb_refl _)) as [Hidx Hrem].
  unfold indexOf. rewrite Hidx, Hrem. eexists. reflexivity.
Qed.

Lemma undoTimes_adds (es : list Element) :
  forall (s : Canvas) (reg : Registry) (U : list Action) (base : list Element),
    undoStack s = U ++ map Add es ->
    elements s = base ++ es ->
    NoDup (map ref (base ++ es)) ->
    exists reg',
      undoTimes (List.length es) s reg
      = (repeat true (List.length es),
         set_history s base U (redoStack s ++ map Add (rev es)), reg').
Proof.
  induction es as [|e es IH] using rev_ind; intros s reg U base HU Hel Hnd.
  - exists reg. simpl in *. rewrite !app_nil_r in *.
    rewrite <- HU, <- Hel. now rewrite set_history_same.
  - rewrite map_app, app_assoc in HU. rewrite app_assoc in Hel, Hnd.
    destruct (undo_last_add s reg (U ++ map Add es) (base ++ es) e HU Hel Hnd)
      as [reg1 Hundo].
    rewrite length_app, Nat.add_comm. simpl. rewrite Hundo.
    set (s1 := set_history s (base ++ es) (U ++ map Add es)
                           (push (redoStack s) (Add e))).
    assert (Hnd' : NoDup (map ref (base ++ es))).
    { rewrite map_app in Hnd. now apply NoDup_app_remove_r in Hnd. }
    destruct (IH s1 reg1 U base eq_refl eq_refl Hnd') as [reg2 Hrest].
    rewrite Hrest. exists reg2. f_equal. f_equal.
    unfold s1. rewrite set_history_twice. simpl. unfold push.
    rewrite rev_app_distr. simpl. now rewrite <- app_assoc.
Qed.

Lemma redoTimes_adds (es : list Element) :
  forall (s : Canvas) (R : list Action),
    redoStack s = R ++ map Add (rev es) ->
    redoTimes (List.length es) s
    = (repeat true (List.length es),
       set_history s (elements s ++ es) (undoStack s ++ map Add es) R).
Proof.
  induction es as [|e es IH]; intros s R HR.
  - simpl in *. rewrite !app_nil_r in *. rewrite <- HR.
    now rewrite set_history_same.
  - simpl in HR. rewrite map_app, app_assoc in HR. simpl in HR.
    simpl. unfold redo. fold (push (R ++ map Add (rev es)) (Add e)) in HR.
    rewrite HR, pop_push.
    set (s1 := set_history s (push (elements s) e) (push (undoStack s) (Add e))
                           (R ++ map Add (rev es))).
    rewrite (IH s1 R eq_refl). unfold s1. rewrite set_history_twice. simpl.
    unfold push. now rewrite <- !app_assoc.
Qed.

Lemma undoTimes_empty (n : nat) (s : Canvas) (reg : Registry) :
  undoStack s = [] -> undoTimes n s reg = (repeat false n, s, reg).
Proof.
  intros HU. induction n as [|n IH]; simpl; [reflexivity|].
  unfold undo. rewrite HU. simpl. now rewrite IH.
Qed.

Lemma undoTimes_plus (a b : nat) :
  forall (s : Canvas) (reg : Registry),
    undoTimes (a + b) s reg
    = let '(oks1, s1, reg1) := undoTimes a s reg in
      let '(oks2, s2, reg2) := undoTimes b s1 reg1 in
      (oks1 ++ oks2, s2, reg2).
Proof.
  induction a as [|a IH]; intros s reg; simpl.
  - now destruct (undoTimes b s reg) as [[oks s2] reg2].
  - destruct (undo s reg) as [[ok s1] reg1]. rewrite IH.
    destruct (undoTimes a s1 reg1) as [[oks1 s2] reg2].
    now destruct (undoTimes b s2 reg2) as [[oks2 s3] reg3].
Qed.

Lemma undo_available (s : Canvas) (reg : Registry) :
  fst (fst (undo s reg)) = true <-> undoStack s <> [].
Proof.
  unfold undo. destruct (pop (undoStack s)) as [[rest [e|e i]]|] eqn:E; simpl.
  - apply pop_Some in E. rewrite E. unfold push.
    split; [intros _ H; now apply app_eq_nil in H as [_ H] | auto].
  - apply pop_Some in E. rewrite E. unfold push.
    split; [intros _ H; now apply app_eq_nil in H as [_ H] | auto].
  - apply pop_None in E. rewrite E. split; [discriminate | congruence].
Qed.

Lemma redo_available (s : Canvas) :
  fst (redo s) = true <-> redoStack s <> [].
Proof.
  unfold redo. destruct (pop (redoStack s)) as [[rest [e|e i]]|] eqn:E; simpl.
  - apply pop_Some in E. rewrite E. unfold push.
    split; [intros _ H; now apply app_eq_nil in H as [_ H] | auto].
  - apply pop_Some in E. rewrite E. unfold push.
    split; [intros _ H; now apply app_eq_nil in H as [_ H] | auto].
  - apply pop_None in E. rewrite E. split; [discriminate | congruence].
Qed.

Lemma skipn_past (k : nat) (a b : list Action) :
  skipn (List.length a + k) (a ++ b) = skipn k b.
Proof.
  rewrite skipn_app, skipn_all2 by lia.
  simpl. f_equal. lia.
Qed.

(** C5. After [n] consecutive [addElement] calls with [n] within the
    50-entry cap, [n] calls of [undo] all return true and restore the
    element list to what it was before the first add, and [n] calls of
    [redo] then all return true and bring back the list after the last
    add.  [undo] and [redo] return true exactly when their stack is not
    empty.  With more than 50 adds only the last 50 can be undone: the
    other calls of [undo] return false and the earliest elements stay. *)
Theorem undo_redo_round_trip :
  forall (s : Canvas) (reg : Registry) (es : list Element),
    NoDup (map ref (elements s ++ es)) ->
    let n := List.length es in
    let s1 := addElements s es in
    ((n <= maxHistory)%nat ->
     let '(oks, s2, _) := undoTimes n s1 reg in
     let '(oks', s3) := redoTimes n s2 in
     elements s1 = elements s ++ es /\
     oks = repeat true n /\ elements s2 = elements s /\
     oks' = repeat true n /\ elements s3 = elements s ++ es) /\
    (forall t r, fst (fst (undo t r)) = true <-> undoStack t <> []) /\
    (forall t, fst (redo t) = true <-> redoStack t <> []) /\
    ((List.length (undoStack s) <= maxHistory)%nat -> (maxHistory < n)%nat ->
     let '(oks, s2, _) := undoTimes n s1 reg in
     oks = repeat true maxHistory ++ repeat false (n - maxHistory) /\
     elements s2 = elements s ++ firstn (n - maxHistory) es).
Proof.
  intros s reg es Hnd n s1.
  pose proof (elements_addElements es s) as Hel. fold s1 in Hel.
  split; [|split; [exact undo_available | split; [exact redo_available|]]].
  - intros Hlen.
    destruct (undoStack_addElements es s Hlen) as [U HU]. fold s1 in HU.
    destruct (undoTimes_adds es s1 reg U (elements s) HU Hel Hnd) as [reg2 Hundo].
    fold n in Hundo. rewrite Hundo.
    set (s2 := set_history s1 (elements s) U (redoStack s1 ++ map Add (rev es))).
    pose proof (redoTimes_adds es s2 (redoStack s1) eq_refl) as Hredo.
    fold n in Hredo. rewrite Hredo. simpl. auto.
  - intros HU Hn. pose proof (eq_refl : maxHistory = 50%nat) as Hmax.
    set (k := (n - maxHistory)%nat).
    assert (Hstack : undoStack s1 = [] ++ map Add (skipn k es)).
    { unfold s1. rewrite (undoStack_addElements_cap es s HU). fold n.
      replace (List.length (undoStack s) + n - maxHistory)%nat
        with (List.length (undoStack s) + k)%nat by (unfold k; lia).
      rewrite skipn_past. simpl. now rewrite skipn_map. }
    assert (Hel' : elements s1 = (elements s ++ firstn k es) ++ skipn k es)
      by (rewrite <- app_assoc, firstn_skipn; exact Hel).
    assert (Hnd' : NoDup (map ref ((elements s ++ firstn k es) ++ skipn k es)))
      by (now rewrite <- app_assoc, firstn_skipn).
    assert (Hlen : List.length (skipn k es) = maxHistory)
      by (rewrite length_skipn; fold n; unfold k; lia).
    destruct (undoTimes_adds (skipn k es) s1 reg [] (elements s ++ firstn k es)
                             Hstack Hel' Hnd') as [reg2 Hundo].
    rewrite Hlen in Hundo.
    replace n with (maxHistory + k)%nat by (unfold k; lia).
    rewrite undoTimes_plus, Hundo, undoTimes_empty by reflexivity.
    split; reflexivity.
Qed.

Lemma refs_markers (n : nat) : map ref (Scenarios.markers n) = seq 0 n.
Proof.
  unfold Scenarios.markers. rewrite map_map. simpl. apply map_id.
Qed.

Lemma NoDup_markers (n : nat) :
  NoDup (map ref (elements Scenarios.freshCanvas ++ Scenarios.markers n)).
Proof.
  change (elements Scenarios.freshCanvas) with (@nil Element). cbn [app].
  rewrite refs_markers. apply seq_NoDup.
Qed.

Lemma undo_redo_round_trip_witness :
  let s := Scenarios.freshCanvas in
  let reg := Scenarios.freshRegistry in
  let es := Scenarios.markers 3 in
  let es' := Scenarios.markers 51 in
  (NoDup (map ref (elements s ++ es)) /\
   (List.length es <= maxHistory)%nat /\
   (let '(oks, s2, _) := undoTimes (List.length es) (addElements s es) reg in
    let '(oks', s3) := redoTimes (List.length es) s2 in
    elements (addElements s es) = elements s ++ es /\
    oks = repeat true (List.length es) /\ elements s2 = elements s /\
    oks' = repeat true (List.length es) /\ elements s3 = elements s ++ es)) /\
  (NoDup (map ref (elements s ++ es')) /\
   (List.length (undoStack s) <= maxHistory)%nat /\
   (maxHistory < List.length es')%nat /\
   (let '(oks, s2, _) := undoTimes (List.length es') (addElements s es') reg in
    oks = repeat true maxHistory ++ repeat false (List.length es' - maxHistory) /\
    elements s2 = elements s ++ firstn (List.length es' - maxHistory) es')).
Proof.
  intros s reg es es'.
  assert (Hle : (List.length es <= maxHistory)%nat)
    by (unfold maxHistory; simpl; lia).
  assert (Hfresh : (List.length (undoStack s) <= maxHistory)%nat)
    by (unfold maxHistory; simpl; lia).
  assert (Hgt : (maxHistory < List.length es')%nat)
    by (unfold maxHistory, es', Scenarios.markers;
        rewrite length_map, length_seq; lia).
  split.
  - split; [exact (NoDup_markers 3) | split; [exact Hle|]].
    exact (proj1 (undo_redo_round_trip s reg es (NoDup_markers 3)) Hle).
  - split; [exact (NoDup_markers 51) | split; [exact Hfresh | split; [exact Hgt|]]].
    exact (proj2 (proj2 (proj2 (undo_redo_round_trip s reg es' (NoDup_markers 51))))
                 Hfresh Hgt).
Defined.

(** ** The history cap *)

Lemma length_undoStack_addElement (s : Canvas) (e : Element) :
  (List.length (undoStack s) <= maxHistory)%nat ->
  (List.length (undoStack (addElement s e)) <= maxHistory)%nat.
Proof.
  intros H. pose proof (eq_refl : maxHistory = 50%nat) as Hmax.
  rewrite undoStack_addElement, length_push. unfold shift.
  destruct (Nat.leb_spec maxHistory (List.length (undoStack s))) as [Hge|Hlt].
  - destruct (undoStack s); simpl in *; lia.
  - lia.
Qed.

Lemma historySize_undo (s : Canvas) (reg : Registry) :
  historySize (snd (fst (undo s reg))) = historySize s.
Proof.
  unfold undo, historySize.
  destruct (pop (undoStack s)) as [[rest [e|e i]]|] eqn:E; simpl;
    try reflexivity;
    apply pop_Some in E; rewrite E; unfold push; rewrite !length_app; simpl; lia.
Qed.

Lemma historySize_redo (s : Canvas) :
  historySize (snd (redo s)) = historySize s.
Proof.
  unfold redo, historySize.
  destruct (pop (redoStack s)) as [[rest [e|e i]]|] eqn:E; simpl;
    try reflexivity;
    apply pop_Some in E; rewrite E; unfold push; rewrite !length_app; simpl; lia.
Qed.

Lemma cancelTermination_stacks (s : Canvas) (reg : Registry) :
  undoStack (fst (cancelTermination s reg)) = undoStack s /\
  redoStack (fst (cancelTermination s reg)) = redoStack s.
Proof.
  unfold cancelTermination.
  destruct (terminationState s) as [|fp num color]; [auto|].
  match goal with
  | |- context [match ?p with Some _ => _ | None => _ end] => destruct p
  end; auto.
Qed.

Lemma cancelCurrentOperation_stacks (s : Canvas) (reg : Registry) :
  undoStack (fst (cancelCurrentOperation s reg)) = undoStack s /\
  redoStack (fst (cancelCurrentOperation s reg)) = redoStack s.
Proof.
  unfold cancelCurrentOperation.
  match goal with
  | |- context [cancelTermination ?c reg] =>
      destruct (cancelTermination_stacks c reg) as [-> ->]
  end.
  destruct (isDrawing s); simpl; destruct (textInput s); auto.
Qed.

Lemma historySize_setTool (s : Canvas) (reg : Registry) (tool : string) :
  historySize (fst (setTool s reg tool)) = historySize s.
Proof.
  unfold setTool, historySize.
  destruct (cancelCurrentOperation_stacks s reg) as [Hu Hr].
  destruct (cancelCurrentOperation s reg) as [s1 reg1]. simpl in *.
  now rewrite Hu, Hr.
Qed.

(** Without the eraser both stacks together never hold more than
    [maxHistory] entries. *)
Lemma history_bounded_without_eraser (ops : list Op) :
  forallb (fun op => negb (isErase op)) ops = true ->
  forall st,
    (historySize (fst st) <= maxHistory)%nat ->
    (historySize (fst (run st ops)) <= maxHistory)%nat.
Proof.
  induction ops as [|op ops IH]; intros Hops [s reg] Hsz; [exact Hsz|].
  cbn [fst] in Hsz.
  simpl in Hops. apply andb_prop in Hops as [Hop Hops].
  unfold run. simpl fold_left. apply (IH Hops).
  destruct op as [e|pos| | | |pos now r|tool]; try discriminate; simpl.
  - unfold historySize. simpl redoStack. rewrite Nat.add_0_r.
    apply length_undoStack_addElement. unfold historySize in Hsz. lia.
  - pose proof (historySize_undo s reg) as H.
    destruct (undo s reg) as [[ok s1] reg1]. simpl in *. lia.
  - rewrite historySize_redo. exact Hsz.
  - unfold historySize, maxHistory. simpl. lia.
  - unfold placeTermination.
    destruct (terminationState s) as [|fp num color].
    + destruct (getNextTerminationNumber reg) as [num reg']. simpl.
      unfold historySize. simpl redoStack. rewrite Nat.add_0_r.
      apply length_undoStack_addElement. simpl.
      unfold historySize in Hsz. lia.
    + simpl. unfold historySize. simpl redoStack. simpl undoStack.
      rewrite Nat.add_0_r.
      apply length_undoStack_addElement. unfold historySize in Hsz. lia.
  - rewrite historySize_setTool. exact Hsz.
Qed.

(** C7 fails on the eraser path. After fifty adds the undo stack is full;
    an eraser click on the first marker records a [remove] entry without
    evicting anything, which leaves 51 entries; undoing them all leaves 51
    entries on the redo stack. *)
Lemma eraser_exceeds_history_cap :
  let s := handleEraser Scenarios.fiftyMarkers (mkPoint 0 10) in
  List.length (undoStack Scenarios.fiftyMarkers) = 50%nat /\
  List.length (elements s) = 49%nat /\
  List.length (undoStack s) = 51%nat /\
  List.length (redoStack
                 (snd (fst (undoTimes 51 s Scenarios.freshRegistry)))) = 51%nat.
Proof. vm_compute. repeat split. Qed.

End HistoryProps.

(* ================================================================== *)
(** * Properties of the projection onto the Wheeler canvas *)

Module ProjectorProps.
Import Canvas App.
Local Open Scope Q_scope.

Lemma elements_addElement (s : Canvas) (e : Element) :
  elements (addElement s e) = elements s ++ [e].
Proof. reflexivity. Qed.

Lemma scaled_le (x1 x2 cw pw : Q) :
  x1 <= x2 -> 0 < cw -> 0 <= pw ->
  left padding + (x1 / cw) * pw <= left padding + (x2 / cw) * pw.
Proof.
  intros Hx Hcw Hpw. apply Qplus_le_r.
  apply Qmult_le_compat_r; [|exact Hpw].
  unfold Qdiv. apply Qmult_le_compat_r; [exact Hx|].
  apply Qinv_le_0_compat. now apply Qlt_le_weak.
Qed.

Lemma Qmin_le_Qmax (a b : Q) : Qmin a b <= Qmax a b.
Proof.
  apply Qle_trans with a; [apply Q.le_min_l | apply Q.le_max_l].
Qed.

(** C3. A first click at [a] and a second click at [b] on the
    cross-section canvas, with any colour at the first click and any
    change of colour in between, add exactly one element to the Wheeler
    canvas: a [terminationLine] whose [x1] and [x2] are the smaller and
    the larger of the two clicked x-coordinates, divided by the
    cross-section canvas width and scaled into the Wheeler plot area, and
    whose colour is '#000000'.  For a canvas of positive width and a plot
    area that is not negative, [x1 <= x2]. *)
Theorem termination_pair_projects_one_black_line :
  forall (app : AppState) (c w : Canvas) (a b : Point) (now1 now2 : Z)
         (color' : string),
    crossSectionCanvas app = Some c ->
    wheelerCanvas app = Some w ->
    terminationState c = Idle ->
    let app1 := crossSectionTerminationClick app a now1 in
    let app2 := crossSectionTerminationClick (setColor app1 color') b now2 in
    let x1 := left padding
              + (Qmin (px a) (px b) / inject_Z (canvasWidth c)) * plotWidth w in
    let x2 := left padding
              + (Qmax (px a) (px b) / inject_Z (canvasWidth c)) * plotWidth w in
    (exists w1, wheelerCanvas app1 = Some w1 /\ elements w1 = elements w) /\
    (exists w2 line y label,
        wheelerCanvas app2 = Some w2 /\
        elements w2 = elements w ++ [line] /\
        data line = TerminationLine "#000000" x1 x2 y label
                      (fst (getNextTerminationNumber (terminationCounter app)))
                      4) /\
    ((0 < canvasWidth c)%Z -> 0 <= plotWidth w -> x1 <= x2).
Proof.
  intros app c w a b now1 now2 color' Hc Hw Hidle app1 app2 x1 x2.
  split; [|split].
  - exists w. unfold app1, crossSectionTerminationClick, placeTermination.
    rewrite Hc, Hidle.
    destruct (getNextTerminationNumber (terminationCounter app)) as [num reg'].
    simpl. auto.
  - unfold app2, app1, crossSectionTerminationClick at 2, placeTermination.
    rewrite Hc, Hidle.
    destruct (getNextTerminationNumber (terminationCounter app)) as [num reg'].
    unfold setColor. cbn [crossSectionCanvas wheelerCanvas option_map].
    unfold crossSectionTerminationClick, placeTermination.
    cbn [crossSectionCanvas wheelerCanvas terminationCounter nextRef toasts
         terminationState set_terminationState addElement set_history
         Canvas.setColor].
    unfold handleTerminationPlaced.
    cbn [crossSectionCanvas wheelerCanvas terminationCounter nextRef toasts
         showToast].
    rewrite Hw. cbn [option_map].
    eexists _, _, _, _. split; [reflexivity|].
    split; [reflexivity|]. reflexivity.
  - intros Hcw Hpw. apply scaled_le; [apply Qmin_le_Qmax | | exact Hpw].
    change 0 with (inject_Z 0). rewrite <- Zlt_Qlt. exact Hcw.
Qed.

Lemma termination_pair_projects_one_black_line_witness :
  let app := Scenarios.appWith Scenarios.wheeler27 in
  let a := mkPoint 300 200 in
  let b := mkPoint 100 220 in
  crossSectionCanvas app = Some Scenarios.freshCanvas /\
  wheelerCanvas app = Some Scenarios.wheeler27 /\
  terminationState Scenarios.freshCanvas = Idle /\
  (0 < canvasWidth Scenarios.freshCanvas)%Z /\
  0 <= plotWidth Scenarios.wheeler27 /\
  left padding
  + (Qmin (px a) (px b) / inject_Z (canvasWidth Scenarios.freshCanvas))
    * plotWidth Scenarios.wheeler27
  <= left padding
     + (Qmax (px a) (px b) / inject_Z (canvasWidth Scenarios.freshCanvas))
       * plotWidth Scenarios.wheeler27.
Proof.
  intros app a b.
  assert (Hcw : (0 < canvasWidth Scenarios.freshCanvas)%Z) by reflexivity.
  assert (Hpw : 0 <= plotWidth Scenarios.wheeler27)
    by (vm_compute; discriminate).
  split; [reflexivity|]. split; [reflexivity|]. split; [reflexivity|].
  split; [exact Hcw|]. split; [exact Hpw|].
  exact (proj2 (proj2 (termination_pair_projects_one_black_line
                         app Scenarios.freshCanvas Scenarios.wheeler27 a b 0 1
                         "#00FF00" eq_refl eq_refl eq_refl)) Hcw Hpw).
Defined.

(** The scenario of the specification: clicks at x = 100 and x = 300 on a
    1400 px wide cross-section project to the ratios 100/1400 and 300/1400
    of the Wheeler plot width. *)
Lemma projection_scenario :
  let app := Scenarios.appWith (constructor 1200 750) in
  let app2 := crossSectionTerminationClick
                (crossSectionTerminationClick app (mkPoint 300 200) 0)
                (mkPoint 100 220) 1 in
  option_map (fun w => map data (elements w)) (wheelerCanvas app2)
  = Some [TerminationLine "#000000"
            (70 + (100 / 1400) * (inject_Z 1200 - 70 - 40))
            (70 + (300 / 1400) * (inject_Z 1200 - 70 - 40))
            (inject_Z 750 - 60 - (inject_Z 8 / 50) * (inject_Z 750 - 40 - 60))
            "8-8" 8 4].
Proof. reflexivity. Qed.

End ProjectorProps.

(* ================================================================== *)
(** * Properties of [parseInt] *)

Module ParseProps.

Ltac digit_step :=
  cbn [NilEmpty.string_of_uint String.append parseDigits];
  match goal with
  | |- context [digitValue 10 ?c] =>
      let v := eval vm_compute in (digitValue 10 c) in
      change (digitValue 10 c) with v
  end; cbv iota.

Lemma parseDigits_acc (rest : string) (d : Decimal.uint) (p : positive) :
  notDigit rest ->
  parseDigits 10 (NilEmpty.string_of_uint d ++ rest) (Some (Zpos p))
  = Some (Zpos (Pos.of_uint_acc d p)).
Proof.
  intros Hrest. revert p.
  induction d; intros p;
    try (digit_step; cbn [Pos.of_uint_acc]; rewrite <- IHd;
         f_equal; f_equal; lia).
  cbn [NilEmpty.string_of_uint String.append Pos.of_uint_acc].
  destruct rest as [|c r]; [reflexivity|]. simpl in Hrest. cbn [parseDigits].
  now rewrite Hrest.
Qed.

Lemma parseDigits_from_zero (rest : string) (d : Decimal.uint) :
  notDigit rest ->
  parseDigits 10 (NilEmpty.string_of_uint d ++ rest) (Some 0)
  = Some (Z.of_N (Pos.of_uint d)).
Proof.
  intros Hrest. induction d;
    try (digit_step; cbn [Pos.of_uint];
         match goal with
         | |- parseDigits _ _ (Some ?k) = _ =>
             let k' := eval vm_compute in k in change k with k'
         end;
         first [exact IHd | rewrite (parseDigits_acc rest d _ Hrest); reflexivity]).
  cbn. destruct rest as [|c r]; [reflexivity|]. simpl in Hrest.
  cbn [parseDigits]. now rewrite Hrest.
Qed.

Lemma parseDigits_start (rest : string) (d : Decimal.uint) :
  d <> Decimal.Nil ->
  parseDigits 10 (NilEmpty.string_of_uint d ++ rest) None
  = parseDigits 10 (NilEmpty.string_of_uint d ++ rest) (Some 0).
Proof.
  intros Hne. destruct d; [contradiction|..]; digit_step; reflexivity.
Qed.

Lemma digit_code (c : ascii) :
  digitValue 10 c <> None -> 48 <= charCode c <= 57.
Proof.
  unfold digitValue. cbv zeta.
  destruct (Z.leb_spec 48 (charCode c)), (Z.leb_spec (charCode c) 57);
    cbn [andb]; try lia;
    destruct (Z.leb_spec 97 (charCode c)), (Z.leb_spec (charCode c) 122);
    cbn [andb];
    destruct (Z.leb_spec 65 (charCode c)), (Z.leb_spec (charCode c) 90);
    cbn [andb];
    match goal with
    | |- (if ?v <? 10 then _ else _) <> None -> _ =>
        destruct (Z.ltb_spec v 10); [lia | congruence]
    end.
Qed.

Lemma eqb_code (c : ascii) (k : ascii) :
  charCode c <> charCode k -> Ascii.eqb c k = false.
Proof.
  intros H. apply Ascii.eqb_neq. intros ->. now apply H.
Qed.

Lemma trimStart_digit (c : ascii) (r : string) :
  digitValue 10 c <> None -> trimStart (String c r) = String c r.
Proof.
  intros H. apply digit_code in H. cbn [trimStart].
  assert (H1 : isWhiteSpace1 c = false).
  { unfold isWhiteSpace1. cbv zeta.
    destruct (Z.leb_spec 9 (charCode c)), (Z.leb_spec (charCode c) 13),
      (Z.eqb_spec (charCode c) 32); cbn [andb orb]; try reflexivity; lia. }
  rewrite H1. destruct r as [|b r2]; [reflexivity|].
  assert (H2 : isWhiteSpace2 c b = false).
  { unfold isWhiteSpace2.
    destruct (Z.eqb_spec (charCode c) 194); [lia | reflexivity]. }
  rewrite H2. destruct r2 as [|c3 r3]; [reflexivity|].
  assert (H3 : isWhiteSpace3 c b c3 = false).
  { unfold isWhiteSpace3. cbv zeta.
    destruct (Z.eqb_spec (charCode c) 225), (Z.eqb_spec (charCode c) 226),
      (Z.eqb_spec (charCode c) 227), (Z.eqb_spec (charCode c) 239);
      first [lia | reflexivity]. }
  now rewrite H3.
Qed.

(** A text whose first character is a decimal digit, and which does not
    start with [0x] or [0X], is read as its longest prefix of digits. *)
Lemma parseInt_digit_first (c : ascii) (r : string) :
  digitValue 10 c <> None ->
  (Ascii.eqb c "0" = true ->
   exists b r2, r = String b r2 /\ digitValue 10 b <> None) ->
  parseInt (String c r) = parseDigits 10 (String c r) None.
Proof.
  intros Hc Hzero. unfold parseInt. rewrite (trimStart_digit c r Hc).
  pose proof (digit_code c Hc) as Hcode.
  assert (Hm : Ascii.eqb c "-" = false)
    by (apply eqb_code; change (charCode "-") with 45; lia).
  assert (Hp : Ascii.eqb c "+" = false)
    by (apply eqb_code; change (charCode "+") with 43; lia).
  rewrite Hm, Hp. cbn [orb].
  assert (Hhex : (match r with
                  | String b r2 =>
                      if Ascii.eqb c "0" && (Ascii.eqb b "x" || Ascii.eqb b "X")
                      then (16, r2) else (10, String c r)
                  | EmptyString => (10, String c r)
                  end) = (10, String c r)).
  { destruct r as [|b r2]; [reflexivity|].
    destruct (Ascii.eqb c "0") eqn:E0; [|reflexivity].
    destruct (Hzero eq_refl) as (b' & r2' & Heq & Hb).
    injection Heq as <- <-. apply digit_code in Hb.
    rewrite (eqb_code b "x") by (change (charCode "x") with 120; lia).
    rewrite (eqb_code b "X") by (change (charCode "X") with 88; lia).
    reflexivity. }
  rewrite Hhex.
  destruct (parseDigits 10 (String c r) None) as [m|]; [|reflexivity].
  f_equal. lia.
Qed.

Lemma numeral_head (d : Decimal.uint) (rest : string) :
  d <> Decimal.Nil -> d <> Decimal.zero ->
  exists c r,
    (NilEmpty.string_of_uint d ++ rest)%string = String c r /\
    digitValue 10 c <> None /\
    (Ascii.eqb c "0" = true ->
     exists b r2, r = String b r2 /\ digitValue 10 b <> None).
Proof.
  intros Hnil Hzero.
  destruct d as [|d|d|d|d|d|d|d|d|d|d]; [contradiction|..];
    cbn [NilEmpty.string_of_uint String.append];
    try (eexists; eexists; split; [reflexivity|];
         split; [vm_compute; discriminate | vm_compute; discriminate]).
  destruct d as [|d|d|d|d|d|d|d|d|d|d]; [now elim Hzero|..];
    cbn [NilEmpty.string_of_uint String.append];
    (eexists; eexists; split; [reflexivity|];
     split; [vm_compute; discriminate|]; intros _;
     eexists; eexists; split; [reflexivity | vm_compute; discriminate]).
Qed.

(** A text that starts with the decimal notation of a positive integer,
    followed by nothing or by a character that is not a digit, is read as
    that integer. *)
Lemma parseInt_decimal (p : positive) (rest : string) :
  notDigit rest -> parseInt (num_to_string (Zpos p) ++ rest) = Some (Zpos p).
Proof.
  intros Hrest. unfold num_to_string. cbn [Z.to_int NilZero.string_of_int].
  pose proof (DecimalPos.Unsigned.of_to p) as Hval.
  pose proof (DecimalPos.Unsigned.to_uint_nonnil p) as Hnil.
  pose proof (DecimalPos.Unsigned.to_uint_nonzero p) as Hzero.
  set (d := Pos.to_uint p) in *.
  assert (Hs : NilZero.string_of_uint d = NilEmpty.string_of_uint d)
    by (destruct d; [contradiction|..]; reflexivity).
  rewrite Hs.
  assert (Hgo : parseDigits 10 (NilEmpty.string_of_uint d ++ rest) None
                = Some (Zpos p)).
  { rewrite parseDigits_start by exact Hnil.
    rewrite parseDigits_from_zero by exact Hrest. now rewrite Hval. }
  destruct (numeral_head d rest Hnil Hzero) as (c & r & Heq & Hc & Hz).
  rewrite Heq in *. rewrite (parseInt_digit_first c r Hc Hz). exact Hgo.
Qed.

End ParseProps.

(* ================================================================== *)
(** * Properties of the auto-tract generation *)

Module TractProps.
Import Canvas App.
Local Open Scope Z_scope.

Lemma length_polygonPoints (ls : list Element) :
  List.length (polygonPoints ls) = (2 * List.length ls)%nat.
Proof.
  unfold polygonPoints. rewrite length_app, !length_map, length_rev. lia.
Qed.

Lemma messages_distinct :
  msgInvalidNumbers <> msgFromNotLess /\
  forall f t k, msgNotEnough f t k <> msgInvalidNumbers
                /\ msgNotEnough f t k <> msgFromNotLess.
Proof.
  split; [discriminate|]. intros f t k. unfold msgNotEnough. simpl.
  split; discriminate.
Qed.

(** The filter tests the type and the two bounds, both inclusive. *)
Lemma inRange_spec (f t : Z) (e : Element) :
  inRange f t e = true <->
  exists color x1 x2 y label n lw,
    data e = TerminationLine color x1 x2 y label n lw /\ f <= n <= t.
Proof.
  unfold inRange. split.
  - destruct (data e); try discriminate.
    intros H. apply andb_true_iff in H. rewrite !Z.leb_le in H.
    do 7 eexists. split; [reflexivity | exact H].
  - intros (color & x1 & x2 & y & label & n & lw & -> & Hn).
    apply andb_true_iff. now rewrite !Z.leb_le.
Qed.

Lemma filter_reflects (p q : Element -> bool) (P : Element -> Prop)
      (l : list Element) :
  (forall e, p e = true <-> P e) -> (forall e, q e = true <-> P e) ->
  filter p l = filter q l.
Proof.
  intros Hp Hq. apply filter_ext. intros e.
  destruct (p e) eqn:Ep, (q e) eqn:Eq; try reflexivity.
  - apply Hp, Hq in Ep. congruence.
  - apply Hq, Hp in Eq. congruence.
Qed.

(** The two ends of a line, read from its fields. *)
Lemma polygonPoints_fields (ls : list Element) :
  (forall l, In l ls -> exists color x1 x2 y label n lw,
                 data l = TerminationLine color x1 x2 y label n lw) ->
  polygonPoints ls
  = map (fun l => match data l with
                  | TerminationLine _ x1 _ y _ _ _ => mkPoint x1 y
                  | _ => mkPoint 0 0
                  end) ls
    ++ map (fun l => match data l with
                     | TerminationLine _ _ x2 y _ _ _ => mkPoint x2 y
                     | _ => mkPoint 0 0
                     end) (rev ls).
Proof.
  intros H. unfold polygonPoints. f_equal; apply map_ext_in; intros l Hl.
  - destruct (H l Hl) as (? & ? & ? & ? & ? & ? & ? & E).
    unfold lineX1, lineY. now rewrite E.
  - apply in_rev in Hl.
    destruct (H l Hl) as (? & ? & ? & ? & ? & ? & ? & E).
    unfold lineX2, lineY. now rewrite E.
Qed.

Lemma sorted_by_number (ls : list Element) :
  (forall l, In l ls -> exists color x1 x2 y label n lw,
                 data l = TerminationLine color x1 x2 y label n lw) ->
  StronglySorted (fun l1 l2 => lineNumber l1 <= lineNumber l2) ls ->
  StronglySorted
    (fun l1 l2 =>
       forall c1 a1 b1 y1 s1 n1 w1 c2 a2 b2 y2 s2 n2 w2,
         data l1 = TerminationLine c1 a1 b1 y1 s1 n1 w1 ->
         data l2 = TerminationLine c2 a2 b2 y2 s2 n2 w2 -> n1 <= n2) ls.
Proof.
  intros _ H. induction H as [|l ls Hs IH Hall]; constructor; [exact IH|].
  eapply Forall_impl; [|exact Hall].
  intros l2 Hle c1 a1 b1 y1 s1 n1 w1 c2 a2 b2 y2 s2 n2 w2 E1 E2.
  unfold lineNumber in Hle. now rewrite E1, E2 in Hle.
Qed.

(** C8, as the code has it.  With the Wheeler canvas in place,
    [handleGenerateAutoTract] reads the two bounds with [parseInt]: text
    that starts with a positive integer and goes on with anything but a
    digit is read as that integer.  It reports invalid numbers when a
    bound is NaN or below 1, a wrong order when from >= to, and not enough
    terminations when fewer than two [terminationLine] elements of the
    Wheeler canvas have their number in [from, to], both ends included;
    the three messages differ, and a failure appends its toast and changes
    neither canvas nor the numbering.  Otherwise it appends to the Wheeler
    canvas exactly one [systemTract] whose points are the matching lines'
    (x1, y) by ascending number followed by their (x2, y) by descending
    number, twice as many points as matching lines. *)
Theorem autotract_failures_and_polygon :
  forall (app : AppState) (w : Canvas) (fromValue toValue tractType : string)
         (now : Z),
    wheelerCanvas app = Some w ->
    let app' := handleGenerateAutoTract app fromValue toValue tractType now in
    let failsWith := fun message : string =>
      toasts app' = toasts app ++ [mkToast message "error"] /\
      crossSectionCanvas app' = crossSectionCanvas app /\
      wheelerCanvas app' = wheelerCanvas app /\
      terminationCounter app' = terminationCounter app in
    let inside := fun (f t : Z) (e : Element) =>
      exists color x1 x2 y label n lw,
        data e = TerminationLine color x1 x2 y label n lw /\ f <= n <= t in
    let ascending := fun l1 l2 : Element =>
      forall c1 a1 b1 y1 s1 n1 w1 c2 a2 b2 y2 s2 n2 w2,
        data l1 = TerminationLine c1 a1 b1 y1 s1 n1 w1 ->
        data l2 = TerminationLine c2 a2 b2 y2 s2 n2 w2 -> n1 <= n2 in
    let leftEnd := fun l : Element =>
      match data l with
      | TerminationLine _ x1 _ y _ _ _ => mkPoint x1 y
      | _ => mkPoint 0 0
      end in
    let rightEnd := fun l : Element =>
      match data l with
      | TerminationLine _ _ x2 y _ _ _ => mkPoint x2 y
      | _ => mkPoint 0 0
      end in
    (forall p rest,
        notDigit rest -> parseInt (num_to_string (Zpos p) ++ rest) = Some (Zpos p)) /\
    (parseInt fromValue = None \/ parseInt toValue = None ->
     failsWith "Please enter valid termination numbers"%string) /\
    (forall f t, parseInt fromValue = Some f -> parseInt toValue = Some t ->
       (f < 1 \/ t < 1 ->
        failsWith "Please enter valid termination numbers"%string) /\
       (1 <= f -> 1 <= t -> t <= f ->
        failsWith "From number must be less than To number"%string) /\
       (1 <= f -> f < t ->
        exists found,
          (forall e, In e found <-> In e (elements w) /\ inside f t e) /\
          (forall p : Element -> bool,
              (forall e, p e = true <-> inside f t e) ->
              found = filter p (elements w)) /\
          ((List.length found < 2)%nat ->
           failsWith ("Need at least 2 termination lines in range "
                      ++ num_to_string f ++ "-" ++ num_to_string t
                      ++ ". Found " ++ num_to_string (Z.of_nat (List.length found))
                      ++ ".")%string) /\
          ((2 <= List.length found)%nat ->
           exists w' tract sorted,
             wheelerCanvas app' = Some w' /\
             crossSectionCanvas app' = crossSectionCanvas app /\
             terminationCounter app' = terminationCounter app /\
             elements w' = elements w ++ [tract] /\
             data tract
             = SystemTract tractType (tractColor tractType)
                           (map leftEnd sorted ++ map rightEnd (rev sorted)) /\
             sorted = sort_by lineNumber found /\
             Permutation sorted found /\
             StronglySorted ascending sorted /\
             List.length (map leftEnd sorted ++ map rightEnd (rev sorted))
             = (2 * List.length found)%nat /\
             toasts app'
             = toasts app
               ++ [mkToast (tractType
                            ++ " system tract generated from terminations "
                            ++ num_to_string f ++ "-" ++ num_to_string t)
                           "success"]))) /\
    ("Please enter valid termination numbers"%string
     <> "From number must be less than To number"%string /\
     forall f t k,
       let notEnough := ("Need at least 2 termination lines in range "
                         ++ num_to_string f ++ "-" ++ num_to_string t
                         ++ ". Found " ++ num_to_string (Z.of_nat k)
                         ++ ".")%string in
       notEnough <> "Please enter valid termination numbers"%string /\
       notEnough <> "From number must be less than To number"%string).
Proof.
  intros app w fromValue toValue tractType now Hw app' failsWith inside
         ascending leftEnd rightEnd.
  split; [exact ParseProps.parseInt_decimal|].
  split; [|split; [|exact messages_distinct]].
  - unfold failsWith, app', handleGenerateAutoTract. rewrite Hw. cbv zeta.
    intros [-> | ->]; [repeat split; exact Hw|].
    destruct (parseInt fromValue); repeat split; exact Hw.
  - intros f t Hf Ht.
    unfold failsWith, app', handleGenerateAutoTract. rewrite Hw. cbv zeta.
    rewrite Hf, Ht. split; [|split; [|]].
    + intros Hlow.
      assert (E : (f <? 1) || (t <? 1) = true).
      { apply orb_true_iff. rewrite !Z.ltb_lt. exact Hlow. }
      rewrite E. repeat split; exact Hw.
    + intros H1 H2 Hle.
      assert (E : (f <? 1) || (t <? 1) = false).
      { apply orb_false_iff. rewrite !Z.ltb_ge. auto. }
      rewrite E. apply Z.leb_le in Hle. rewrite Hle. repeat split; exact Hw.
    + intros H1 Hlt.
      assert (E : (f <? 1) || (t <? 1) = false).
      { apply orb_false_iff. rewrite !Z.ltb_ge. lia. }
      rewrite E. assert (E2 : (t <=? f) = false) by (apply Z.leb_gt; lia).
      rewrite E2.
      set (found := filter (inRange f t) (elements w)).
      assert (Hin : forall e, In e found <-> In e (elements w) /\ inside f t e).
      { intros e. unfold found. rewrite filter_In, inRange_spec. reflexivity. }
      exists found. split; [exact Hin|]. split; [|split].
      * intros p Hp. unfold found.
        apply (filter_reflects _ _ (inside f t)); [apply inRange_spec | exact Hp].
      * intros Hfew. apply Nat.ltb_lt in Hfew. rewrite Hfew. repeat split; exact Hw.
      * intros Hmany. apply Nat.ltb_ge in Hmany. rewrite Hmany.
        set (sorted := sort_by lineNumber found).
        assert (Hperm : Permutation sorted found) by apply sort_by_perm.
        assert (Hlines : forall l, In l sorted ->
                   exists color x1 x2 y label n lw,
                     data l = TerminationLine color x1 x2 y label n lw).
        { intros l Hl. apply (Permutation_in _ Hperm), Hin in Hl.
          destruct Hl as [_ (c & x1 & x2 & y & s & n & lw & E3 & _)].
          now exists c, x1, x2, y, s, n, lw. }
        eexists _, _, sorted. split; [reflexivity|]. split; [reflexivity|].
        split; [reflexivity|]. split; [reflexivity|].
        split; [cbn [data]; now rewrite (polygonPoints_fields sorted Hlines)|].
        split; [reflexivity|]. split; [exact Hperm|].
        split; [apply (sorted_by_number sorted Hlines),
                  (sort_by_sorted lineNumber)|].
        split; [|reflexivity].
        subst leftEnd rightEnd.
        rewrite <- (polygonPoints_fields sorted Hlines), length_polygonPoints.
        unfold sorted. now rewrite sort_by_length.
Qed.

Lemma autotract_failures_and_polygon_witness :
  let app := Scenarios.appWith Scenarios.wheeler27 in
  let app' := handleGenerateAutoTract app "2" "7" "HST" 0 in
  wheelerCanvas app = Some Scenarios.wheeler27 /\
  parseInt "2" = Some 2 /\ parseInt "7" = Some 7 /\
  exists w' tract points,
    wheelerCanvas app' = Some w' /\
    elements w' = elements Scenarios.wheeler27 ++ [tract] /\
    data tract = SystemTract "HST" (tractColor "HST") points /\
    List.length points = 4%nat.
Proof.
  intros app app'.
  assert (Hw : wheelerCanvas app = Some Scenarios.wheeler27) by reflexivity.
  assert (Hf : parseInt "2" = Some 2) by reflexivity.
  assert (Ht : parseInt "7" = Some 7) by reflexivity.
  split; [exact Hw|]. split; [exact Hf|]. split; [exact Ht|].
  destruct (autotract_failures_and_polygon app Scenarios.wheeler27
              "2" "7" "HST" 0 Hw) as (_ & _ & Hcases & _).
  destruct (Hcases 2 7 Hf Ht) as (_ & _ & Hok).
  destruct (Hok ltac:(lia) ltac:(lia)) as (found & _ & Hfound & _ & Hmany).
  assert (Hlen : List.length found = 2%nat).
  { rewrite (Hfound (inRange 2 7) (inRange_spec 2 7)). reflexivity. }
  destruct (Hmany ltac:(lia))
    as (w' & tract & sorted & H1 & _ & _ & H4 & H5 & _ & _ & _ & H9 & _).
  exists w', tract. eexists. split; [exact H1|]. split; [exact H4|].
  split; [exact H5|]. rewrite H9, Hlen. reflexivity.
Defined.

(** C8 fails as stated: a bound that is not a positive integer need not be
    refused.  With lines numbered 2, 7 and 5 on the Wheeler canvas, the
    texts [2] and [5.9] are read as 2 and 5 and a tract through the lines 2
    and 5 is generated; so are [7abc] read as 7 and [ 2] read as 2. *)
Lemma autotract_accepts_non_integer_text :
  let app := Scenarios.appWith Scenarios.wheeler257 in
  let app' := handleGenerateAutoTract app "2" "5.9" "HST" 0 in
  let app'' := handleGenerateAutoTract app " 2" "7abc" "HST" 0 in
  parseInt "5.9" = Some 5 /\ parseInt "7abc" = Some 7 /\
  parseInt " 2" = Some 2 /\
  toasts app'
  = [mkToast "HST system tract generated from terminations 2-5" "success"] /\
  option_map (fun w => map data (skipn 3 (elements w))) (wheelerCanvas app')
  = Some [SystemTract "HST" "#FFFF00"
            [mkPoint 100 (inject_Z 480); mkPoint 150 (inject_Z 450);
             mkPoint 400 (inject_Z 450); mkPoint 300 (inject_Z 480)]] /\
  toasts app''
  = [mkToast "HST system tract generated from terminations 2-7" "success"].
Proof. repeat split. Qed.

(** Lines numbered 2, 7 and 5 with the range [2, 7]: all three are used,
    5 between 2 and 7 on the way up and on the way down. *)
Lemma autotract_includes_middle_line :
  let app' := handleGenerateAutoTract (Scenarios.appWith Scenarios.wheeler257)
                                      "2" "7" "TST" 0 in
  option_map (fun w => map data (skipn 3 (elements w))) (wheelerCanvas app')
  = Some [SystemTract "TST" "#00FFFF"
            [mkPoint 100 (inject_Z 480); mkPoint 150 (inject_Z 450);
             mkPoint 200 (inject_Z 430); mkPoint 500 (inject_Z 430);
             mkPoint 400 (inject_Z 450); mkPoint 300 (inject_Z 480)]].
Proof. reflexivity. Qed.

(** A range that holds a single line is refused and nothing is added. *)
Lemma autotract_not_enough :
  let app := Scenarios.appWith Scenarios.wheeler27 in
  handleGenerateAutoTract app "3" "7" "TST" 0
  = showToast app
      "Need at least 2 termination lines in range 3-7. Found 1." "error".
Proof. reflexivity. Qed.

End TractProps.

(* ================================================================== *)
(** * Properties of the two-click termination tool *)

Module TerminationProps.
Import Canvas App.

Lemma clear_frame (s : Canvas) :
  elements (clear s) = [] /\ undoStack (clear s) = [] /\
  redoStack (clear s) = [] /\ points (clear s) = [] /\
  isDrawing (clear s) = false /\ activeElement (clear s) = None /\
  terminationState (clear s) = terminationState s /\
  currentTool (clear s) = currentTool s /\
  currentColor (clear s) = currentColor s.
Proof. unfold clear. simpl. auto 10. Qed.

Lemma first_click (s : Canvas) (reg : Registry) (a : Point) (now : Z) (r : nat) :
  terminationState s = Idle ->
  placeTermination s reg a now r
  = (addElement
       (set_terminationState s
          (Awaiting (mkPoint (px a) (py a))
                    (fst (getNextTerminationNumber reg)) (currentColor s)))
       (mkElement r now
          (Termination (currentColor s) (px a) (py a)
             (num_to_string (fst (getNextTerminationNumber reg)))
             (fst (getNextTerminationNumber reg)) true)),
     snd (getNextTerminationNumber reg), None).
Proof.
  intros H. unfold placeTermination. rewrite H.
  now destruct (getNextTerminationNumber reg).
Qed.

Lemma second_click (s : Canvas) (reg : Registry) (b : Point) (now : Z)
      (r : nat) (fp : Point) (num : Z) (color : string) :
  terminationState s = Awaiting fp num color ->
  placeTermination s reg b now r
  = (set_terminationState
       (addElement s (mkElement r now
                        (Termination color (px b) (py b) (num_to_string num)
                                     num false)))
       Idle,
     reg,
     Some (mkTermData (Qmin (px fp) (px b)) (Qmax (px fp) (px b))
             (if Qltb (px fp) (px b) then py fp else py b)
             (if Qltb (px fp) (px b) then py b else py fp)
             (num_to_string num ++ "-" ++ num_to_string num)%string
             num color (canvasWidth s) (canvasHeight s))).
Proof. intros H. unfold placeTermination. now rewrite H. Qed.

(** C10. [clear()] empties the element list and both stacks and resets
    the polyline state, and leaves the two-click state alone; the counter
    object is not an argument of it, and the orchestrator's clearing of
    the Wheeler canvas leaves the counter as it is.  After a first click
    at [a], [clear()] and a click at [b], the second click is taken as the
    second click of the pair: it fires [onTerminationPlaced] with the
    number allocated before the clear and with [a] as first point, the
    counter being untouched. *)
Theorem clear_keeps_pending_termination :
  forall (s : Canvas) (reg : Registry) (a b : Point) (now1 now2 : Z)
         (r1 r2 : nat),
    terminationState s = Idle ->
    let num := fst (getNextTerminationNumber reg) in
    let reg1 := snd (getNextTerminationNumber reg) in
    let s1 := fst (fst (placeTermination s reg a now1 r1)) in
    let s2 := clear s1 in
    let res := placeTermination s2 reg1 b now2 r2 in
    snd (fst (placeTermination s reg a now1 r1)) = reg1 /\
    terminationState s1
    = Awaiting (mkPoint (px a) (py a)) num (currentColor s) /\
    elements s2 = [] /\ undoStack s2 = [] /\ redoStack s2 = [] /\
    points s2 = [] /\ isDrawing s2 = false /\ activeElement s2 = None /\
    terminationState s2 = terminationState s1 /\
    snd (fst res) = reg1 /\
    (exists y1 y2 label,
        snd res = Some (mkTermData (Qmin (px a) (px b)) (Qmax (px a) (px b))
                                   y1 y2 label num (currentColor s)
                                   (canvasWidth s) (canvasHeight s))) /\
    elements (fst (fst res))
    = [mkElement r2 now2
         (Termination (currentColor s) (px b) (py b) (num_to_string num) num
                      false)] /\
    terminationState (fst (fst res)) = Idle /\
    (forall app, terminationCounter (confirmClearWheeler app)
                 = terminationCounter app).
Proof.
  intros s reg a b now1 now2 r1 r2 Hidle num reg1 s1 s2 res.
  subst s1 s2 res. rewrite (first_click s reg a now1 r1 Hidle).
  cbn [fst snd].
  erewrite second_click by reflexivity.
  repeat match goal with |- _ /\ _ => split end; try reflexivity.
  - eexists _, _, _. reflexivity.
  - intros app. unfold confirmClearWheeler.
    now destruct (wheelerCanvas app).
Qed.

Lemma clear_keeps_pending_termination_witness :
  let s := Scenarios.freshCanvas in
  let reg := Scenarios.freshRegistry in
  terminationState s = Idle /\
  terminationState (clear (fst (fst (placeTermination
                                       s reg (mkPoint 100 200) 0 0))))
  = terminationState (fst (fst (placeTermination s reg (mkPoint 100 200) 0 0))).
Proof.
  intros s reg. split; [reflexivity|].
  pose proof (clear_keeps_pending_termination
                s reg (mkPoint 100 200) (mkPoint 300 220) 0 1 0 1 eq_refl) as H.
  cbv zeta in H.
  exact (proj1 (proj2 (proj2 (proj2 (proj2 (proj2 (proj2 (proj2 (proj2 H))))))))).
Defined.

(** What [cancelTermination] does while the second click is awaited. *)
Lemma cancelTermination_awaiting (s : Canvas) (reg : Registry)
      (fp : Point) (num : Z) (color : string) :
  terminationState s = Awaiting fp num color ->
  (forall rest lastElement,
      elements s = rest ++ [lastElement] ->
      terminationNumber lastElement = Some num ->
      cancelTermination s reg
      = (set_terminationState
           (set_history s rest (undoStack s) (redoStack s)) Idle,
         recycleTerminationNumber reg num)) /\
  (elements s = [] \/
   (exists rest lastElement,
       elements s = rest ++ [lastElement] /\
       terminationNumber lastElement <> Some num) ->
   cancelTermination s reg = (set_terminationState s Idle, reg)).
Proof.
  intros Hts. split.
  - intros rest lastElement Hel Hnum. unfold cancelTermination.
    rewrite Hts, Hel. fold (push rest lastElement). rewrite pop_push.
    unfold terminationNumber in Hnum.
    destruct (data lastElement); try discriminate.
    injection Hnum as ->. now rewrite Z.eqb_refl.
  - intros [Hel | (rest & lastElement & Hel & Hnum)];
      unfold cancelTermination; rewrite Hts, Hel.
    + now rewrite pop_nil.
    + fold (push rest lastElement). rewrite pop_push.
      unfold terminationNumber in Hnum.
      destruct (data lastElement); try reflexivity.
      destruct (Z.eqb_spec number num) as [->|Hne]; [|reflexivity].
      now contradiction Hnum.
Qed.

Lemma afterDrawingReset_frame (s : Canvas) :
  elements (afterDrawingReset s) = elements s /\
  undoStack (afterDrawingReset s) = undoStack s /\
  redoStack (afterDrawingReset s) = redoStack s /\
  terminationState (afterDrawingReset s) = terminationState s /\
  textInput (afterDrawingReset s) = false /\
  isDrawing (afterDrawingReset s) = false /\
  points (afterDrawingReset s) = (if isDrawing s then [] else points s) /\
  activeElement (afterDrawingReset s)
  = (if isDrawing s then None else activeElement s).
Proof.
  unfold afterDrawingReset.
  destruct (isDrawing s) eqn:Hd; simpl;
    destruct (textInput s) eqn:Ht; simpl; rewrite ?Hd, ?Ht; auto 10.
Qed.

(** What the guard of [cancelTermination] does.  While the second click
    is awaited, [setTool] (and the Escape key, through the same
    [cancelCurrentOperation]) leaves the two-click state idle, drops the
    points of a polyline in progress and installs the tool.  When the last
    element of the list is a termination carrying the allocated number,
    that element is removed and the number is put into the pool; right
    after a first click the registry then hands it out next.  When the
    list is empty or ends with another element, nothing is removed and
    nothing is recycled. *)
Theorem setTool_cancels_pending_termination :
  forall (s : Canvas) (reg : Registry) (tool : string)
         (fp : Point) (num : Z) (color : string),
    terminationState s = Awaiting fp num color ->
    let s' := fst (setTool s reg tool) in
    let reg' := snd (setTool s reg tool) in
    terminationState s' = Idle /\
    currentTool s' = tool /\
    isDrawing s' = false /\
    points s' = (if isDrawing s then [] else points s) /\
    (forall rest lastElement,
        elements s = rest ++ [lastElement] ->
        terminationNumber lastElement = Some num ->
        elements s' = rest /\
        reg' = recycleTerminationNumber reg num /\
        In num (pool reg')) /\
    (elements s = [] \/
     (exists rest lastElement,
         elements s = rest ++ [lastElement] /\
         terminationNumber lastElement <> Some num) ->
     elements s' = elements s /\ reg' = reg) /\
    handleKeyDown s reg "Escape" = cancelCurrentOperation s reg /\
    elements (fst (cancelCurrentOperation s reg)) = elements s' /\
    terminationState (fst (cancelCurrentOperation s reg)) = Idle /\
    snd (cancelCurrentOperation s reg) = reg' /\
    (forall s0 reg0 pos now r,
        terminationState s0 = Idle ->
        let '(s1, reg1, _) := placeTermination s0 reg0 pos now r in
        let '(s2, reg2) := setTool s1 reg1 tool in
        elements s2 = elements s0 /\
        terminationState s2 = Idle /\
        fst (getNextTerminationNumber reg2)
        = fst (getNextTerminationNumber reg0)).
Proof.
  intros s reg tool fp num color Hts s' reg'.
  destruct (afterDrawingReset_frame s)
    as (Hel & Hu & Hr & Hts2 & _ & Hdr & Hpts & _).
  rewrite Hts in Hts2.
  destruct (cancelTermination_awaiting (afterDrawingReset s) reg fp num color Hts2)
    as [Hpop Hkeep].
  rewrite Hel in Hpop, Hkeep.
  assert (Hcancel : cancelCurrentOperation s reg
                    = cancelTermination (afterDrawingReset s) reg) by reflexivity.
  assert (Hset : setTool s reg tool
                 = (set_hoverElement
                      (set_currentTool
                         (fst (cancelTermination (afterDrawingReset s) reg)) tool)
                      None,
                    snd (cancelTermination (afterDrawingReset s) reg))).
  { unfold setTool. rewrite Hcancel.
    now destruct (cancelTermination (afterDrawingReset s) reg). }
  assert (Hcases : elements s = [] \/
                   (exists rest lastElement,
                       elements s = rest ++ [lastElement] /\
                       terminationNumber lastElement <> Some num) \/
                   (exists rest lastElement,
                       elements s = rest ++ [lastElement] /\
                       terminationNumber lastElement = Some num)).
  { destruct (elements s) as [|x l] using rev_ind; [now left|].
    right. clear IHl.
    destruct (terminationNumber x) as [n|] eqn:Hn.
    - destruct (Z.eq_dec n num) as [->|Hne].
      + right. now exists l, x.
      + left. exists l, x. split; [reflexivity|]. rewrite Hn. congruence.
    - left. exists l, x. split; [reflexivity|]. rewrite Hn. discriminate. }
  assert (Hshape :
            (fst (cancelTermination (afterDrawingReset s) reg)
             = set_terminationState (afterDrawingReset s) Idle) \/
            (exists rest,
                fst (cancelTermination (afterDrawingReset s) reg)
                = set_terminationState
                    (set_history (afterDrawingReset s) rest
                       (undoStack (afterDrawingReset s))
                       (redoStack (afterDrawingReset s))) Idle)).
  { destruct Hcases as [H|[H|(rest & lastElement & H1 & H2)]].
    - left. now rewrite (Hkeep (or_introl H)).
    - left. now rewrite (Hkeep (or_intror H)).
    - right. exists rest. now rewrite (Hpop rest lastElement H1 H2). }
  subst s' reg'. rewrite Hset, Hcancel. cbn [fst snd].
  repeat match goal with |- _ /\ _ => split end.
  - destruct Hshape as [-> | [rest ->]]; reflexivity.
  - reflexivity.
  - destruct Hshape as [-> | [rest ->]]; simpl; exact Hdr.
  - destruct Hshape as [-> | [rest ->]]; simpl; exact Hpts.
  - intros rest lastElement H1 H2. rewrite (Hpop rest lastElement H1 H2).
    simpl. repeat split. apply RegistryProps.In_pool_recycle. now right.
  - intros H. rewrite (Hkeep H). simpl. auto.
  - reflexivity.
  - reflexivity.
  - destruct Hshape as [-> | [rest ->]]; reflexivity.
  - reflexivity.
  - intros s0 reg0 pos now r Hidle.
    rewrite (first_click s0 reg0 pos now r Hidle).
    set (n0 := fst (getNextTerminationNumber reg0)).
    set (reg1 := snd (getNextTerminationNumber reg0)).
    match goal with
    | |- context [setTool ?c reg1 tool] => set (s1 := c)
    end.
    destruct (afterDrawingReset_frame s1) as (Hel1 & _ & _ & Hts1 & _).
    destruct (cancelTermination_awaiting (afterDrawingReset s1) reg1
                (mkPoint (px pos) (py pos)) n0 (currentColor s0) Hts1)
      as [Hpop1 _].
    specialize (Hpop1 (elements s0)
                      (mkElement r now
                         (Termination (currentColor s0) (px pos) (py pos)
                                      (num_to_string n0) n0 true))
                      Hel1 eq_refl).
    unfold setTool, cancelCurrentOperation. fold (afterDrawingReset s1).
    rewrite Hpop1. cbn [fst snd elements terminationState set_hoverElement
                        set_currentTool set_terminationState set_history].
    repeat split.
    apply (RegistryProps.getNext_recycle_getNext reg0 reg1 n0).
    unfold n0, reg1. now destruct (getNextTerminationNumber reg0).
Qed.

Lemma setTool_cancels_pending_termination_witness :
  let s := fst Scenarios.afterFirstClick in
  let reg := snd Scenarios.afterFirstClick in
  terminationState s = Awaiting (mkPoint 100 200) 1 "#FF0000" /\
  elements (fst (setTool s reg "eraser")) = [] /\
  In 1%Z (pool (snd (setTool s reg "eraser"))).
Proof.
  intros s reg.
  assert (Hts : terminationState s = Awaiting (mkPoint 100 200) 1 "#FF0000")
    by reflexivity.
  split; [exact Hts|].
  destruct (setTool_cancels_pending_termination s reg "eraser" _ _ _ Hts)
    as (_ & _ & _ & _ & Hpop & _).
  destruct (Hpop [] (mkElement 0 0
                       (Termination "#FF0000" 100 200 "1" 1 true))
                 eq_refl eq_refl) as (H1 & _ & H3).
  split; [exact H1 | exact H3].
Defined.

(** Two states in which the guard misses.  After a first click and
    [clear()] the surface still awaits the second click; [setTool] then
    resets the two-click state but recycles nothing: the pool stays empty
    and the next number is 2, number 1 being lost.  After a first click
    and the addition of another element, [setTool] leaves the first-click
    element (identity 0) in the list. *)
Lemma setTool_does_not_always_recycle :
  (let s := fst Scenarios.clearedWhileAwaiting in
   let reg := snd Scenarios.clearedWhileAwaiting in
   terminationState s = Awaiting (mkPoint 100 200) 1 "#FF0000" /\
   terminationState (fst (setTool s reg "line")) = Idle /\
   pool (snd (setTool s reg "line")) = [] /\
   fst (getNextTerminationNumber (snd (setTool s reg "line"))) = 2%Z) /\
  (let s := fst Scenarios.clickThenMarker in
   let reg := snd Scenarios.clickThenMarker in
   terminationState s = Awaiting (mkPoint 100 200) 1 "#FF0000" /\
   terminationState (fst (setTool s reg "line")) = Idle /\
   map ref (elements (fst (setTool s reg "line"))) = [0%nat; 7%nat] /\
   terminationNumbers (elements (fst (setTool s reg "line"))) = [1%Z] /\
   pool (snd (setTool s reg "line")) = []).
Proof. repeat split. Qed.

(** C6. The cancellation is meant to remove the first point that was
    placed and to recycle its number, but it only looks at the last element
    of the list.  Both canvases are given the termination tool; a first
    click on the Wheeler canvas takes number 1; a pair placed on the
    cross-section takes number 2, and the line it projects is appended to
    the Wheeler canvas; then the tool is switched.  The Wheeler canvas
    stops awaiting its second click, but the first-click element numbered
    1 is still in its list and number 1 was not recycled: the pool is
    empty and the next number is 3.  The Escape key on that canvas leaves
    the same. *)
Theorem cancel_misses_covered_first_click :
  let app0 := Orchestrator.setTool (App.initializeCanvases 1400 500)
                                   "termination" in
  let app1 := Orchestrator.wheelerTerminationClick app0 (mkPoint 100 200) 0 in
  let app2 := App.crossSectionTerminationClick app1 (mkPoint 300 100) 1 in
  let app3 := App.crossSectionTerminationClick app2 (mkPoint 500 120) 2 in
  let app4 := Orchestrator.setTool app3 "line" in
  let escaped :=
    option_map (fun w => handleKeyDown w (App.terminationCounter app3) "Escape")
               (App.wheelerCanvas app3) in
  (option_map terminationState (App.wheelerCanvas app3)
   = Some (Awaiting (mkPoint 100 200) 1 "#FF0000") /\
   option_map (fun w => clickNumbers true (elements w)) (App.wheelerCanvas app3)
   = Some [1] /\
   option_map (fun w => map App.lineNumber (elements w)) (App.wheelerCanvas app3)
   = Some [0; 2] /\
   option_map (fun c => terminationNumbers (elements c))
              (App.crossSectionCanvas app3) = Some [2; 2]) /\
  (option_map terminationState (App.wheelerCanvas app4) = Some Idle /\
   option_map currentTool (App.wheelerCanvas app4) = Some "line"%string /\
   option_map (fun w => clickNumbers true (elements w)) (App.wheelerCanvas app4)
   = Some [1] /\
   option_map (fun w => List.length (elements w)) (App.wheelerCanvas app4)
   = Some 2%nat /\
   pool (App.terminationCounter app4) = [] /\
   fst (getNextTerminationNumber (App.terminationCounter app4)) = 3) /\
  (option_map (fun r => terminationState (fst r)) escaped = Some Idle /\
   option_map (fun r => clickNumbers true (elements (fst r))) escaped
   = Some [1] /\
   option_map (fun r => pool (snd r)) escaped = Some []).
Proof. repeat split. Qed.

(** ** Numbers of the terminations present *)

Lemma terminationNumbers_app (a b : list Element) :
  terminationNumbers (a ++ b) = terminationNumbers a ++ terminationNumbers b.
Proof. unfold terminationNumbers. apply flat_map_app. Qed.

Lemma clickNumbers_app (f : bool) (a b : list Element) :
  clickNumbers f (a ++ b) = clickNumbers f a ++ clickNumbers f b.
Proof. unfold clickNumbers. apply flat_map_app. Qed.

Lemma clickNumbers_incl (f : bool) (els : list Element) (n : Z) :
  In n (clickNumbers f els) -> In n (terminationNumbers els).
Proof.
  unfold clickNumbers, terminationNumbers, terminationNumber.
  rewrite !in_flat_map. intros (e & He & Hn). exists e. split; [exact He|].
  destruct (data e); try contradiction.
  destruct (Bool.eqb isFirstPoint f); [exact Hn | contradiction].
Qed.

Lemma terminationNumbers_split (els : list Element) (n : Z) :
  In n (terminationNumbers els) ->
  In n (clickNumbers true els) \/ In n (clickNumbers false els).
Proof.
  unfold clickNumbers, terminationNumbers, terminationNumber.
  rewrite !in_flat_map. intros (e & He & Hn).
  destruct (data e) eqn:Hd; try contradiction.
  destruct isFirstPoint; [left | right]; exists e; rewrite Hd; auto.
Qed.

Lemma NoDup_app_remove_mid (a m b : list Z) :
  NoDup (a ++ m ++ b) -> NoDup (a ++ b).
Proof.
  induction m as [|x m IH]; [auto|].
  intros H. apply IH. simpl in H. now apply NoDup_remove_1 in H.
Qed.

Lemma NoDup_snoc (l : list Z) (x : Z) :
  NoDup l -> ~ In x l -> NoDup (l ++ [x]).
Proof.
  intros Hl Hx. apply NoDup_rev in Hl.
  rewrite <- (rev_involutive (l ++ [x])). apply NoDup_rev.
  rewrite rev_app_distr. simpl. constructor; [|exact Hl].
  now rewrite <- in_rev.
Qed.

Lemma splice_remove_parts (i : nat) (els : list Element) :
  exists a m b, els = a ++ m ++ b /\ splice_remove i els = a ++ b.
Proof.
  exists (firstn i els), (firstn 1 (skipn i els)), (skipn (S i) els).
  split; [|reflexivity].
  rewrite <- (tl_skipn i els).
  assert (H : firstn 1 (skipn i els) ++ tl (skipn i els) = skipn i els)
    by (destruct (skipn i els); reflexivity).
  rewrite H. now rewrite firstn_skipn.
Qed.

(** Removing elements keeps the invariant, also when the two-click state
    falls back to idle. *)
Lemma numbering_shrink (a m b : list Element) (ts ts' : TerminationState)
      (reg : Registry) :
  ts' = ts \/ ts' = Idle ->
  numbering (a ++ m ++ b) ts reg -> numbering (a ++ b) ts' reg.
Proof.
  intros Hts (Ha & Hb & Hc & Hd & He & Hf).
  assert (Hsub : forall f n, In n (clickNumbers f (a ++ b)) ->
                             In n (clickNumbers f (a ++ m ++ b))).
  { intros f n. rewrite !clickNumbers_app, !in_app_iff. tauto. }
  unfold numbering. repeat match goal with |- _ /\ _ => split end.
  - intros n Hn. apply Ha.
    rewrite !terminationNumbers_app, !in_app_iff in *. tauto.
  - rewrite !clickNumbers_app in *. now apply NoDup_app_remove_mid in Hb.
  - rewrite !clickNumbers_app in *. now apply NoDup_app_remove_mid in Hc.
  - intros fp n color Hawait.
    destruct Hts as [-> | ->]; [|discriminate].
    destruct (Hd fp n color Hawait) as (H1 & H2 & H3).
    repeat split; auto.
  - exact He.
  - exact Hf.
Qed.

Lemma numbering_add_other (els : list Element) (e : Element)
      (ts : TerminationState) (reg : Registry) :
  isTermination e = false ->
  numbering els ts reg -> numbering (els ++ [e]) ts reg.
Proof.
  intros He.
  assert (Ht : terminationNumbers (els ++ [e]) = terminationNumbers els).
  { rewrite terminationNumbers_app. unfold terminationNumbers at 2.
    unfold terminationNumber, isTermination in *. simpl.
    destruct (data e); try discriminate; now rewrite app_nil_r. }
  assert (Hc : forall f, clickNumbers f (els ++ [e]) = clickNumbers f els).
  { intros f. rewrite clickNumbers_app. unfold clickNumbers at 2.
    unfold isTermination in *. simpl.
    destruct (data e); try discriminate; now rewrite app_nil_r. }
  unfold numbering. now rewrite Ht, !Hc.
Qed.

(** The number handed out is not in use, and the registry it leaves is
    as good as the one before. *)
Lemma getNext_numbering (els : list Element) (ts : TerminationState)
      (reg : Registry) :
  numbering els ts reg ->
  let num := fst (getNextTerminationNumber reg) in
  let reg' := snd (getNextTerminationNumber reg) in
  ~ In num (terminationNumbers els) /\
  (forall n, In n (terminationNumbers els) ->
             (n <= count reg')%Z /\ ~ In n (pool reg')) /\
  (num <= count reg')%Z /\ ~ In num (pool reg') /\
  (forall n, In n (pool reg') -> (n <= count reg')%Z) /\
  NoDup (pool reg').
Proof.
  intros (Ha & _ & _ & _ & He & Hf) num reg'. subst num reg'.
  destruct (pool reg) as [|p ps] eqn:Hpool.
  - rewrite (RegistryProps.getNext_fresh reg Hpool). simpl.
    repeat match goal with |- _ /\ _ => split end;
      try (intros n Hn; apply Ha in Hn; split; [lia | tauto]);
      try (intros Hin; apply Ha in Hin; lia);
      try tauto; try lia; try constructor.
  - destruct (RegistryProps.getNext_recycled reg)
      as (v & rest & -> & Hperm & _ & _); [rewrite Hpool; discriminate|].
    rewrite <- Hpool in *. simpl.
    assert (Hnd : NoDup (v :: rest)) by (now apply (Permutation_NoDup Hperm)).
    assert (Hsub : forall n, In n rest -> In n (pool reg)).
    { intros n Hn. apply (Permutation_in n (Permutation_sym Hperm)). now right. }
    assert (Hv : In v (pool reg)).
    { apply (Permutation_in v (Permutation_sym Hperm)). now left. }
    repeat match goal with |- _ /\ _ => split end.
    + intros Hin. apply Ha in Hin. tauto.
    + intros n Hn. apply Ha in Hn. split; [tauto|]. intros H. apply Hsub in H. tauto.
    + now apply He.
    + now inversion Hnd.
    + intros n Hn. apply He. now apply Hsub.
    + now inversion Hnd.
Qed.

Lemma numbering_first_click (els : list Element) (reg : Registry)
      (r : nat) (now : Z) (color label : string) (x y : Q) (fp : Point) :
  numbering els Idle reg ->
  let num := fst (getNextTerminationNumber reg) in
  numbering (els ++ [mkElement r now (Termination color x y label num true)])
            (Awaiting fp num color)
            (snd (getNextTerminationNumber reg)).
Proof.
  intros Hinv num.
  destruct (getNext_numbering els Idle reg Hinv)
    as (Hfresh & Hold & Hle & Hnot & Hpool & Hnd).
  fold num in Hfresh, Hle, Hnot.
  destruct Hinv as (_ & Hb & Hc & _).
  unfold numbering.
  rewrite terminationNumbers_app, !clickNumbers_app. simpl.
  rewrite app_nil_r.
  repeat match goal with |- _ /\ _ => split end.
  - intros n Hn. apply in_app_iff in Hn. destruct Hn as [Hn|[<-|[]]]; auto.
  - apply NoDup_snoc; [exact Hb|].
    intros H. apply Hfresh. now apply clickNumbers_incl in H.
  - exact Hc.
  - intros fp' n color' Heq. injection Heq as _ <- _.
    repeat split; auto.
    intros H. apply Hfresh. now apply clickNumbers_incl in H.
  - exact Hpool.
  - exact Hnd.
Qed.

Lemma numbering_second_click (els : list Element) (reg : Registry)
      (r : nat) (now : Z) (color label : string) (x y : Q) (fp : Point)
      (num : Z) :
  numbering els (Awaiting fp num color) reg ->
  numbering (els ++ [mkElement r now (Termination color x y label num false)])
            Idle reg.
Proof.
  intros (Ha & Hb & Hc & Hd & He & Hf).
  destruct (Hd fp num color eq_refl) as (Hle & Hnot & Hnew).
  unfold numbering.
  rewrite terminationNumbers_app, !clickNumbers_app. simpl.
  rewrite app_nil_r.
  repeat match goal with |- _ /\ _ => split end; auto.
  - intros n Hn. apply in_app_iff in Hn. destruct Hn as [Hn|[<-|[]]]; auto.
  - now apply NoDup_snoc.
  - intros fp' n color' Heq. discriminate.
Qed.

Lemma numbering_cancel_pop (rest : list Element) (lastElement : Element)
      (reg : Registry) (fp : Point) (num : Z) (color : string) :
  numbering (rest ++ [lastElement]) (Awaiting fp num color) reg ->
  terminationNumber lastElement = Some num ->
  numbering rest Idle (recycleTerminationNumber reg num).
Proof.
  intros (Ha & Hb & Hc & Hd & He & Hf) Hnum.
  destruct (Hd fp num color eq_refl) as (Hle & Hnot & Hnew).
  rewrite terminationNumbers_app in Ha.
  rewrite clickNumbers_app in Hb, Hc, Hnew.
  unfold terminationNumber in Hnum.
  assert (Hfirst : clickNumbers true [lastElement] = [num]
                   /\ clickNumbers false [lastElement] = []).
  { unfold clickNumbers in *. simpl in *.
    destruct (data lastElement); try discriminate.
    injection Hnum as ->. destruct isFirstPoint; simpl in *; [auto|].
    exfalso. apply Hnew. apply in_app_iff. right. now left. }
  destruct Hfirst as [Hf1 Hf2]. rewrite Hf1 in Hb. rewrite Hf2 in Hc, Hnew.
  rewrite app_nil_r in Hc, Hnew.
  assert (Hgone : ~ In num (terminationNumbers rest)).
  { intros H. apply terminationNumbers_split in H. destruct H as [H|H].
    - apply NoDup_remove_2 in Hb. apply Hb. now rewrite app_nil_r.
    - contradiction. }
  unfold numbering. rewrite RegistryProps.count_recycle.
  repeat match goal with |- _ /\ _ => split end.
  - intros n Hn. split.
    + apply Ha. apply in_app_iff. now left.
    + rewrite RegistryProps.In_pool_recycle. intros [H| ->].
      * apply (proj2 (Ha n (proj2 (in_app_iff _ _ _) (or_introl Hn)))). exact H.
      * contradiction.
  - now apply NoDup_app_remove_r in Hb.
  - exact Hc.
  - intros fp' n color' Heq. discriminate.
  - intros n Hn. apply RegistryProps.In_pool_recycle in Hn.
    destruct Hn as [Hn| ->]; auto.
  - rewrite RegistryProps.pool_recycle.
    destruct (includes (pool reg) num) eqn:E; [exact Hf|].
    now apply NoDup_snoc.
Qed.

Lemma last_element_cases (els : list Element) (num : Z) :
  els = [] \/
  (exists rest lastElement,
      els = rest ++ [lastElement] /\ terminationNumber lastElement <> Some num) \/
  (exists rest lastElement,
      els = rest ++ [lastElement] /\ terminationNumber lastElement = Some num).
Proof.
  destruct els as [|x l _] using rev_ind; [now left|]. right.
  destruct (terminationNumber x) as [n|] eqn:Hn.
  - destruct (Z.eq_dec n num) as [->|Hne].
    + right. now exists l, x.
    + left. exists l, x. split; [reflexivity|]. rewrite Hn. congruence.
  - left. exists l, x. split; [reflexivity|]. rewrite Hn. discriminate.
Qed.

Lemma setTool_numbering (s : Canvas) (reg : Registry) (tool : string) :
  NumberingInv (s, reg) -> NumberingInv (setTool s reg tool).
Proof.
  unfold NumberingInv. cbn [fst snd]. intros Hinv.
  destruct (afterDrawingReset_frame s) as (Hel & _ & _ & Hts & _).
  assert (Hset : setTool s reg tool
                 = (set_hoverElement
                      (set_currentTool
                         (fst (cancelTermination (afterDrawingReset s) reg)) tool)
                      None,
                    snd (cancelTermination (afterDrawingReset s) reg))).
  { unfold setTool, cancelCurrentOperation. fold (afterDrawingReset s).
    now destruct (cancelTermination (afterDrawingReset s) reg). }
  rewrite Hset. cbn [fst snd set_hoverElement set_currentTool elements
                     terminationState].
  destruct (terminationState s) as [|fp num color] eqn:Hstate.
  - unfold cancelTermination. rewrite Hts. cbn [fst snd].
    now rewrite Hel, Hts.
  - destruct (cancelTermination_awaiting (afterDrawingReset s) reg fp num color Hts)
      as [Hpop Hkeep].
    rewrite Hel in Hpop, Hkeep.
    destruct (last_element_cases (elements s) num)
      as [H|[H|(rest & lastElement & H1 & H2)]].
    + rewrite (Hkeep (or_introl H)). cbn [fst snd set_terminationState elements
                                          terminationState].
      rewrite Hel.
      apply (numbering_shrink [] [] (elements s) (Awaiting fp num color) Idle);
        [now right | exact Hinv].
    + rewrite (Hkeep (or_intror H)). cbn [fst snd set_terminationState elements
                                          terminationState].
      rewrite Hel.
      apply (numbering_shrink [] [] (elements s) (Awaiting fp num color) Idle);
        [now right | exact Hinv].
    + rewrite (Hpop rest lastElement H1 H2).
      cbn [fst snd set_terminationState set_history elements terminationState].
      rewrite H1 in Hinv.
      now apply (numbering_cancel_pop rest lastElement reg fp num color).
Qed.

Lemma step_numbering (st : Canvas * Registry) (op : Op) :
  keepsNumbering op = true -> NumberingInv st -> NumberingInv (step st op).
Proof.
  destruct st as [s reg].
  destruct op as [e|pos| | | |pos now r|tool]; intros Hop Hinv;
    try discriminate; cbn [step].
  - unfold NumberingInv in *. cbn [fst snd] in *.
    apply numbering_add_other; [|exact Hinv].
    simpl in Hop. now destruct (isTermination e).
  - unfold NumberingInv in *. cbn [fst snd] in *. unfold handleEraser.
    destruct (findElementAt s pos) as [element|]; [|exact Hinv].
    destruct (indexOf (elements s) element) as [index|]; [|exact Hinv].
    cbn [set_hoverElement set_history elements terminationState].
    destruct (splice_remove_parts index (elements s)) as (a & m & b & H1 & ->).
    rewrite H1 in Hinv.
    apply (numbering_shrink a m b (terminationState s)); [now left | exact Hinv].
  - unfold NumberingInv in *. cbn [fst snd] in *.
    destruct (clear_frame s) as (-> & _ & _ & _ & _ & _ & -> & _).
    apply (numbering_shrink [] (elements s) [] (terminationState s));
      [now left | now rewrite app_nil_r].
  - unfold NumberingInv in *. cbn [fst snd] in *.
    destruct (terminationState s) as [|fp num color] eqn:Hstate.
    + rewrite (first_click s reg pos now r Hstate).
      cbn [fst snd addElement set_history set_terminationState elements
           terminationState]. unfold push.
      now apply numbering_first_click.
    + rewrite (second_click s reg pos now r fp num color Hstate).
      cbn [fst snd addElement set_history set_terminationState elements
           terminationState]. unfold push.
      now apply (numbering_second_click _ _ _ _ _ _ _ _ fp).
  - now apply setTool_numbering.
Qed.

Lemma run_numbering (ops : list Op) :
  forallb keepsNumbering ops = true ->
  forall st, NumberingInv st -> NumberingInv (run st ops).
Proof.
  induction ops as [|op ops IH]; intros Hops st Hinv; [exact Hinv|].
  simpl in Hops. apply andb_prop in Hops as [Hop Hops].
  unfold run. cbn [fold_left]. apply (IH Hops).
  now apply step_numbering.
Qed.

Lemma numbering_initial (w h : Z) :
  NumberingInv (constructor w h, mkRegistry 0 None).
Proof.
  unfold NumberingInv, numbering. simpl.
  repeat match goal with |- _ /\ _ => split end;
    try constructor; try tauto; intros; discriminate.
Qed.

Lemma count_terminationNumbers (els : list Element) (n : Z) :
  count_occ Z.eq_dec (terminationNumbers els) n
  = (count_occ Z.eq_dec (clickNumbers true els) n
     + count_occ Z.eq_dec (clickNumbers false els) n)%nat.
Proof.
  induction els as [|e els IH]; [reflexivity|].
  change (e :: els) with ([e] ++ els).
  rewrite terminationNumbers_app, !clickNumbers_app, !count_occ_app, IH.
  unfold terminationNumbers, clickNumbers, terminationNumber. simpl.
  destruct (data e); simpl; try lia.
  destruct isFirstPoint; simpl; destruct (Z.eq_dec number n); lia.
Qed.

(** C9, as the code has it. On a surface driven from its initial state
    by termination clicks, tool switches and Escape, eraser clicks,
    [clear()] and additions of elements that are not terminations, the
    first-click terminations present carry pairwise distinct numbers and
    so do the second-click ones; the two clicks of a pair share their
    number, so a number is carried by at most two terminations. *)
Theorem termination_numbers_distinct_per_click :
  forall (w h : Z) (ops : list Op),
    forallb keepsNumbering ops = true ->
    let s := fst (run (constructor w h, mkRegistry 0 None) ops) in
    NoDup (clickNumbers true (elements s)) /\
    NoDup (clickNumbers false (elements s)) /\
    (forall n,
        (count_occ Z.eq_dec (terminationNumbers (elements s)) n <= 2)%nat).
Proof.
  intros w h ops Hops s.
  pose proof (run_numbering ops Hops _ (numbering_initial w h)) as Hinv.
  destruct Hinv as (_ & Hb & Hc & _). fold s in Hb, Hc.
  split; [exact Hb | split; [exact Hc|]].
  intros n. rewrite count_terminationNumbers.
  rewrite (NoDup_count_occ Z.eq_dec) in Hb, Hc.
  specialize (Hb n). specialize (Hc n). lia.
Qed.

Lemma termination_numbers_distinct_per_click_witness :
  let ops := [OpClick (mkPoint 100 200) 0 0; OpClick (mkPoint 300 220) 1 1;
              OpClick (mkPoint 500 200) 2 2; OpSetTool "line"] in
  forallb keepsNumbering ops = true /\
  NoDup (clickNumbers true
           (elements (fst (run (constructor 1400 500, mkRegistry 0 None) ops)))).
Proof.
  intros ops. split; [reflexivity|].
  exact (proj1 (termination_numbers_distinct_per_click 1400 500 ops eq_refl)).
Defined.

(** C9 fails as stated. After one complete pair both termination
    elements of the list carry number 1. *)
Lemma pair_shares_its_number :
  terminationNumbers (elements (fst Scenarios.onePair)) = [1%Z; 1%Z] /\
  ~ NoDup (terminationNumbers (elements (fst Scenarios.onePair))).
Proof.
  split; [reflexivity|].
  intros H. change (NoDup [1%Z; 1%Z]) in H.
  inversion H as [|x l Hnotin _]. apply Hnotin. now left.
Qed.

(** Undo is left out of C9: undoing the second click of a pair
    recycles the number while the first click is still there, and the next
    first click takes the same number. *)
Lemma undo_reissues_number_in_use :
  clickNumbers true (elements (fst Scenarios.pairUndoClick)) = [1%Z; 1%Z].
Proof. reflexivity. Qed.

End TerminationProps.

(* ================================================================== *)
(** * Further properties of the exam timer *)

Module TimerExtra.
Import Timer TimerOps.

Lemma has_marked (r : Z) (ws acc : list Z) (x : Z) :
  has (fold_left (fun s time => if r <=? time then add s time else s) ws acc) x
  = has acc x || existsb (fun time => (x =? time) && (r <=? time)) ws.
Proof.
  revert acc. induction ws as [|w ws IH]; intros acc; simpl.
  - now rewrite orb_false_r.
  - rewrite IH. destruct (r <=? w); simpl.
    + rewrite TimerProps.has_add, andb_true_r. now rewrite orb_assoc.
    + now rewrite andb_false_r.
Qed.

Lemma warningsShown_setRemaining (t : ExamTimer) (ms now : Z) :
  warningsShown (fst (setRemaining t ms now))
  = fold_left (fun s time => if Z.max 0 ms <=? time then add s time else s)
              warningTimes [].
Proof. reflexivity. Qed.

(** X1. [setRemaining(ms)] clamps the time to at least 0, moves the
    deadline to now plus that time and puts into the fired set exactly the
    thresholds at or above it; no tick or visibility check afterwards
    invokes the warning of such a threshold. *)
Theorem setRemaining_marks_passed_thresholds :
  forall (t : ExamTimer) (ms now : Z),
    let t' := fst (setRemaining t ms now) in
    let r := Z.max 0 ms in
    remaining t' = r /\
    endTime t' = Some (now + r) /\
    (forall x, In x (warningsShown t') <-> In x warningTimes /\ r <= x) /\
    snd (setRemaining t ms now) = [OnTick r (getTimerClass t')] /\
    (forall evs time,
        In time warningTimes -> r <= time ->
        timesWarned (time / 60000) (trace (snd (runLog t' evs))) = 0%nat).
Proof.
  intros t ms now t' r.
  assert (Hshown : forall x, In x (warningsShown t') <-> In x warningTimes /\ r <= x).
  { intros x. rewrite <- TimerProps.has_In. unfold t'.
    rewrite warningsShown_setRemaining. fold r. rewrite has_marked.
    change (has [] x) with false. rewrite orb_false_l.
    rewrite existsb_exists. split.
    - intros (y & Hy & Hc). apply andb_prop in Hc as [H1 H2].
      apply Z.eqb_eq in H1. apply Z.leb_le in H2. subst y. auto.
    - intros [Hin Hle]. exists x. split; [exact Hin|].
      now rewrite Z.eqb_refl, (proj2 (Z.leb_le r x) Hle). }
  split; [reflexivity|]. split; [reflexivity|]. split; [exact Hshown|].
  split; [reflexivity|].
  intros evs time Hin Hle.
  apply (TimerProps.runLog_warned time evs Hin t').
  apply TimerProps.has_In. apply Hshown. auto.
Qed.

Lemma setRemaining_marks_passed_thresholds_witness :
  let t' := fst (setRemaining (constructor None) 600000 1700000000000) in
  In 1800000 warningTimes /\ Z.max 0 600000 <= 1800000 /\
  (In 1800000 (warningsShown t') /\ In 900000 (warningsShown t')
   /\ ~ In 300000 (warningsShown t')) /\
  timesWarned 30 (trace (snd (runLog t' [IntervalFire 1700000001000]))) = 0%nat.
Proof.
  intros t'.
  destruct (setRemaining_marks_passed_thresholds (constructor None) 600000
              1700000000000) as (_ & _ & Hshown & _ & Hnever).
  assert (Hin : In 1800000 warningTimes) by (simpl; auto).
  assert (Hle : Z.max 0 600000 <= 1800000) by (simpl; lia).
  split; [exact Hin|]. split; [exact Hle|]. split.
  - split; [apply Hshown; split; [exact Hin | exact Hle]|].
    split; [apply Hshown; split; [simpl; auto | simpl; lia]|].
    intros H. apply Hshown in H. simpl in H. lia.
  - exact (Hnever [IntervalFire 1700000001000] 1800000 Hin Hle).
Defined.

Lemma start_state (t : ExamTimer) (now : Z) :
  isRunning t = false ->
  let t1 := fst (start t now) in
  endTime t1 = Some (now + remaining t) /\
  isRunning t1 = true /\ intervalId t1 = true /\ listening t1 = true /\
  warningsShown t1 = warningsShown t /\
  localStorage t1
  = Some (mkSaved (Some (now + remaining t)) (warningsShown t) (duration t)).
Proof.
  intros Hrun. unfold start. rewrite Hrun. cbn [fst].
  set (t2 := saveState _).
  destruct (TimerProps.updateRemaining_frame t2 now) as (Hs & He & Hr & _).
  cbn [endTime isRunning intervalId listening warningsShown localStorage].
  rewrite Hs, He, Hr.
  assert (Hst : localStorage (updateRemaining t2 now) = localStorage t2).
  { unfold updateRemaining. destruct (endTime t2) as [e|]; [|reflexivity].
    now destruct (e =? 0). }
  rewrite Hst. repeat split.
Qed.

(** X2. Pausing a running timer freezes the time left at the moment of
    the pause and stops the callbacks; resuming re-derives the deadline from
    the frozen time, so the time spent paused is not counted: a tick after
    the resume reports the frozen time less the time since the resume. *)
Theorem pause_freezes_remaining_time :
  forall (t : ExamTimer) (d now1 now2 now : Z),
    isRunning t = true -> endTime t = Some d -> d <> 0 -> 0 < now2 ->
    let p := pause t now1 in
    let r := fst (resume p now2) in
    isRunning p = false /\
    remaining p = Z.max 0 (d - now1) /\
    (forall e, dispatch p e = (p, [])) /\
    endTime r = Some (now2 + remaining p) /\
    reported (snd (tick r now)) = [Z.max 0 (remaining p - (now - now2))].
Proof.
  intros t d now1 now2 now Hrun Hend Hd Hnow2 p r.
  assert (Hp : p = saveState (stop (updateRemaining t now1))).
  { unfold p, pause. now rewrite Hrun. }
  assert (Hrem : remaining p = Z.max 0 (d - now1)).
  { rewrite Hp. simpl. now apply TimerProps.updateRemaining_deadline. }
  assert (Hstopped : isRunning p = false) by now rewrite Hp.
  destruct (start_state p now2 Hstopped) as (Hend' & _).
  assert (Hr : r = fst (start p now2)).
  { unfold r, resume. now rewrite Hstopped. }
  rewrite <- Hr in Hend'.
  split; [exact Hstopped|]. split; [exact Hrem|]. split; [|split].
  - intros [n|n]; rewrite Hp; reflexivity.
  - exact Hend'.
  - rewrite TimerProps.tick_reported.
    rewrite (TimerProps.updateRemaining_deadline r now _ Hend') by lia.
    f_equal. lia.
Qed.

Lemma pause_freezes_remaining_time_witness :
  let t := fst (start (constructor None) 1700000000000) in
  isRunning t = true /\
  reported (snd (tick (fst (resume (pause t 1700000060000) 1700000960000))
                      1700000961000))
  = [7139000].
Proof.
  intros t. split; [reflexivity|].
  exact (proj2 (proj2 (proj2 (proj2
           (pause_freezes_remaining_time t (1700000000000 + 7200000)
              1700000060000 1700000960000 1700000961000
              eq_refl eq_refl ltac:(discriminate) ltac:(lia)))))).
Defined.

(** ** Expiry *)

Lemma timesExpired_app (a b : list Callback) :
  timesExpired (a ++ b) = (timesExpired a + timesExpired b)%nat.
Proof. unfold timesExpired. now rewrite filter_app, length_app. Qed.

Lemma timesExpired_warnings (l : list Z) :
  timesExpired (map (fun time => OnWarning (time / 60000)) l) = 0%nat.
Proof. induction l; simpl; auto. Qed.

(** A tick either sees time left and goes on, or sees none, invokes
    [onExpire] once and stops the timer. *)
Lemma tick_expiry (t : ExamTimer) (now : Z) :
  let r := remaining (updateRemaining t now) in
  (r <= 0 ->
   timesExpired (snd (tick t now)) = 1%nat /\ stopped (fst (tick t now)) /\
   remaining (fst (tick t now)) = 0 /\ localStorage (fst (tick t now)) = None) /\
  (0 < r ->
   timesExpired (snd (tick t now)) = 0%nat /\
   intervalId (fst (tick t now)) = intervalId t /\
   listening (fst (tick t now)) = listening t /\
   isRunning (fst (tick t now)) = isRunning t /\
   remaining (fst (tick t now)) = r).
Proof.
  intros r. unfold tick.
  pose proof (TimerProps.fold_checkWarning warningTimes
                TimerProps.NoDup_warningTimes (updateRemaining t now) []) as H.
  destruct (fold_left checkWarning warningTimes (updateRemaining t now, []))
    as [t2 out2].
  cbv zeta in H. cbn [fst snd] in H.
  destruct H as ((c1 & c2 & c3 & c4 & c5 & c6) & _ & Hout).
  destruct (TimerProps.updateRemaining_frame t now) as (_ & _ & f3 & f4 & f5).
  fold r in c1. rewrite Hout. cbn [app].
  assert (Hrem3 : remaining (if Z.rem (remaining t2 / 1000) 10 =? 0
                             then saveState t2 else t2) = r).
  { destruct (Z.rem (remaining t2 / 1000) 10 =? 0); exact c1. }
  rewrite Hrem3. split; intros Hr.
  - apply Z.leb_le in Hr. rewrite Hr. cbn [fst snd].
    rewrite !timesExpired_app, timesExpired_warnings.
    repeat split.
  - apply Z.leb_gt in Hr. rewrite Hr. cbn [fst snd].
    rewrite timesExpired_app, timesExpired_warnings.
    destruct (Z.rem (remaining t2 / 1000) 10 =? 0); cbn;
      rewrite ?c1, ?c3, ?c4, ?c5, ?f3, ?f4, ?f5; repeat split.
Qed.

Ltac settle :=
  cbn; repeat match goal with |- _ /\ _ => split end;
  intros; try lia; try discriminate; auto.

Lemma visibility_expiry (t : ExamTimer) (now : Z) :
  let res := handleVisibilityChange t now in
  (timesExpired (snd res) <= 1)%nat /\
  (timesExpired (snd res) = 1%nat -> stopped (fst res)) /\
  (timesExpired (snd res) = 0%nat ->
   intervalId (fst res) = intervalId t /\ listening (fst res) = listening t).
Proof.
  unfold handleVisibilityChange.
  destruct (TimerProps.updateRemaining_frame t now) as (_ & _ & f3 & f4 & f5).
  destruct (isRunning t); [|settle].
  destruct (remaining (updateRemaining t now) <=? 0); unfold stopped; settle.
Qed.

Lemma dispatch_expiry (t : ExamTimer) (e : Event) :
  let res := dispatch t e in
  (timesExpired (snd res) <= 1)%nat /\
  (timesExpired (snd res) = 1%nat -> stopped (fst res)) /\
  (timesExpired (snd res) = 0%nat ->
   intervalId (fst res) = intervalId t /\ listening (fst res) = listening t).
Proof.
  destruct e as [now|now]; cbn [dispatch].
  - destruct (intervalId t) eqn:Hi; [|settle].
    destruct (tick_expiry t now) as [Hexp Hgo]. cbv zeta.
    destruct (Z_le_gt_dec (remaining (updateRemaining t now)) 0) as [Hle|Hgt].
    + destruct (Hexp Hle) as (-> & Hst & _). settle.
    + destruct (Hgo ltac:(lia)) as (-> & g1 & g2 & _).
      split; [lia|]. split; [discriminate|]. intros _.
      split; [now rewrite g1 | exact g2].
  - destruct (listening t) eqn:Hl; [|settle].
    pose proof (visibility_expiry t now) as H. cbv zeta in H.
    rewrite Hl in H. exact H.
Qed.

Lemma stopped_runLog (evs : list Event) (t : ExamTimer) :
  intervalId t = false -> listening t = false ->
  fst (runLog t evs) = t /\ trace (snd (runLog t evs)) = [].
Proof.
  intros Hi Hl. induction evs as [|e evs IH]; [auto|].
  cbn [runLog].
  assert (Hd : dispatch t e = (t, [])) by (destruct e; cbn; now rewrite ?Hi, ?Hl).
  rewrite Hd. destruct (runLog t evs) as [t2 log]. cbn in *. exact IH.
Qed.

(** X3. Over any run of interval callbacks and visibility checks
    [onExpire] is invoked at most once, and after it the timer is stopped
    and the rest of the run invokes nothing.  For a timer with a deadline
    and its interval installed, a tick invokes [onExpire] exactly when the
    clock has reached the deadline; it then leaves 0 ms and removes the
    stored record. *)
Theorem expire_fires_once_at_deadline :
  forall (t : ExamTimer),
    (forall evs,
        (timesExpired (trace (snd (runLog t evs))) <= 1)%nat /\
        (timesExpired (trace (snd (runLog t evs))) = 1%nat ->
         stopped (fst (runLog t evs)))) /\
    (forall d now,
        endTime t = Some d -> d <> 0 ->
        (d <= now ->
         timesExpired (snd (tick t now)) = 1%nat /\
         stopped (fst (tick t now)) /\
         remaining (fst (tick t now)) = 0 /\
         localStorage (fst (tick t now)) = None /\
         (forall evs, trace (snd (runLog (fst (tick t now)) evs)) = [])) /\
        (now < d -> timesExpired (snd (tick t now)) = 0%nat)).
Proof.
  intros t. split.
  - intros evs. revert t. induction evs as [|e evs IH]; intros t.
    + cbn. split; [lia | discriminate].
    + cbn [runLog].
      pose proof (dispatch_expiry t e) as Hd. cbv zeta in Hd.
      destruct (dispatch t e) as [t1 out]. cbn [fst snd] in Hd.
      destruct Hd as (Hle & Hone & Hzero).
      specialize (IH t1).
      pose proof (stopped_runLog evs t1) as Hstop.
      destruct (runLog t1 evs) as [t2 log]. cbn [fst snd] in *.
      unfold trace in *. cbn [flat_map snd]. rewrite timesExpired_app.
      destruct (Nat.eq_dec (timesExpired out) 1) as [H1|H1].
      * destruct (Hone H1) as (Hi & Hl & Hr).
        destruct (Hstop Hi Hl) as [-> ->]. rewrite H1. cbn.
        split; [lia | intros _; repeat split; assumption].
      * assert (H0 : timesExpired out = 0%nat) by lia. rewrite H0. cbn.
        exact IH.
  - intros d now Hend Hd.
    destruct (tick_expiry t now) as [Hexp Hgo]. cbv zeta in Hexp, Hgo.
    rewrite (TimerProps.updateRemaining_deadline t now d Hend Hd) in Hexp, Hgo.
    split.
    + intros Hle. destruct (Hexp ltac:(lia)) as (H1 & Hst & H3 & H4).
      repeat split; try assumption; try apply Hst.
      intros evs. destruct Hst as (Hi & Hl & _).
      now apply stopped_runLog.
    + intros Hlt. now destruct (Hgo ltac:(lia)).
Qed.

Lemma expire_fires_once_at_deadline_witness :
  let t := fst (start (constructor None) 1700000000000) in
  endTime t = Some 1700007200000 /\ 1700007200000 <> 0 /\
  1700007200000 <= 1700007200500 /\
  timesExpired (snd (tick t 1700007200500)) = 1%nat.
Proof.
  intros t.
  assert (Hend : endTime t = Some 1700007200000) by reflexivity.
  assert (Hd : 1700007200000 <> 0) by discriminate.
  assert (Hle : 1700007200000 <= 1700007200500) by lia.
  split; [exact Hend|]. split; [exact Hd|]. split; [exact Hle|].
  exact (proj1 (proj1 (proj2 (expire_fires_once_at_deadline t)
                         1700007200000 1700007200500 Hend Hd) Hle)).
Defined.

(** ** Persistence *)

Lemma has_newSet (l acc : list Z) (x : Z) :
  has (fold_left add l acc) x = has acc x || has l x.
Proof.
  revert acc. induction l as [|a l IH]; intros acc; simpl.
  - now rewrite orb_false_r.
  - rewrite IH, TimerProps.has_add. unfold has at 3. simpl.
    fold (has l x). now rewrite orb_assoc.
Qed.

Lemma In_newSet (l : list Z) (x : Z) : In x (newSet l) <-> In x l.
Proof.
  rewrite <- !TimerProps.has_In. unfold newSet. now rewrite has_newSet.
Qed.

Lemma newSet_NoDup (l acc : list Z) :
  NoDup (acc ++ l) -> fold_left add l acc = acc ++ l.
Proof.
  revert acc. induction l as [|a l IH]; intros acc Hnd; simpl.
  - now rewrite app_nil_r.
  - assert (Ha : has acc a = false).
    { destruct (has acc a) eqn:E; [|reflexivity].
      apply TimerProps.has_In in E. apply NoDup_remove_2 in Hnd.
      exfalso. apply Hnd. apply in_app_iff. now left. }
    unfold add. rewrite Ha.
    rewrite IH; rewrite <- app_assoc; [reflexivity | exact Hnd].
Qed.

Lemma loadState_stored (t0 : ExamTimer) (e now : Z) (shown : list Z) (dur : Z) :
  localStorage t0 = Some (mkSaved (Some e) shown dur) -> e <> 0 ->
  fst (loadState t0 now) = true /\
  endTime (snd (loadState t0 now)) = Some e /\
  remaining (snd (loadState t0 now)) = Z.max 0 (e - now) /\
  warningsShown (snd (loadState t0 now)) = newSet shown.
Proof.
  intros Hst He. unfold loadState. rewrite Hst. cbn [savedEndTime].
  destruct (Z.eqb_spec e 0); [contradiction|]. cbn. auto.
Qed.

(** X4. What [start()] writes to the store lets a timer constructed after
    a reload take up the countdown: [loadState()] returns true, restores the
    deadline and the fired warnings, and recomputes the time left against
    the clock, so that the time the page was closed is subtracted.  With
    nothing stored it returns false and changes nothing. *)
Theorem stored_deadline_survives_reload :
  forall (t : ExamTimer) (now0 now : Z) (optDuration : option Z),
    isRunning t = false -> 0 < now0 -> 0 <= remaining t ->
    let t1 := fst (start t now0) in
    let res := loadState (reopen optDuration (localStorage t1)) now in
    fst res = true /\
    endTime (snd res) = Some (now0 + remaining t) /\
    remaining (snd res) = Z.max 0 (now0 + remaining t - now) /\
    (forall x, In x (warningsShown (snd res)) <-> In x (warningsShown t)) /\
    (NoDup (warningsShown t) -> warningsShown (snd res) = warningsShown t) /\
    (forall t' now', localStorage t' = None -> loadState t' now' = (false, t')).
Proof.
  intros t now0 now optDuration Hrun Hnow Hrem t1 res.
  destruct (start_state t now0 Hrun) as (_ & _ & _ & _ & _ & Hst).
  fold t1 in Hst.
  destruct (loadState_stored (reopen optDuration (localStorage t1))
              (now0 + remaining t) now (warningsShown t) (duration t))
    as (H1 & H2 & H3 & H4); [exact Hst | lia |].
  fold res in H1, H2, H3, H4.
  split; [exact H1|]. split; [exact H2|]. split; [exact H3|].
  split; [intros x; rewrite H4; apply In_newSet|].
  split.
  - intros Hnd. rewrite H4. apply (newSet_NoDup (warningsShown t) []). exact Hnd.
  - intros t' now' Hnone. unfold loadState. now rewrite Hnone.
Qed.

Lemma stored_deadline_survives_reload_witness :
  let t := constructor None in
  isRunning t = false /\ 0 < 1700000000000 /\ 0 <= remaining t /\
  remaining (snd (loadState
                    (reopen None (localStorage (fst (start t 1700000000000))))
                    1700000600000))
  = Z.max 0 (1700000000000 + remaining t - 1700000600000).
Proof.
  intros t.
  assert (H1 : isRunning t = false) by reflexivity.
  assert (H2 : 0 < 1700000000000) by lia.
  assert (H3 : 0 <= remaining t) by (simpl; lia).
  split; [exact H1|]. split; [exact H2|]. split; [exact H3|].
  exact (proj1 (proj2 (proj2 (stored_deadline_survives_reload
                                t 1700000000000 1700000600000 None H1 H2 H3)))).
Defined.

Lemma fold_checkWarning_storage (ws : list Z) :
  forall (t : ExamTimer) (out : list Callback),
    let res := fold_left checkWarning ws (t, out) in
    endTime (fst res) = endTime t /\ duration (fst res) = duration t /\
    (synced (fst res) \/
     (localStorage (fst res) = localStorage t /\
      warningsShown (fst res) = warningsShown t)).
Proof.
  induction ws as [|w ws IH]; intros t out; cbn [fold_left]; cbv zeta.
  - cbn. auto.
  - destruct (checkWarning (t, out) w) as [t1 out1] eqn:Hstep.
    specialize (IH t1 out1). cbv zeta in IH.
    destruct IH as (He & Hd & Hs).
    assert (Hone : endTime t1 = endTime t /\ duration t1 = duration t /\
                   (synced t1 \/ (localStorage t1 = localStorage t /\
                                  warningsShown t1 = warningsShown t))).
    { unfold checkWarning in Hstep.
      destruct ((remaining t <=? w) && (w - 1500 <? remaining t)
                && negb (has (warningsShown t) w));
        inversion Hstep; subst; cbn; auto.
      split; [reflexivity|]. split; [reflexivity|]. left. reflexivity. }
    destruct Hone as (He1 & Hd1 & Hs1).
    split; [congruence|]. split; [congruence|].
    destruct Hs as [Hs | [Hl Hw]]; [now left|].
    destruct Hs1 as [Hs1 | [Hl1 Hw1]].
    + left. unfold synced in *. rewrite Hl, Hs1, He, Hd, Hw. reflexivity.
    + right. split; congruence.
Qed.

(** X5. A warning that a tick invokes is written to the store at once:
    a timer constructed after a reload that loads the stored record never
    invokes the warning of that threshold again. *)
Theorem fired_warning_is_persisted :
  forall (t : ExamTimer) (d now time : Z),
    endTime t = Some d -> d <> 0 ->
    In time warningTimes ->
    In (OnWarning (time / 60000)) (snd (tick t now)) ->
    forall (optDuration : option Z) (now' : Z) (evs : list Event),
      let res := loadState (reopen optDuration (localStorage (fst (tick t now))))
                           now' in
      fst res = true /\
      endTime (snd res) = Some d /\
      In time (warningsShown (snd res)) /\
      timesWarned (time / 60000) (trace (snd (runLog (snd res) evs))) = 0%nat.
Proof.
  intros t d now time Hend Hd Hin Hfired optDuration now' evs res.
  apply TimerProps.warned_In in Hfired.
  rewrite (TimerProps.tick_warned t now time Hin) in Hfired.
  destruct (fires (updateRemaining t now) time) eqn:Hf; [|lia].
  (* the tick did not expire and left the record in step with the timer *)
  assert (Hstore : localStorage (fst (tick t now))
                   = Some (mkSaved (Some d) (warningsShown (fst (tick t now)))
                                   (duration (fst (tick t now))))
                   /\ has (warningsShown (fst (tick t now))) time = true).
  { destruct (TimerProps.tick_callbacks t now)
      as (t2 & tail & _ & _ & _ & Hhas & Hend').
    split; [|rewrite Hhas, Hf, (TimerProps.existsb_warningTimes time Hin);
             apply orb_true_r].
    assert (Hnew : has (warningsShown (fst (tick t now))) time = true)
      by (rewrite Hhas, Hf, (TimerProps.existsb_warningTimes time Hin);
          apply orb_true_r).
    assert (Hold : has (warningsShown (updateRemaining t now)) time = false).
    { unfold fires in Hf. apply andb_prop in Hf as [_ Hf].
      now apply negb_true_iff in Hf. }
    assert (Hpos : 0 < remaining (updateRemaining t now)).
    { unfold fires, inWindow in Hf. apply andb_prop in Hf as [Hw _].
      apply andb_prop in Hw as [_ Hw]. apply Z.ltb_lt in Hw.
      change warningTimes with [1800000; 900000; 300000] in Hin.
      destruct Hin as [<-|[<-|[<-|[]]]]; lia. }
    revert Hnew Hend'. unfold tick.
    pose proof (fold_checkWarning_storage warningTimes (updateRemaining t now) [])
      as Hfold.
    pose proof (TimerProps.fold_checkWarning warningTimes
                  TimerProps.NoDup_warningTimes (updateRemaining t now) [])
      as Hclock.
    destruct (fold_left checkWarning warningTimes (updateRemaining t now, []))
      as [t2' out2].
    cbv zeta in Hfold, Hclock. cbn [fst snd] in Hfold, Hclock.
    destruct Hfold as (He2 & Hd2 & Hsync).
    destruct Hclock as ((c1 & _) & _ & _).
    assert (Hr3 : remaining (if Z.rem (remaining t2' / 1000) 10 =? 0
                             then saveState t2' else t2')
                  = remaining (updateRemaining t now)).
    { destruct (Z.rem (remaining t2' / 1000) 10 =? 0); exact c1. }
    rewrite Hr3. apply Z.leb_gt in Hpos. rewrite Hpos. cbn [fst].
    intros Hnew Hend'. rewrite Hend in Hend'.
    destruct (Z.rem (remaining t2' / 1000) 10 =? 0).
    - cbn in *. now rewrite Hend'.
    - destruct Hsync as [Hs | [_ Hw]].
      + unfold synced in Hs. now rewrite Hs, Hend'.
      + rewrite Hw, Hold in Hnew. discriminate. }
  destruct Hstore as [Hstore Hhas].
  destruct (loadState_stored
              (reopen optDuration (localStorage (fst (tick t now)))) d now'
              (warningsShown (fst (tick t now))) (duration (fst (tick t now)))
              Hstore Hd) as (H1 & H2 & _ & H4).
  fold res in H1, H2, H4.
  assert (Hshown : In time (warningsShown (snd res))).
  { rewrite H4. apply In_newSet. now apply TimerProps.has_In. }
  split; [exact H1|]. split; [exact H2|]. split; [exact Hshown|].
  apply (TimerProps.runLog_warned time evs Hin (snd res)).
  now apply TimerProps.has_In.
Qed.

Lemma fired_warning_is_persisted_witness :
  let t := fst (start (constructor None) 1700000000000) in
  endTime t = Some 1700007200000 /\
  In 1800000 warningTimes /\
  In (OnWarning (1800000 / 60000)) (snd (tick t 1700005400500)) /\
  In 1800000
     (warningsShown
        (snd (loadState (reopen None (localStorage (fst (tick t 1700005400500))))
                        1700005500000))).
Proof.
  intros t.
  assert (Hend : endTime t = Some 1700007200000) by reflexivity.
  assert (Hin : In 1800000 warningTimes) by (simpl; auto).
  assert (Hf : In (OnWarning (1800000 / 60000)) (snd (tick t 1700005400500)))
    by (vm_compute; auto).
  split; [exact Hend|]. split; [exact Hin|]. split; [exact Hf|].
  exact (proj1 (proj2 (proj2
           (fired_warning_is_persisted t 1700007200000 1700005400500 1800000
              Hend ltac:(discriminate) Hin Hf None 1700005500000 [])))).
Defined.

(** ** Display *)

Lemma length_append (a b : string) :
  String.length (a ++ b) = (String.length a + String.length b)%nat.
Proof. induction a as [|c a IH]; simpl; [reflexivity | now rewrite IH]. Qed.

Lemma padStart2_two_digits (n : Z) :
  0 <= n < 100 -> String.length (padStart2 (num_to_string n)) = 2%nat.
Proof.
  intros Hn.
  assert (Hall : forallb (fun k => Nat.eqb (String.length
                                   (padStart2 (num_to_string (Z.of_nat k)))) 2)
                         (seq 0 100) = true) by (vm_compute; reflexivity).
  rewrite forallb_forall in Hall.
  specialize (Hall (Z.to_nat n)). rewrite Z2Nat.id in Hall by lia.
  apply Nat.eqb_eq, Hall. apply in_seq. lia.
Qed.

Lemma formatTime_parts (m : Z) :
  0 <= m ->
  Z.rem m 3600000 / 60000 = (m / 60000) mod 60 /\
  Z.rem m 60000 / 1000 = (m / 1000) mod 60.
Proof.
  intros Hm. rewrite !Z.rem_mod_nonneg by lia.
  split; Z.div_mod_to_equations; lia.
Qed.

(** X6. [formatTime(ms)] shows whole hours, the minutes of the hour and
    the seconds of the minute, each padded to two digits and separated by
    colons; a negative time is shown as 00:00:00, the part below a second is
    dropped, and below 100 hours the text is 8 characters long. *)
Theorem formatTime_shape :
  forall ms : Z,
    let m := Z.max 0 ms in
    formatTime ms
    = (padStart2 (num_to_string (m / 3600000)) ++ ":"
       ++ padStart2 (num_to_string ((m / 60000) mod 60)) ++ ":"
       ++ padStart2 (num_to_string ((m / 1000) mod 60)))%string /\
    (ms < 0 -> formatTime ms = "00:00:00"%string) /\
    formatTime ms = formatTime (1000 * (m / 1000)) /\
    (ms < 360000000 -> String.length (formatTime ms) = 8%nat).
Proof.
  intros ms m.
  assert (Hshape : forall x, formatTime x
    = (padStart2 (num_to_string (Z.max 0 x / 3600000)) ++ ":"
       ++ padStart2 (num_to_string ((Z.max 0 x / 60000) mod 60)) ++ ":"
       ++ padStart2 (num_to_string ((Z.max 0 x / 1000) mod 60)))%string).
  { intros x. unfold formatTime.
    assert (Hx : (if x <? 0 then 0 else x) = Z.max 0 x).
    { destruct (Z.ltb_spec x 0); lia. }
    rewrite Hx.
    destruct (formatTime_parts (Z.max 0 x)) as [-> ->]; [lia | reflexivity]. }
  split; [apply Hshape|]. split; [|split].
  - intros Hneg. rewrite Hshape. replace (Z.max 0 ms) with 0 by lia. reflexivity.
  - rewrite (Hshape ms), (Hshape (1000 * (m / 1000))). fold m.
    assert (H0 : 0 <= m) by (unfold m; lia).
    replace (Z.max 0 (1000 * (m / 1000))) with (1000 * (m / 1000))
      by (Z.div_mod_to_equations; lia).
    replace (1000 * (m / 1000) / 3600000) with (m / 3600000)
      by (Z.div_mod_to_equations; lia).
    replace (1000 * (m / 1000) / 60000) with (m / 60000)
      by (Z.div_mod_to_equations; lia).
    replace (1000 * (m / 1000) / 1000) with (m / 1000)
      by (Z.div_mod_to_equations; lia).
    reflexivity.
  - intros Hlt. rewrite Hshape. fold m.
    assert (H0 : 0 <= m < 360000000) by (unfold m; lia).
    rewrite !length_append.
    rewrite !padStart2_two_digits; [reflexivity | | |];
      Z.div_mod_to_equations; lia.
Qed.

Lemma formatTime_shape_witness :
  (-5 < 0 /\ formatTime (-5) = "00:00:00"%string) /\
  (7199999 < 360000000 /\ String.length (formatTime 7199999) = 8%nat) /\
  formatTime 7199999 = "01:59:59"%string.
Proof.
  split; [split; [lia | exact (proj1 (proj2 (formatTime_shape (-5))) ltac:(lia))]|].
  split; [split; [lia | exact (proj2 (proj2 (proj2 (formatTime_shape 7199999)))
                                     ltac:(lia))]|].
  reflexivity.
Defined.

End TimerExtra.

(* ================================================================== *)
(** * Properties of the older timer *)

Module LegacyExtra.
Import Timer LegacyOps.

Lemma legacy_checkWarning_step (t : LegacyTimer.ExamTimer)
      (out : list Callback) (time : Z) :
  let res := LegacyTimer.checkWarning (t, out) time in
  LegacyTimer.remaining (fst res) = LegacyTimer.remaining t /\
  LegacyTimer.intervalId (fst res) = LegacyTimer.intervalId t /\
  LegacyTimer.warningsShown (fst res)
  = (if fires t time then add (LegacyTimer.warningsShown t) time
     else LegacyTimer.warningsShown t) /\
  snd res = out ++ (if fires t time then [OnWarning (time / 60000)] else []).
Proof.
  unfold LegacyTimer.checkWarning, fires.
  destruct ((LegacyTimer.remaining t <=? time)
            && (time - 1000 <? LegacyTimer.remaining t)
            && negb (has (LegacyTimer.warningsShown t) time)); simpl;
    rewrite ?app_nil_r; auto.
Qed.

Lemma legacy_fold_checkWarning (ws : list Z) :
  NoDup ws ->
  forall (t : LegacyTimer.ExamTimer) (out : list Callback),
    let res := fold_left LegacyTimer.checkWarning ws (t, out) in
    LegacyTimer.remaining (fst res) = LegacyTimer.remaining t /\
    LegacyTimer.intervalId (fst res) = LegacyTimer.intervalId t /\
    (forall x, has (LegacyTimer.warningsShown (fst res)) x
               = has (LegacyTimer.warningsShown t) x
                 || (existsb (Z.eqb x) ws && fires t x)) /\
    snd res = out ++ map (fun time => OnWarning (time / 60000))
                         (filter (fires t) ws).
Proof.
  induction 1 as [|w ws Hnotin Hnd IH]; intros t out; cbn [fold_left]; cbv zeta.
  - simpl. rewrite app_nil_r.
    repeat split; intros; now rewrite ?orb_false_r.
  - destruct (LegacyTimer.checkWarning (t, out) w) as [t1 out1] eqn:Hstep.
    pose proof (legacy_checkWarning_step t out w) as Hs. cbv zeta in Hs.
    rewrite Hstep in Hs. cbn [fst snd] in Hs.
    destruct Hs as (Hrem & Hint & Hshown & Hout).
    specialize (IH t1 out1). cbv zeta in IH.
    destruct IH as (Hrem' & Hint' & Hhas & Hout').
    assert (Hfires : forall x, In x ws -> fires t1 x = fires t x).
    { intros x Hx. unfold fires. rewrite Hrem. f_equal. f_equal.
      rewrite Hshown. destruct (fires t w); [|reflexivity].
      rewrite TimerProps.has_add.
      destruct (Z.eqb_spec x w) as [Heq|Hne]; [subst; contradiction|].
      apply orb_false_r. }
    split; [congruence|]. split; [congruence|]. split.
    + intros x. rewrite Hhas, Hshown. cbn [existsb].
      assert (Hsame : has (if fires t w then add (LegacyTimer.warningsShown t) w
                           else LegacyTimer.warningsShown t) x
                      = has (LegacyTimer.warningsShown t) x
                        || ((x =? w) && fires t w)).
      { destruct (fires t w); [rewrite TimerProps.has_add | idtac];
          destruct (x =? w); now rewrite ?orb_false_r. }
      rewrite Hsame.
      destruct (existsb (Z.eqb x) ws) eqn:E.
      * apply existsb_exists in E. destruct E as [y [Hy Hyx]].
        apply Z.eqb_eq in Hyx. subst y. rewrite (Hfires x Hy).
        destruct (Z.eqb_spec x w) as [Heq|Hne]; [subst; contradiction|].
        simpl. now rewrite orb_false_r.
      * simpl. rewrite !orb_false_r.
        destruct (Z.eqb_spec x w) as [Heq|Hne]; [subst x|]; reflexivity.
    + rewrite Hout', Hout.
      rewrite (filter_ext_in (fires t1) (fires t) ws Hfires).
      cbn [filter]. destruct (fires t w); cbn [map];
        rewrite <- ?app_assoc, ?app_nil_r; reflexivity.
Qed.

(** One tick of the older timer. *)
Lemma legacy_tick (t : LegacyTimer.ExamTimer) (time : Z) :
  In time warningTimes ->
  let r := LegacyTimer.remaining t - 1000 in
  timesWarned (time / 60000) (snd (LegacyTimer.tick t))
  = (if fires (decremented t) time then 1%nat else 0%nat) /\
  has (LegacyTimer.warningsShown (fst (LegacyTimer.tick t))) time
  = has (LegacyTimer.warningsShown t) time || fires (decremented t) time /\
  (0 < r ->
   LegacyTimer.remaining (fst (LegacyTimer.tick t)) = r /\
   LegacyTimer.intervalId (fst (LegacyTimer.tick t)) = LegacyTimer.intervalId t).
Proof.
  intros Hin r. unfold LegacyTimer.tick. fold (decremented t).
  pose proof (legacy_fold_checkWarning warningTimes TimerProps.NoDup_warningTimes
                (decremented t) []) as H.
  destruct (fold_left LegacyTimer.checkWarning warningTimes (decremented t, []))
    as [t2 out2].
  cbv zeta in H. cbn [fst snd] in H. destruct H as (Hrem & Hint & Hhas & Hout).
  cbn [LegacyTimer.remaining decremented] in Hrem. fold r in Hrem.
  cbn [LegacyTimer.intervalId decremented] in Hint.
  assert (Hw : forall tail,
             (tail = [] \/ tail = [OnExpire]) ->
             timesWarned (time / 60000)
               ((out2 ++ [OnTick (LegacyTimer.remaining t2)
                                 (LegacyTimer.getTimerClass t2)]) ++ tail)
             = (if fires (decremented t) time then 1%nat else 0%nat)).
  { intros tail Htail. rewrite !TimerProps.timesWarned_app.
    replace (timesWarned (time / 60000) tail) with 0%nat
      by (destruct Htail as [-> | ->]; reflexivity).
    change (timesWarned (time / 60000)
              [OnTick (LegacyTimer.remaining t2) (LegacyTimer.getTimerClass t2)])
      with 0%nat.
    rewrite !Nat.add_0_r, Hout. cbn [app]. unfold timesWarned.
    rewrite TimerProps.warnings_warnings.
    change warningTimes with [1800000; 900000; 300000] in *.
    cbn [filter].
    destruct Hin as [<-|[<-|[<-|[]]]];
      destruct (fires (decremented t) 1800000);
      destruct (fires (decremented t) 900000);
      destruct (fires (decremented t) 300000); reflexivity. }
  assert (Hh : has (LegacyTimer.warningsShown t2) time
               = has (LegacyTimer.warningsShown t) time
                 || fires (decremented t) time).
  { rewrite Hhas, (TimerProps.existsb_warningTimes time Hin). reflexivity. }
  rewrite Hrem. rewrite Hrem in Hw.
  destruct (Z.leb_spec r 0) as [Hle|Hgt]; cbn [fst snd].
  - split; [exact (Hw [OnExpire] (or_intror eq_refl)) | split; [exact Hh | lia]].
  - split; [|split; [exact Hh | intros _; split; [exact Hrem | exact Hint]]].
    specialize (Hw [] (or_introl eq_refl)). now rewrite app_nil_r in Hw.
Qed.

Lemma legacy_ticks_after (n : nat) (time : Z) :
  In time warningTimes ->
  forall t, has (LegacyTimer.warningsShown t) time = true ->
            timesWarned (time / 60000) (snd (ticks n t)) = 0%nat.
Proof.
  intros Hin. induction n as [|n IH]; intros t Hshown; [reflexivity|].
  cbn [ticks]. destruct (LegacyTimer.intervalId t); [|reflexivity].
  destruct (legacy_tick t time Hin) as (Hcount & Hhas & _).
  assert (Hf : fires (decremented t) time = false).
  { unfold fires. cbn [LegacyTimer.warningsShown decremented].
    rewrite Hshown. apply andb_false_r. }
  rewrite Hf in Hcount. rewrite Hshown in Hhas.
  destruct (LegacyTimer.tick t) as [t1 out]. cbn [fst snd] in *.
  specialize (IH t1 Hhas). destruct (ticks n t1) as [t2 out'].
  cbn [snd] in *. rewrite TimerProps.timesWarned_app. lia.
Qed.

(** X7. The older timer, whose tick takes one second off a stored
    counter, invokes the warning of a threshold exactly once while it counts
    down past it: once enough ticks were delivered to bring the counter from
    above the threshold to it, the warning has been invoked once, however
    many ticks follow. *)
Theorem legacy_warning_exactly_once :
  forall (n : nat) (t : LegacyTimer.ExamTimer) (time : Z),
    In time warningTimes ->
    LegacyTimer.intervalId t = true ->
    time < LegacyTimer.remaining t ->
    ~ In time (LegacyTimer.warningsShown t) ->
    LegacyTimer.remaining t - time <= 1000 * Z.of_nat n ->
    timesWarned (time / 60000) (snd (ticks n t)) = 1%nat.
Proof.
  induction n as [|n IH]; intros t time Hin Hint Hgt Hnew Hn; [lia|].
  assert (Hpos : 0 < time).
  { change warningTimes with [1800000; 900000; 300000] in Hin.
    destruct Hin as [<-|[<-|[<-|[]]]]; lia. }
  assert (Hnot : has (LegacyTimer.warningsShown t) time = false).
  { destruct (has (LegacyTimer.warningsShown t) time) eqn:E; [|reflexivity].
    apply TimerProps.has_In in E. contradiction. }
  cbn [ticks]. rewrite Hint.
  destruct (legacy_tick t time Hin) as (Hcount & Hhas & Hgo).
  cbv zeta in Hgo. rewrite Hnot in Hhas.
  unfold fires in Hcount, Hhas.
  cbn [LegacyTimer.remaining LegacyTimer.warningsShown decremented]
    in Hcount, Hhas.
  rewrite Hnot in Hcount, Hhas. cbn [negb] in Hcount, Hhas.
  rewrite andb_true_r in Hcount, Hhas.
  destruct (Z.leb_spec (LegacyTimer.remaining t - 1000) time) as [Hreach|Habove].
  - (* this tick reaches the threshold *)
    assert (Hwin : (time - 1000 <? LegacyTimer.remaining t - 1000) = true)
      by (apply Z.ltb_lt; lia).
    rewrite Hwin in Hcount, Hhas. cbn in Hcount, Hhas.
    pose proof (legacy_ticks_after n time Hin (fst (LegacyTimer.tick t)) Hhas)
      as Hrest.
    destruct (LegacyTimer.tick t) as [t1 out]. cbn [fst snd] in *.
    destruct (ticks n t1) as [t2 out']. cbn [snd] in *.
    rewrite TimerProps.timesWarned_app. lia.
  - (* still above it *)
    cbn in Hcount, Hhas.
    destruct (Hgo ltac:(lia)) as [Hrem Hint'].
    assert (Hrest : timesWarned (time / 60000)
                      (snd (ticks n (fst (LegacyTimer.tick t)))) = 1%nat).
    { apply IH; try assumption.
      - congruence.
      - lia.
      - intros H. apply TimerProps.has_In in H. congruence.
      - lia. }
    destruct (LegacyTimer.tick t) as [t1 out]. cbn [fst snd] in *.
    destruct (ticks n t1) as [t2 out']. cbn [snd] in *.
    rewrite TimerProps.timesWarned_app. lia.
Qed.

Lemma legacy_warning_exactly_once_witness :
  let t := fst (start (LegacyTimer.mkTimer 1803000 1803000 [] false false)) in
  In 1800000 warningTimes /\
  LegacyTimer.intervalId t = true /\
  1800000 < LegacyTimer.remaining t /\
  ~ In 1800000 (LegacyTimer.warningsShown t) /\
  LegacyTimer.remaining t - 1800000 <= 1000 * Z.of_nat 5 /\
  timesWarned (1800000 / 60000) (snd (ticks 5 t)) = 1%nat.
Proof.
  intros t.
  assert (H1 : In 1800000 warningTimes) by (simpl; auto).
  assert (H2 : LegacyTimer.intervalId t = true) by reflexivity.
  assert (H3 : 1800000 < LegacyTimer.remaining t) by (simpl; lia).
  assert (H4 : ~ In 1800000 (LegacyTimer.warningsShown t)) by (simpl; tauto).
  assert (H5 : LegacyTimer.remaining t - 1800000 <= 1000 * Z.of_nat 5)
    by (simpl; lia).
  repeat (split; [assumption|]).
  exact (legacy_warning_exactly_once 5 t 1800000 H1 H2 H3 H4 H5).
Defined.

End LegacyExtra.

(* ================================================================== *)
(** * Further properties of the drawing canvas: eraser and hit test *)

Module CanvasExtra.
Import Canvas Tools.
Local Open Scope Q_scope.

Lemma Qltb_lt (a b : Q) : Qltb a b = true <-> a < b.
Proof.
  unfold Qltb. rewrite negb_true_iff. split.
  - intros H. apply Qnot_le_lt. intros Hle. apply Qle_bool_iff in Hle. congruence.
  - intros H. destruct (Qle_bool b a) eqn:E; [|reflexivity].
    apply Qle_bool_iff in E. lra.
Qed.

Lemma hypot_lt_spec (dx dy r : Q) :
  hypot_lt dx dy r = true <-> 0 < r /\ dx * dx + dy * dy < r * r.
Proof. unfold hypot_lt. now rewrite andb_true_iff, !Qltb_lt. Qed.

Lemma hypot_lt_here (x y r : Q) : 0 < r -> hypot_lt (x - x) (y - y) r = true.
Proof.
  intros Hr. apply hypot_lt_spec. split; [exact Hr|].
  assert (H : (x - x) * (x - x) + (y - y) * (y - y) == 0) by ring.
  rewrite H. nra.
Qed.

Lemma find_skip {A : Type} (p : A -> bool) (l l' : list A) :
  (forall x, In x l -> p x = false) -> find p (l ++ l') = find p l'.
Proof.
  induction l as [|y l IH]; intros H; [reflexivity|].
  simpl. rewrite (H y (or_introl eq_refl)). apply IH.
  intros x Hx. apply H. now right.
Qed.

Lemma find_rev_topmost {A : Type} (p : A -> bool) (a b : list A) (e : A) :
  p e = true -> (forall x, In x b -> p x = false) ->
  find p (rev (a ++ e :: b)) = Some e.
Proof.
  intros He Hb. rewrite rev_app_distr. cbn [rev]. rewrite <- app_assoc.
  rewrite find_skip by (intros x Hx; apply Hb; now apply in_rev).
  simpl. now rewrite He.
Qed.

Lemma find_miss {A : Type} (p : A -> bool) (l : list A) :
  (forall x, In x l -> p x = false) -> find p l = None.
Proof.
  intros H. rewrite <- (app_nil_r l). now rewrite find_skip.
Qed.

Lemma indexOf_at (a b : list Element) (e : Element) :
  NoDup (map ref (a ++ e :: b)) -> indexOf (a ++ e :: b) e = Some (List.length a).
Proof.
  unfold indexOf. induction a as [|x a IH]; intros Hnd.
  - simpl. now rewrite Nat.eqb_refl.
  - simpl in Hnd. inversion Hnd as [|? ? Hx Hnd']; subst.
    simpl. destruct (Nat.eqb_spec (ref x) (ref e)) as [Heq|Hne].
    + exfalso. apply Hx. rewrite Heq, map_app. apply in_or_app. right. now left.
    + now rewrite (IH Hnd').
Qed.

Lemma indexOf_absent (l : list Element) (e : Element) :
  ~ In (ref e) (map ref l) -> indexOf l e = None.
Proof.
  unfold indexOf. induction l as [|x l IH]; intros H; [reflexivity|].
  simpl. destruct (Nat.eqb_spec (ref x) (ref e)) as [Heq|Hne].
  - exfalso. apply H. now left.
  - rewrite IH; [reflexivity|]. intros Hin. apply H. now right.
Qed.

Lemma splice_remove_at {A : Type} (a b : list A) (e : A) :
  splice_remove (List.length a) (a ++ e :: b) = a ++ b.
Proof.
  unfold splice_remove.
  rewrite firstn_app, firstn_all, Nat.sub_diag. cbn [firstn]. rewrite app_nil_r.
  change (S (List.length a)) with (1 + List.length a)%nat.
  rewrite <- skipn_skipn.
  rewrite skipn_app, skipn_all, Nat.sub_diag. reflexivity.
Qed.

Lemma splice_insert_at {A : Type} (a b : list A) (e : A) :
  splice_insert (List.length a) e (a ++ b) = a ++ e :: b.
Proof.
  unfold splice_insert.
  rewrite firstn_app, firstn_all, Nat.sub_diag. cbn [firstn]. rewrite app_nil_r.
  rewrite skipn_app, skipn_all, Nat.sub_diag. reflexivity.
Qed.

Lemma NoDup_refs_remove (a b : list Element) (e : Element) :
  NoDup (map ref (a ++ e :: b)) ->
  NoDup (map ref (a ++ b)) /\ ~ In (ref e) (map ref (a ++ b)).
Proof.
  rewrite !map_app. cbn [map]. intros H. split.
  - now apply NoDup_remove_1 in H.
  - now apply NoDup_remove_2 in H.
Qed.

Lemma handleEraser_hit (s : Canvas) (pos : Point) (a b : list Element)
      (e : Element) :
  NoDup (map ref (elements s)) ->
  elements s = a ++ e :: b ->
  isPointInElement pos e = true ->
  (forall x, In x b -> isPointInElement pos x = false) ->
  handleEraser s pos
  = set_hoverElement
      (set_history s (a ++ b) (push (undoStack s) (Remove e (List.length a))) [])
      None.
Proof.
  intros Hnd Hel He Hb. unfold handleEraser, findElementAt.
  rewrite Hel in *. rewrite (find_rev_topmost _ a b e He Hb).
  rewrite (indexOf_at a b e Hnd), splice_remove_at. reflexivity.
Qed.

(** X8. The eraser removes the topmost element under the pointer, the
    one latest in drawing order among those hit, and nothing else; the
    removal is recorded with the index the element had and the redo stack is
    emptied.  A click that hits no element leaves the canvas as it was. *)
Theorem eraser_removes_topmost_hit :
  forall (s : Canvas) (pos : Point),
    NoDup (map ref (elements s)) ->
    ((forall x, In x (elements s) -> isPointInElement pos x = false) ->
     handleEraser s pos = s) /\
    (forall (a b : list Element) (e : Element),
        elements s = a ++ e :: b ->
        isPointInElement pos e = true ->
        (forall x, In x b -> isPointInElement pos x = false) ->
        let s' := handleEraser s pos in
        elements s' = a ++ b /\
        undoStack s' = undoStack s ++ [Remove e (List.length a)] /\
        redoStack s' = [] /\
        hoverElement s' = None /\
        terminationState s' = terminationState s).
Proof.
  intros s pos Hnd. split.
  - intros Hmiss. unfold handleEraser, findElementAt.
    rewrite find_miss; [reflexivity|].
    intros x Hx. apply Hmiss. now apply in_rev.
  - intros a b e Hel He Hb s'. subst s'.
    rewrite (handleEraser_hit s pos a b e Hnd Hel He Hb).
    repeat split.
Qed.

Lemma eraser_removes_topmost_hit_witness :
  let s := addElements Scenarios.freshCanvas (Scenarios.markers 3) in
  let pos := mkPoint 10 10 in
  NoDup (map ref (elements s)) /\
  elements s = [Scenarios.markerAt 0] ++ Scenarios.markerAt 1 :: [Scenarios.markerAt 2] /\
  isPointInElement pos (Scenarios.markerAt 0) = true /\
  isPointInElement pos (Scenarios.markerAt 1) = true /\
  isPointInElement pos (Scenarios.markerAt 2) = false /\
  elements (handleEraser s pos) = [Scenarios.markerAt 0; Scenarios.markerAt 2].
Proof.
  intros s pos.
  assert (Hnd : NoDup (map ref (elements s))).
  { change (map ref (elements s)) with [0%nat; 1%nat; 2%nat].
    repeat constructor; simpl; intuition discriminate. }
  assert (Hel : elements s
                = [Scenarios.markerAt 0] ++ Scenarios.markerAt 1 :: [Scenarios.markerAt 2])
    by reflexivity.
  assert (H1 : isPointInElement pos (Scenarios.markerAt 1) = true) by reflexivity.
  assert (H2 : forall x, In x [Scenarios.markerAt 2] -> isPointInElement pos x = false).
  { intros x [<-|[]]. reflexivity. }
  split; [exact Hnd|]. split; [exact Hel|]. split; [reflexivity|].
  split; [exact H1|]. split; [reflexivity|].
  exact (proj1 (proj2 (eraser_removes_topmost_hit s pos Hnd) _ _ _ Hel H1 H2)).
Defined.

(** X9. Undoing an erasure puts the element back at the index it had, so
    the drawing order is the one before the erasure, and leaves the
    numbering registry alone; redoing removes the same element again. *)
Theorem erase_undo_redo_round_trip :
  forall (s : Canvas) (reg : Registry) (pos : Point) (e : Element),
    NoDup (map ref (elements s)) ->
    findElementAt s pos = Some e ->
    let s1 := handleEraser s pos in
    let '(ok, s2, reg2) := undo s1 reg in
    let '(ok', s3) := redo s2 in
    In e (elements s) /\ ~ In e (elements s1) /\
    List.length (elements s) = S (List.length (elements s1)) /\
    ok = true /\ elements s2 = elements s /\ undoStack s2 = undoStack s /\
    reg2 = reg /\
    ok' = true /\ elements s3 = elements s1 /\ undoStack s3 = undoStack s1 /\
    redoStack s3 = [].
Proof.
  intros s reg pos e Hnd Hfind.
  assert (Hsplit : exists a b, elements s = a ++ e :: b /\
                     isPointInElement pos e = true /\
                     (forall x, In x b -> isPointInElement pos x = false)).
  { unfold findElementAt in Hfind.
    destruct (find_some _ _ Hfind) as [Hin He].
    revert Hfind. generalize (elements s) as l.
    intros l. induction l as [|x l IH] using rev_ind; intros Hfind.
    - discriminate.
    - rewrite rev_app_distr in Hfind. simpl in Hfind.
      destruct (isPointInElement pos x) eqn:Hx.
      + injection Hfind as ->. exists l, []. repeat split; auto.
        intros y [].
      + destruct (IH Hfind) as (a & b & Hl & He' & Hb).
        exists a, (b ++ [x]). rewrite Hl, <- app_assoc. repeat split; auto.
        intros y Hy. apply in_app_or in Hy. destruct Hy as [Hy|[<-|[]]]; auto. }
  destruct Hsplit as (a & b & Hel & He & Hb).
  cbv zeta. rewrite (handleEraser_hit s pos a b e Hnd Hel He Hb).
  rewrite Hel in Hnd. destruct (NoDup_refs_remove a b e Hnd) as [Hnd' Hout].
  unfold undo. cbn [undoStack set_hoverElement set_history].
  rewrite pop_push. cbn [elements redoStack set_hoverElement set_history].
  rewrite splice_insert_at.
  unfold redo. cbn [redoStack set_hoverElement set_history].
  change (pop (push [] (Remove e (List.length a))))
    with (Some (@nil Action, Remove e (List.length a))).
  cbn [elements undoStack set_hoverElement set_history].
  rewrite (indexOf_at a b e Hnd), splice_remove_at.
  rewrite Hel.
  repeat match goal with |- _ /\ _ => split end; try reflexivity.
  - apply in_or_app. right. now left.
  - intros Hin. apply Hout. now apply in_map.
  - rewrite !length_app. simpl. lia.
Qed.

Lemma erase_undo_redo_round_trip_witness :
  let s := addElements Scenarios.freshCanvas (Scenarios.markers 3) in
  let pos := mkPoint 10 10 in
  NoDup (map ref (elements s)) /\
  findElementAt s pos = Some (Scenarios.markerAt 1) /\
  elements (snd (fst (undo (handleEraser s pos) Scenarios.freshRegistry)))
  = elements s.
Proof.
  intros s pos.
  assert (Hnd : NoDup (map ref (elements s))).
  { change (map ref (elements s)) with [0%nat; 1%nat; 2%nat].
    repeat constructor; simpl; intuition discriminate. }
  assert (Hf : findElementAt s pos = Some (Scenarios.markerAt 1)) by reflexivity.
  split; [exact Hnd|]. split; [exact Hf|].
  pose proof (erase_undo_redo_round_trip s Scenarios.freshRegistry pos
                (Scenarios.markerAt 1) Hnd Hf) as H.
  cbv zeta in H.
  destruct (undo (handleEraser s pos) Scenarios.freshRegistry) as [[ok s2] reg2].
  destruct (redo s2) as [ok' s3].
  exact (proj1 (proj2 (proj2 (proj2 (proj2 H))))).
Defined.

(** ** Hit test of poly-lines *)

Lemma hypot_lt_zero (dx dy r : Q) :
  dx == 0 -> dy == 0 -> 0 < r -> hypot_lt dx dy r = true.
Proof.
  intros Hx Hy Hr. apply hypot_lt_spec. split; [exact Hr|].
  rewrite Hx, Hy. nra.
Qed.

Lemma Qltb_false (a b : Q) : b <= a -> Qltb a b = false.
Proof.
  intros H. destruct (Qltb a b) eqn:E; [|reflexivity].
  apply Qltb_lt in E. lra.
Qed.

(** The start of a segment is at distance 0 from it. *)
Lemma segment_start_near (a b : Point) (thr : Q) :
  0 < thr -> pointToLineDistance_lt a a b thr = true.
Proof.
  intros Hthr. unfold pointToLineDistance_lt. cbv zeta.
  set (C := px b - px a). set (D := py b - py a).
  assert (Hdot : (px a - px a) * C + (py a - py a) * D == 0) by ring.
  destruct (Qeq_bool (C * C + D * D) 0).
  - change (Qltb (- (1)) 0) with true. cbv iota. now apply hypot_lt_here.
  - assert (Hp : ((px a - px a) * C + (py a - py a) * D) / (C * C + D * D) == 0).
    { unfold Qdiv. rewrite Hdot. ring. }
    rewrite (Qltb_false _ 0) by (rewrite Hp; lra).
    rewrite (Qltb_false 1 _) by (rewrite Hp; lra).
    apply hypot_lt_zero; [rewrite Hp; ring | rewrite Hp; ring | exact Hthr].
Qed.

(** So is its end. *)
Lemma segment_end_near (a b : Point) (thr : Q) :
  0 < thr -> pointToLineDistance_lt b a b thr = true.
Proof.
  intros Hthr. unfold pointToLineDistance_lt. cbv zeta.
  set (C := px b - px a). set (D := py b - py a).
  destruct (Qeq_bool (C * C + D * D) 0) eqn:E.
  - change (Qltb (- (1)) 0) with true. cbv iota.
    apply Qeq_bool_iff in E. apply hypot_lt_spec. split; [exact Hthr|].
    fold C D. rewrite E. nra.
  - assert (Hne : ~ C * C + D * D == 0).
    { intros H. apply Qeq_bool_iff in H. congruence. }
    assert (Hp : (C * C + D * D) / (C * C + D * D) == 1) by (field; exact Hne).
    rewrite (Qltb_false _ 0) by (rewrite Hp; lra).
    rewrite (Qltb_false 1 _) by (rewrite Hp; lra).
    apply hypot_lt_zero; [rewrite Hp; unfold C; ring
                         | rewrite Hp; unfold D; ring | exact Hthr].
Qed.

Lemma vertex_near_line (p : Point) (thr : Q) (pts : list Point) (a : Point) :
  0 < thr -> pts <> [] -> In p (a :: pts) ->
  isPointNearLine p (a :: pts) thr = true.
Proof.
  intros Hthr. revert a. induction pts as [|b rest IH]; intros a Hne Hin.
  - contradiction.
  - cbn [isPointNearLine]. apply orb_true_iff.
    destruct Hin as [<-|Hin].
    + left. now apply segment_start_near.
    + destruct rest as [|c rest'].
      * destruct Hin as [<-|[]]. left. now apply segment_end_near.
      * right. apply IH; [discriminate | exact Hin].
Qed.

(** X10. A drawn line or surface is hit by the pointer at each of its
    vertices, so the eraser can pick it up there; a poly-line of fewer than
    two points is hit nowhere. *)
Theorem polyline_hit_at_its_vertices :
  forall (e : Element) (pts : list Point) (p : Point),
    (exists c w, data e = Line c w pts) \/
    (exists t c w, data e = Surface t c w pts) ->
    ((2 <= List.length pts)%nat -> In p pts -> isPointInElement p e = true) /\
    ((List.length pts < 2)%nat -> isPointInElement p e = false).
Proof.
  intros e pts p He.
  assert (Hdata : isPointInElement p e = isPointNearLine p pts 10).
  { unfold isPointInElement.
    destruct He as [(c & w & ->)|(t & c & w & ->)]; reflexivity. }
  rewrite Hdata. split.
  - intros Hlen Hin. destruct pts as [|a rest]; [contradiction|].
    apply vertex_near_line; [reflexivity | | exact Hin].
    intros ->. simpl in Hlen. lia.
  - intros Hlen. destruct pts as [|a [|b rest]]; try reflexivity.
    simpl in Hlen. lia.
Qed.

Lemma polyline_hit_at_its_vertices_witness :
  let pts := [mkPoint 0 0; mkPoint 30 40; mkPoint 100 40] in
  let e := mkElement 0 0 (Line "#FF0000" 3 pts) in
  (2 <= List.length pts)%nat /\ In (mkPoint 30 40) pts /\
  isPointInElement (mkPoint 30 40) e = true.
Proof.
  intros pts e.
  assert (H1 : (2 <= List.length pts)%nat) by (simpl; lia).
  assert (H2 : In (mkPoint 30 40) pts) by (simpl; auto).
  split; [exact H1|]. split; [exact H2|].
  exact (proj1 (polyline_hit_at_its_vertices e pts (mkPoint 30 40)
                  (or_introl (ex_intro _ _ (ex_intro _ _ eq_refl)))) H1 H2).
Defined.

(** ** The marker tool *)

Lemma NoDup_app_snoc {A : Type} (l : list A) (x : A) :
  NoDup l -> ~ In x l -> NoDup (l ++ [x]).
Proof.
  intros Hl Hx. apply NoDup_rev in Hl.
  rewrite <- (rev_involutive (l ++ [x])). apply NoDup_rev.
  rewrite rev_app_distr. simpl. constructor; [|exact Hl].
  now rewrite <- in_rev.
Qed.

(** X11. A marker is found, on top of everything drawn before, by the hit
    test anywhere closer than 17 pixels to the point it was placed at, and
    the eraser used there takes exactly that marker away again. *)
Theorem marker_erased_where_placed :
  forall (s : Canvas) (pos pos' : Point) (now : Z) (r : nat),
    NoDup (map ref (elements s)) ->
    ~ In r (map ref (elements s)) ->
    hypot_lt (px pos' - px pos) (py pos' - py pos) 17 = true ->
    let s1 := fst (placeMarker s pos now r) in
    let m := mkElement r now (Marker (currentColor s) (px pos) (py pos) 12) in
    elements s1 = elements s ++ [m] /\
    findElementAt s1 pos' = Some m /\
    elements (handleEraser s1 pos') = elements s /\
    findElementAt s1 pos = Some m.
Proof.
  intros s pos pos' now r Hnd Hr Hnear s1 m.
  assert (Hel : elements s1 = elements s ++ m :: []) by reflexivity.
  assert (Hhit : forall q, hypot_lt (px q - px pos) (py q - py pos) 17 = true ->
                           isPointInElement q m = true).
  { intros q Hq. unfold isPointInElement, m. cbn [data].
    apply hypot_lt_spec in Hq. apply hypot_lt_spec. lra. }
  assert (Hfind : forall q, isPointInElement q m = true ->
                            findElementAt s1 q = Some m).
  { intros q Hq. unfold findElementAt. rewrite Hel.
    apply find_rev_topmost; [exact Hq | intros x []]. }
  assert (Hnd1 : NoDup (map ref (elements s1))).
  { rewrite Hel, map_app. cbn [map ref m]. apply NoDup_app_snoc; assumption. }
  split; [exact Hel|]. split; [apply Hfind, Hhit, Hnear|]. split.
  - rewrite (handleEraser_hit s1 pos' (elements s) [] m Hnd1 Hel
               (Hhit pos' Hnear)) by (intros x []).
    cbn [elements set_hoverElement set_history]. apply app_nil_r.
  - apply Hfind, Hhit, hypot_lt_here. reflexivity.
Qed.

Lemma marker_erased_where_placed_witness :
  let s := addElements Scenarios.freshCanvas (Scenarios.markers 2) in
  let pos := mkPoint 25 10 in
  let pos' := mkPoint 30 20 in
  NoDup (map ref (elements s)) /\
  ~ In 5%nat (map ref (elements s)) /\
  hypot_lt (px pos' - px pos) (py pos' - py pos) 17 = true /\
  isPointInElement pos' (Scenarios.markerAt 1) = true /\
  elements (handleEraser (fst (placeMarker s pos 0 5)) pos') = elements s.
Proof.
  intros s pos pos'.
  assert (Hnd : NoDup (map ref (elements s))).
  { change (map ref (elements s)) with [0%nat; 1%nat].
    repeat constructor; simpl; intuition discriminate. }
  assert (Hr : ~ In 5%nat (map ref (elements s))).
  { change (map ref (elements s)) with [0%nat; 1%nat].
    simpl; intuition discriminate. }
  assert (Hnear : hypot_lt (px pos' - px pos) (py pos' - py pos) 17 = true)
    by reflexivity.
  split; [exact Hnd|]. split; [exact Hr|]. split; [exact Hnear|].
  split; [reflexivity|].
  exact (proj1 (proj2 (proj2 (marker_erased_where_placed s pos pos' 0 5
                                Hnd Hr Hnear)))).
Defined.

(** ** The line and polygon tools *)

Lemma lineClicks_snoc (s : Canvas) (cs : list Point) (c : Point) :
  lineClicks s (cs ++ [c]) = addLinePoint (lineClicks s cs) c.
Proof. unfold lineClicks. now rewrite fold_left_app. Qed.

Lemma lineClicks_state (s : Canvas) (c : Point) (cs : list Point) :
  isDrawing s = false ->
  lineClicks s (c :: cs)
  = set_drawing s true (c :: cs)
      (Some (Line (currentColor s) (lineWidth s) (c :: cs))).
Proof.
  intros Hd. induction cs as [|x cs IH] using rev_ind.
  - unfold lineClicks, addLinePoint. simpl. now rewrite Hd.
  - rewrite app_comm_cons, lineClicks_snoc, IH. reflexivity.
Qed.

(** X12. Clicks of the line tool collect the clicked points in order and
    add nothing to the drawing; finishing then commits one line through
    exactly these points, in the current colour and width, when there are
    at least two of them, and otherwise drops the point and commits
    nothing. *)
Theorem line_tool_commits_clicked_points :
  forall (s : Canvas) (reg : Registry) (c : Point) (cs : list Point)
         (now : Z) (r : nat),
    isDrawing s = false ->
    terminationState s = Idle ->
    let s1 := lineClicks s (c :: cs) in
    let fin := finishLine s1 reg now r in
    (points s1 = c :: cs /\ isDrawing s1 = true /\
     elements s1 = elements s /\ undoStack s1 = undoStack s) /\
    (isDrawing (fst fin) = false /\ points (fst fin) = [] /\
     activeElement (fst fin) = None /\ snd fin = reg) /\
    (cs <> [] ->
     elements (fst fin)
     = elements s
       ++ [mkElement r now (Line (currentColor s) (lineWidth s) (c :: cs))]) /\
    (cs = [] ->
     elements (fst fin) = elements s /\ undoStack (fst fin) = undoStack s).
Proof.
  intros s reg c cs now r Hd Hidle s1 fin. subst fin s1.
  rewrite (lineClicks_state s c cs Hd).
  split; [repeat split|].
  unfold finishLine. cbn [points set_drawing].
  destruct cs as [|c' cs].
  - cbn [List.length Nat.ltb Nat.leb].
    unfold cancelCurrentOperation, cancelTermination.
    cbn [isDrawing set_drawing textInput set_textInput terminationState].
    destruct (textInput s);
      cbn [terminationState set_textInput set_drawing]; rewrite Hidle;
      (split; [repeat split|]); (split; [intros H; now elim H | intros _; split; reflexivity]).
  - cbn [List.length Nat.ltb Nat.leb].
    split; [repeat split|]. split; [intros _; reflexivity | discriminate].
Qed.

Lemma line_tool_commits_clicked_points_witness :
  let s := Scenarios.freshCanvas in
  let cs := [mkPoint 10 10; mkPoint 50 20; mkPoint 90 10] in
  isDrawing s = false /\ terminationState s = Idle /\
  elements (fst (finishLine (lineClicks s cs) Scenarios.freshRegistry 7 0))
  = [mkElement 0 7 (Line "#FF0000" 3 cs)].
Proof.
  intros s cs.
  assert (Hd : isDrawing s = false) by reflexivity.
  assert (Hi : terminationState s = Idle) by reflexivity.
  split; [exact Hd|]. split; [exact Hi|].
  refine (proj1 (proj2 (proj2 (line_tool_commits_clicked_points
                  s Scenarios.freshRegistry (mkPoint 10 10)
                  [mkPoint 50 20; mkPoint 90 10] 7 0 Hd Hi))) _).
  discriminate.
Defined.

Lemma polygonClicks_app (st : Canvas * Registry)
      (a b : list (Point * Z * nat)) :
  polygonClicks st (a ++ b) = polygonClicks (polygonClicks st a) b.
Proof.
  revert st. induction a as [|[[p n] r] a IH]; intros st; [reflexivity|].
  simpl. apply IH.
Qed.

Lemma polygonClicks_state (s : Canvas) (reg : Registry)
      (c0 : Point * Z * nat) (cs : list (Point * Z * nat)) :
  isDrawing s = false ->
  (forall pre c post,
      cs = pre ++ c :: post -> (2 <= List.length pre)%nat ->
      hypot_lt (px (clickPos c) - px (clickPos c0))
               (py (clickPos c) - py (clickPos c0)) 15 = false) ->
  polygonClicks (s, reg) (c0 :: cs)
  = (set_drawing s true (map clickPos (c0 :: cs))
       (Some (Polygon (currentColor s) (map clickPos (c0 :: cs)))), reg).
Proof.
  intros Hd. induction cs as [|x cs IH] using rev_ind; intros Hfar.
  - destruct c0 as [[p n] r]. simpl. unfold addPolygonPoint. simpl.
    now rewrite Hd.
  - rewrite app_comm_cons, polygonClicks_app, IH.
    + destruct x as [[p n] r]. cbn [polygonClicks fst snd].
      unfold addPolygonPoint. cbn [isDrawing points set_drawing map].
      assert (Hgo : (3 <=? S (List.length (map clickPos cs)))%nat
                    && hypot_lt (px p - px (clickPos c0))
                                (py p - py (clickPos c0)) 15 = false).
      { rewrite length_map.
        destruct (Nat.leb_spec 3 (S (List.length cs))) as [Hlen|Hlen];
          [|reflexivity].
        cbn [andb]. apply (Hfar cs (p, n, r) []); [reflexivity | lia]. }
      cbn [List.length]. rewrite Hgo.
      cbn [activeElement set_drawing withPoints isDrawing].
      unfold push. rewrite map_app. reflexivity.
    + intros pre c post Hcs Hlen. apply (Hfar pre c (post ++ [x])); [|exact Hlen].
      rewrite Hcs, <- app_assoc. reflexivity.
Qed.

(** X13. Clicks of the polygon tool collect vertices; once three or more
    are placed, a click closer than 15 pixels to the first vertex closes
    the polygon: exactly the collected vertices are committed, in the
    current colour, and the closing click is not one of them.  With fewer
    than three vertices such a click is just one more vertex. *)
Theorem polygon_tool_closes_near_start :
  forall (s : Canvas) (reg : Registry) (c0 : Point * Z * nat)
         (cs : list (Point * Z * nat)) (pos : Point) (now : Z) (r : nat),
    isDrawing s = false ->
    (forall pre c post,
        cs = pre ++ c :: post -> (2 <= List.length pre)%nat ->
        hypot_lt (px (clickPos c) - px (clickPos c0))
                 (py (clickPos c) - py (clickPos c0)) 15 = false) ->
    let near := hypot_lt (px pos - px (clickPos c0))
                         (py pos - py (clickPos c0)) 15 in
    let st := polygonClicks (s, reg) (c0 :: cs) in
    let vs := map clickPos (c0 :: cs) in
    let fin := addPolygonPoint (fst st) (snd st) pos now r in
    (points (fst st) = vs /\ isDrawing (fst st) = true /\
     elements (fst st) = elements s /\ snd st = reg) /\
    ((2 <= List.length cs)%nat -> near = true ->
     elements (fst fin)
     = elements s ++ [mkElement r now (Polygon (currentColor s) vs)] /\
     isDrawing (fst fin) = false /\ points (fst fin) = [] /\ snd fin = reg) /\
    ((List.length cs < 2)%nat \/ near = false ->
     elements (fst fin) = elements s /\ isDrawing (fst fin) = true /\
     points (fst fin) = vs ++ [pos]).
Proof.
  intros s reg c0 cs pos now r Hd Hfar near st vs fin. subst fin st.
  rewrite (polygonClicks_state s reg c0 cs Hd Hfar). cbn [fst snd].
  split; [repeat split|].
  unfold addPolygonPoint. cbn [isDrawing points set_drawing map].
  cbn [List.length]. rewrite length_map. fold near.
  split.
  - intros Hlen Hnear. rewrite Hnear.
    destruct (Nat.leb_spec 3 (S (List.length cs))) as [_|Hlt]; [|lia].
    cbn [andb]. unfold finishPolygon. cbn [points set_drawing List.length].
    rewrite length_map.
    destruct (Nat.ltb_spec (S (List.length cs)) 3) as [Hlt|_]; [lia|].
    repeat split.
  - intros Hor.
    assert (Hgo : (3 <=? S (List.length cs))%nat && near = false).
    { destruct Hor as [Hlen| ->]; [|apply andb_false_r].
      destruct (Nat.leb_spec 3 (S (List.length cs))) as [Hge|_]; [lia|].
      reflexivity. }
    rewrite Hgo. repeat split.
Qed.

Lemma polygon_tool_closes_near_start_witness :
  let s := Scenarios.freshCanvas in
  let reg := Scenarios.freshRegistry in
  let c0 := (mkPoint 100 100, 0%Z, 0%nat) in
  let cs := [(mkPoint 200 100, 1%Z, 1%nat); (mkPoint 200 200, 2%Z, 2%nat);
             (mkPoint 110 190, 3%Z, 3%nat)] in
  isDrawing s = false /\
  elements (fst (addPolygonPoint (fst (polygonClicks (s, reg) (c0 :: cs)))
                                 (snd (polygonClicks (s, reg) (c0 :: cs)))
                                 (mkPoint 104 103) 4 4))
  = [mkElement 4 4 (Polygon "#FF0000"
                      [mkPoint 100 100; mkPoint 200 100; mkPoint 200 200;
                       mkPoint 110 190])].
Proof.
  intros s reg c0 cs.
  assert (Hd : isDrawing s = false) by reflexivity.
  assert (Hfar : forall pre c post,
             cs = pre ++ c :: post -> (2 <= List.length pre)%nat ->
             hypot_lt (px (clickPos c) - px (clickPos c0))
                      (py (clickPos c) - py (clickPos c0)) 15 = false).
  { intros pre c post Hcs Hlen.
    destruct pre as [|p1 [|p2 [|p3 pre]]]; simpl in Hlen; try lia.
    - injection Hcs as _ _ <- _. reflexivity.
    - injection Hcs as _ _ _ Hcs. destruct pre; discriminate. }
  split; [exact Hd|].
  refine (proj1 (proj1 (proj2 (polygon_tool_closes_near_start
                  s reg c0 cs (mkPoint 104 103) 4 4 Hd Hfar)) _ _)).
  - simpl. lia.
  - reflexivity.
Defined.

(** X14. Whatever state they are called in, [finishLine], [finishPolygon]
    and [addPolygonPoint] never remove anything but a pending first
    termination click, and the only element they can add is a line of at
    least two points, respectively a polygon of at least three. *)
Theorem tools_commit_only_complete_shapes :
  forall (s : Canvas) (reg : Registry) (pos : Point) (now : Z) (r : nat)
         (e : Element),
    (In e (elements (fst (finishLine s reg now r))) ->
     In e (elements s) \/
     (e = mkElement r now (Line (currentColor s) (lineWidth s) (points s))
      /\ (2 <= List.length (points s))%nat)) /\
    (In e (elements (fst (finishPolygon s reg now r))) ->
     In e (elements s) \/
     (e = mkElement r now (Polygon (currentColor s) (points s))
      /\ (3 <= List.length (points s))%nat)) /\
    (In e (elements (fst (addPolygonPoint s reg pos now r))) ->
     In e (elements s) \/
     (e = mkElement r now (Polygon (currentColor s) (points s))
      /\ (3 <= List.length (points s))%nat)).
Proof.
  intros s reg pos now r e.
  assert (Hcancel : forall s0 reg0,
             In e (elements (fst (cancelCurrentOperation s0 reg0))) ->
             In e (elements s0)).
  { intros s0 reg0.
    change (cancelCurrentOperation s0 reg0)
      with (cancelTermination (afterDrawingReset s0) reg0).
    set (s2 := afterDrawingReset s0).
    assert (Hs2 : elements s2 = elements s0).
    { unfold s2, afterDrawingReset.
      destruct (isDrawing s0); cbn [textInput set_drawing];
        destruct (textInput s0); reflexivity. }
    rewrite <- Hs2. unfold cancelTermination.
    destruct (terminationState s2) as [|fp num color]; [auto|].
    destruct (pop (elements s2)) as [[rest lastElement]|] eqn:Hpop; [|auto].
    apply pop_Some in Hpop.
    destruct (data lastElement); auto.
    destruct (number =? num)%Z; auto.
    cbn [fst elements set_terminationState set_history]. rewrite Hpop.
    unfold push. intros H. apply in_or_app. now left. }
  assert (Hpoly : In e (elements (fst (finishPolygon s reg now r))) ->
                  In e (elements s) \/
                  (e = mkElement r now (Polygon (currentColor s) (points s))
                   /\ (3 <= List.length (points s))%nat)).
  { unfold finishPolygon.
    destruct (Nat.ltb_spec (List.length (points s)) 3) as [Hlt|Hge].
    - intros H. left. now apply Hcancel in H.
    - cbn [fst elements set_drawing]. rewrite ProjectorProps.elements_addElement.
      intros H. apply in_app_or in H. destruct H as [H|[<-|[]]]; auto. }
  split; [|split; [exact Hpoly|]].
  - unfold finishLine.
    destruct (Nat.ltb_spec (List.length (points s)) 2) as [Hlt|Hge].
    + intros H. left. now apply Hcancel in H.
    + cbn [fst elements set_drawing]. rewrite ProjectorProps.elements_addElement.
      intros H. apply in_app_or in H. destruct H as [H|[<-|[]]]; auto.
  - unfold addPolygonPoint. destruct (isDrawing s); [|auto].
    destruct (points s) as [|start rest] eqn:Hpts; [auto|].
    destruct (_ && _); [|auto].
    exact Hpoly.
Qed.

Lemma tools_commit_only_complete_shapes_witness :
  let s := lineClicks Scenarios.freshCanvas [mkPoint 10 10; mkPoint 50 20] in
  let e := mkElement 0 7 (Line "#FF0000" 3 [mkPoint 10 10; mkPoint 50 20]) in
  In e (elements (fst (finishLine s Scenarios.freshRegistry 7 0))) /\
  (In e (elements s) \/
   (e = mkElement 0 7 (Line (currentColor s) (lineWidth s) (points s))
    /\ (2 <= List.length (points s))%nat)).
Proof.
  intros s e.
  assert (H : In e (elements (fst (finishLine s Scenarios.freshRegistry 7 0))))
    by (simpl; auto).
  split; [exact H|].
  exact (proj1 (tools_commit_only_complete_shapes
                  s Scenarios.freshRegistry (mkPoint 0 0) 7 0 e) H).
Defined.

(** ** Terminations and the history *)

Lemma undo_added_last (s : Canvas) (reg : Registry) (U : list Action)
      (l : list Element) (e : Element) :
  pop (undoStack s) = Some (U, Add e) ->
  elements s = l ++ [e] ->
  NoDup (map ref (l ++ [e])) ->
  undo s reg
  = (true, set_history s l U (push (redoStack s) (Add e)),
     match data e with
     | Termination _ _ _ _ number _ => recycleTerminationNumber reg number
     | _ => reg
     end).
Proof.
  intros HU Hel Hnd. unfold undo. rewrite HU, Hel.
  rewrite (indexOf_at l [] e Hnd), splice_remove_at, app_nil_r. reflexivity.
Qed.

(** The entry pushed last is on top of the undo stack, also when the stack
    was capped before the push. *)
Lemma pop_after_cap (X : list Action) (x : Action) :
  exists X',
    pop (if (maxHistory <=? List.length (push X x))%nat
         then shift (push X x) else push X x) = Some (X', x).
Proof.
  pose proof (eq_refl : maxHistory = 50%nat) as Hmax.
  destruct (Nat.leb_spec maxHistory (List.length (push X x))) as [Hge|Hlt].
  - rewrite length_push in Hge. destruct X as [|y X]; [simpl in Hge; lia|].
    exists X. change (shift (push (y :: X) x)) with (push X x). apply pop_push.
  - exists X. apply pop_push.
Qed.

Lemma recycle_twice (reg : Registry) (n : Z) :
  recycleTerminationNumber (recycleTerminationNumber reg n) n
  = recycleTerminationNumber reg n.
Proof.
  assert (Hin : includes (pool (recycleTerminationNumber reg n)) n = true).
  { apply RegistryProps.includes_In, RegistryProps.In_pool_recycle. now right. }
  unfold recycleTerminationNumber at 1. rewrite Hin.
  unfold recycleTerminationNumber. destruct (includes (pool reg) n); reflexivity.
Qed.

(** Both clicks of a pair, then both undone. *)
Lemma pair_undone (s : Canvas) (reg : Registry) (a b : Point)
      (now1 now2 : Z) (r1 r2 : nat) :
  terminationState s = Idle ->
  NoDup (map ref (elements s) ++ [r1; r2]) ->
  let num := fst (getNextTerminationNumber reg) in
  let reg1 := snd (getNextTerminationNumber reg) in
  let e1 := mkElement r1 now1
              (Termination (currentColor s) (px a) (py a) (num_to_string num)
                           num true) in
  let e2 := mkElement r2 now2
              (Termination (currentColor s) (px b) (py b) (num_to_string num)
                           num false) in
  exists s1 s2 s3 s4 payload,
    placeTermination s reg a now1 r1 = (s1, reg1, None) /\
    placeTermination s1 reg1 b now2 r2 = (s2, reg1, Some payload) /\
    elements s2 = elements s ++ [e1; e2] /\
    undo s2 reg1 = (true, s3, recycleTerminationNumber reg1 num) /\
    elements s3 = elements s ++ [e1] /\
    undo s3 (recycleTerminationNumber reg1 num)
    = (true, s4, recycleTerminationNumber reg1 num) /\
    elements s4 = elements s /\ terminationState s4 = Idle /\
    tnumber payload = num.
Proof.
  intros Hidle Hnd num reg1 e1 e2.
  assert (Hnd1 : NoDup (map ref (elements s ++ [e1]))).
  { rewrite map_app. cbn [map ref e1].
    change [r1; r2] with ([r1] ++ [r2]) in Hnd. rewrite app_assoc in Hnd.
    now apply NoDup_remove_1 in Hnd; rewrite app_nil_r in Hnd. }
  assert (Hnd2 : NoDup (map ref ((elements s ++ [e1]) ++ [e2]))).
  { rewrite !map_app, <- app_assoc. exact Hnd. }
  set (s0 := set_terminationState s
               (Awaiting (mkPoint (px a) (py a)) num (currentColor s))).
  set (s1 := addElement s0 e1).
  set (s2 := set_terminationState (addElement s1 e2) Idle).
  destruct (pop_after_cap
              (if (maxHistory <=? List.length (undoStack s0))%nat
               then shift (undoStack s0) else undoStack s0) (Add e1))
    as [X' HX'].
  set (s3 := set_history s2 (elements s ++ [e1])
               (if (maxHistory <=? List.length (undoStack s1))%nat
                then shift (undoStack s1) else undoStack s1)
               (push (redoStack s2) (Add e2))).
  set (s4 := set_history s3 (elements s) X' (push (redoStack s3) (Add e1))).
  exists s1, s2, s3, s4. eexists.
  split; [exact (TerminationProps.first_click s reg a now1 r1 Hidle)|].
  split; [exact (TerminationProps.second_click s1 reg1 b now2 r2
                   (mkPoint (px a) (py a)) num (currentColor s) eq_refl)|].
  split; [unfold s2, s1, s0; cbn [elements set_terminationState];
          rewrite !ProjectorProps.elements_addElement;
          cbn [elements set_terminationState]; now rewrite <- app_assoc|].
  split.
  { rewrite (undo_added_last s2 reg1
               (if (maxHistory <=? List.length (undoStack s1))%nat
                then shift (undoStack s1) else undoStack s1)
               (elements s ++ [e1]) e2); [reflexivity | | reflexivity | exact Hnd2].
    unfold s2. cbn [undoStack set_terminationState].
    rewrite HistoryProps.undoStack_addElement. apply pop_push. }
  split; [reflexivity|]. split.
  { rewrite (undo_added_last s3 (recycleTerminationNumber reg1 num) X'
               (elements s) e1); [| | reflexivity | exact Hnd1].
    - cbn [data e1]. now rewrite recycle_twice.
    - unfold s3. cbn [undoStack set_history]. unfold s1 at 1 2.
      rewrite HistoryProps.undoStack_addElement. exact HX'. }
  repeat split.
Qed.

(** X15. When both clicks of a termination pair are undone, the drawing
    is as before the pair, the pair's number is back in the pool, and the
    next first click is handed that same number. *)
Theorem undone_pair_number_is_reused :
  forall (s : Canvas) (reg : Registry) (a b : Point) (now1 now2 : Z)
         (r1 r2 : nat),
    terminationState s = Idle ->
    NoDup (map ref (elements s) ++ [r1; r2]) ->
    let '(s1, reg1, _) := placeTermination s reg a now1 r1 in
    let '(s2, reg2, _) := placeTermination s1 reg1 b now2 r2 in
    let '(oks, s3, reg3) := undoTimes 2 s2 reg2 in
    let num := fst (getNextTerminationNumber reg) in
    terminationNumbers (elements s2)
    = terminationNumbers (elements s) ++ [num; num] /\
    oks = [true; true] /\ elements s3 = elements s /\
    terminationState s3 = Idle /\
    count reg3 = count reg2 /\
    In num (pool reg3) /\
    fst (getNextTerminationNumber reg3) = num.
Proof.
  intros s reg a b now1 now2 r1 r2 Hidle Hnd.
  destruct (pair_undone s reg a b now1 now2 r1 r2 Hidle Hnd)
    as (s1 & s2 & s3 & s4 & payload & H1 & H2 & Hel2 & Hu1 & _ & Hu2 & Hel4
        & Hts & _).
  rewrite H1, H2. cbn [undoTimes]. rewrite Hu1, Hu2.
  set (num := fst (getNextTerminationNumber reg)).
  set (reg1 := snd (getNextTerminationNumber reg)).
  repeat match goal with |- _ /\ _ => split end; auto.
  - rewrite Hel2, TerminationProps.terminationNumbers_app. reflexivity.
  - apply RegistryProps.count_recycle.
  - apply RegistryProps.In_pool_recycle. now right.
  - apply (RegistryProps.getNext_recycle_getNext reg reg1 num).
    unfold num, reg1. now destruct (getNextTerminationNumber reg).
Qed.

Lemma undone_pair_number_is_reused_witness :
  let s := addElements Scenarios.freshCanvas (Scenarios.markers 2) in
  let reg := mkRegistry 7%Z (Some [5%Z; 3%Z]) in
  terminationState s = Idle /\
  NoDup (map ref (elements s) ++ [2%nat; 3%nat]) /\
  (let '(s1, reg1, _) := placeTermination s reg (mkPoint 100 200) 0 2 in
   let '(s2, reg2, _) := placeTermination s1 reg1 (mkPoint 300 220) 1 3 in
   let '(oks, s3, reg3) := undoTimes 2 s2 reg2 in
   elements s3 = elements s /\ fst (getNextTerminationNumber reg3) = 3%Z).
Proof.
  intros s reg.
  assert (Hidle : terminationState s = Idle) by reflexivity.
  assert (Hnd : NoDup (map ref (elements s) ++ [2%nat; 3%nat])).
  { change (map ref (elements s)) with [0%nat; 1%nat].
    repeat constructor; simpl; intuition discriminate. }
  split; [exact Hidle|]. split; [exact Hnd|].
  pose proof (undone_pair_number_is_reused s reg (mkPoint 100 200)
                (mkPoint 300 220) 0 1 2 3 Hidle Hnd) as H.
  destruct (placeTermination s reg (mkPoint 100 200) 0 2) as [[s1 reg1] p1].
  destruct (placeTermination s1 reg1 (mkPoint 300 220) 1 3) as [[s2 reg2] p2].
  destruct (undoTimes 2 s2 reg2) as [[oks s3] reg3].
  destruct H as (_ & _ & H3 & _ & _ & _ & H7).
  split; [exact H3 | exact H7].
Defined.

(** X16. A first termination click that is cancelled (Escape or a tool
    switch) disappears from the drawing but its entry stays on the undo
    stack: the next undo succeeds without changing the drawing, and a redo
    after it puts the cancelled point back although no pair is pending. *)
Theorem cancelled_click_stays_in_history :
  forall (s : Canvas) (reg : Registry) (a : Point) (now : Z) (r : nat),
    terminationState s = Idle ->
    ~ In r (map ref (elements s)) ->
    let num := fst (getNextTerminationNumber reg) in
    let e := mkElement r now
               (Termination (currentColor s) (px a) (py a) (num_to_string num)
                            num true) in
    let '(s1, reg1, _) := placeTermination s reg a now r in
    let '(s2, reg2) := cancelCurrentOperation s1 reg1 in
    let '(ok, s3, reg3) := undo s2 reg2 in
    let '(ok', s4) := redo s3 in
    elements s1 = elements s ++ [e] /\
    elements s2 = elements s /\ terminationState s2 = Idle /\
    (exists U, undoStack s2 = U ++ [Add e]) /\
    ok = true /\ elements s3 = elements s /\ reg3 = reg2 /\
    ok' = true /\ elements s4 = elements s ++ [e] /\
    terminationState s4 = Idle /\ In num (pool reg3).
Proof.
  intros s reg a now r Hidle Hr num e.
  rewrite (TerminationProps.first_click s reg a now r Hidle). fold num e.
  set (reg1 := snd (getNextTerminationNumber reg)).
  set (s0 := set_terminationState s
               (Awaiting (mkPoint (px a) (py a)) num (currentColor s))).
  set (s1 := addElement s0 e).
  change (cancelCurrentOperation s1 reg1)
    with (cancelTermination (afterDrawingReset s1) reg1).
  destruct (TerminationProps.afterDrawingReset_frame s1)
    as (Fe & Fu & Fr & Ft & _).
  assert (Hts : terminationState (afterDrawingReset s1)
                = Awaiting (mkPoint (px a) (py a)) num (currentColor s))
    by (rewrite Ft; reflexivity).
  assert (Hel : elements (afterDrawingReset s1) = elements s ++ [e])
    by (rewrite Fe; reflexivity).
  rewrite (proj1 (TerminationProps.cancelTermination_awaiting
                    (afterDrawingReset s1) reg1 _ _ _ Hts)
                 (elements s) e Hel eq_refl).
  unfold undo. cbn [undoStack set_terminationState set_history].
  rewrite Fu. unfold s1 at 1. rewrite HistoryProps.undoStack_addElement, pop_push.
  cbn [elements redoStack set_terminationState set_history data e].
  rewrite (indexOf_absent (elements s) e Hr), Fr.
  rewrite recycle_twice.
  unfold redo. cbn [redoStack set_history].
  change (redoStack s1) with (@nil Action). rewrite pop_push.
  cbn [elements undoStack terminationState set_history set_terminationState].
  repeat match goal with |- _ /\ _ => split end; try reflexivity.
  - eexists. reflexivity.
  - apply RegistryProps.In_pool_recycle. now right.
Qed.

Lemma cancelled_click_stays_in_history_witness :
  let s := Scenarios.freshCanvas in
  let reg := Scenarios.freshRegistry in
  terminationState s = Idle /\ ~ In 0%nat (map ref (elements s)) /\
  (let '(s1, reg1, _) := placeTermination s reg (mkPoint 100 200) 0 0 in
   let '(s2, reg2) := cancelCurrentOperation s1 reg1 in
   let '(ok, s3, reg3) := undo s2 reg2 in
   let '(ok', s4) := redo s3 in
   elements s2 = [] /\ ok = true /\ elements s3 = [] /\
   terminationNumbers (elements s4) = [1%Z] /\ terminationState s4 = Idle).
Proof.
  intros s reg.
  assert (Hidle : terminationState s = Idle) by reflexivity.
  assert (Hr : ~ In 0%nat (map ref (elements s))) by (simpl; tauto).
  split; [exact Hidle|]. split; [exact Hr|].
  pose proof (cancelled_click_stays_in_history s reg (mkPoint 100 200) 0 0
                Hidle Hr) as H.
  cbv zeta in H.
  destruct (placeTermination s reg (mkPoint 100 200) 0 0) as [[s1 reg1] p1].
  destruct (cancelCurrentOperation s1 reg1) as [s2 reg2].
  destruct (undo s2 reg2) as [[ok s3] reg3].
  destruct (redo s3) as [ok' s4].
  destruct H as (_ & H2 & _ & _ & H5 & H6 & _ & _ & H9 & H10 & _).
  split; [exact H2|]. split; [exact H5|]. split; [exact H6|].
  split; [rewrite H9; reflexivity | exact H10].
Defined.

(** ** Saved state *)

Lemma deepCopy_fields (els : list Element) (r0 : nat) :
  map data (deepCopy r0 els) = map data els /\
  map timestamp (deepCopy r0 els) = map timestamp els /\
  map ref (deepCopy r0 els) = seq r0 (List.length els).
Proof.
  revert r0. induction els as [|e els IH]; intros r0; [repeat split|].
  destruct (IH (S r0)) as (H1 & H2 & H3). simpl.
  now rewrite H1, H2, H3.
Qed.

(** X17. Loading what [getState] returned gives a canvas that shows the
    same elements in the same order, as new objects, with both history
    stacks empty, so that nothing saved can be undone; the tool state of
    the loading canvas, a pending termination included, is untouched.  A
    missing state, or one without elements, loads nothing. *)
Theorem saved_state_round_trip :
  forall (s s' : Canvas) (canvasId : string) (r0 : nat) (reg : Registry),
    let s2 := loadState s' (Some (getState s canvasId r0)) in
    (map data (elements s2) = map data (elements s) /\
     map timestamp (elements s2) = map timestamp (elements s) /\
     map ref (elements s2) = seq r0 (List.length (elements s))) /\
    (undoStack s2 = [] /\ redoStack s2 = [] /\
     undo s2 reg = (false, s2, reg) /\ redo s2 = (false, s2)) /\
    (terminationState s2 = terminationState s' /\
     isDrawing s2 = isDrawing s' /\ points s2 = points s' /\
     currentTool s2 = currentTool s' /\ currentColor s2 = currentColor s') /\
    getElementCount s2 = getElementCount s /\
    hasElements s2 = hasElements s /\
    loadState s' None = s' /\
    loadState s' (Some (mkSavedCanvas None canvasId)) = s'.
Proof.
  intros s s' canvasId r0 reg s2.
  destruct (deepCopy_fields (elements s) r0) as (H1 & H2 & H3).
  assert (Hel : elements s2 = deepCopy r0 (elements s)) by reflexivity.
  assert (Hlen : List.length (elements s2) = List.length (elements s)).
  { rewrite Hel, <- (length_map data), H1. apply length_map. }
  split; [rewrite Hel; auto|].
  split; [repeat split|]. split; [repeat split|].
  split; [exact Hlen|]. split; [|split; reflexivity].
  unfold hasElements. now rewrite Hlen.
Qed.

End CanvasExtra.

(* ================================================================== *)
(** * Further properties of the orchestrator *)

Module OrchestratorExtra.
Import Canvas App Orchestrator.
Local Open Scope Q_scope.

(** ** Where a projected line lands *)

Lemma ratio_bounds (x cw : Q) :
  0 < cw -> 0 <= x -> x <= cw -> 0 <= x / cw /\ x / cw <= 1.
Proof.
  intros Hcw H0 H1.
  assert (Hne : ~ cw == 0) by lra.
  assert (Heq : (x / cw) * cw == x) by (field; exact Hne).
  split.
  - apply Qle_shift_div_l; [exact Hcw | lra].
  - apply Qle_shift_div_r; [exact Hcw | lra].
Qed.

Lemma ratio_le (x1 x2 cw : Q) : 0 < cw -> x1 <= x2 -> x1 / cw <= x2 / cw.
Proof.
  intros Hcw H. unfold Qdiv. apply Qmult_le_compat_r; [exact H|].
  apply Qinv_le_0_compat. lra.
Qed.

(** X18. A pair placed inside the cross-section canvas is projected to a
    line inside the plot area of the Wheeler canvas, left end first, as
    long as its number is between 1 and 50. *)
Theorem projected_line_inside_plot :
  forall (app : AppState) (w : Canvas) (termData : TermData) (now : Z),
    wheelerCanvas app = Some w ->
    0 < inject_Z (tcanvasWidth termData) ->
    0 <= tx1 termData -> tx1 termData <= tx2 termData ->
    tx2 termData <= inject_Z (tcanvasWidth termData) ->
    0 <= plotWidth w -> 0 <= plotHeight w ->
    (1 <= tnumber termData <= 50)%Z ->
    exists w' line,
      wheelerCanvas (handleTerminationPlaced app termData now) = Some w' /\
      elements w' = elements w ++ [line] /\
      lineNumber line = tnumber termData /\
      left padding <= lineX1 line /\ lineX1 line <= lineX2 line /\
      lineX2 line <= inject_Z (canvasWidth w) - right padding /\
      top padding <= lineY line /\
      lineY line <= inject_Z (canvasHeight w) - bottom padding.
Proof.
  intros app w td now Hw Hcw H0 H12 H2 Hpw Hph [Hn1 Hn50].
  unfold handleTerminationPlaced. rewrite Hw.
  eexists. eexists. split; [reflexivity|]. split; [reflexivity|].
  unfold lineNumber, lineX1, lineX2, lineY, terminationLineFor. cbn [data].
  split; [reflexivity|].
  destruct (ratio_bounds (tx1 td) _ Hcw H0 ltac:(lra)) as [Ha0 Ha1].
  destruct (ratio_bounds (tx2 td) _ Hcw ltac:(lra) H2) as [Hb0 Hb1].
  pose proof (ratio_le _ _ _ Hcw H12) as Hab.
  assert (Hy : 0 <= inject_Z (tnumber td) / 50 /\ inject_Z (tnumber td) / 50 <= 1).
  { apply ratio_bounds; [reflexivity | |].
    - change 0 with (inject_Z 0). rewrite <- Zle_Qle. lia.
    - change 50 with (inject_Z 50). rewrite <- Zle_Qle. lia. }
  destruct Hy as [Hy0 Hy1].
  unfold plotWidth, plotHeight in *. cbn [left right top bottom padding] in *.
  set (ra := tx1 td / inject_Z (tcanvasWidth td)) in *.
  set (rb := tx2 td / inject_Z (tcanvasWidth td)) in *.
  set (ry := inject_Z (tnumber td) / 50) in *.
  repeat split; nra.
Qed.

Lemma projected_line_inside_plot_witness :
  let app := Scenarios.appWith (constructor 1400 750) in
  let td := mkTermData 100 300 200 220 "1-1" 1 "#FF0000" 1400 500 in
  exists w' line,
    wheelerCanvas (handleTerminationPlaced app td 0) = Some w' /\
    elements w' = [line] /\ lineX1 line <= lineX2 line.
Proof.
  intros app td.
  destruct (projected_line_inside_plot app (constructor 1400 750) td 0 eq_refl)
    as (w' & line & H1 & H2 & _ & _ & H5 & _);
    try (simpl; unfold Qlt, Qle; simpl; lia).
  exists w', line. auto.
Defined.

(** X19. The height of a projected line depends on its number alone:
    a larger number is drawn higher up, consecutive numbers are one
    fiftieth of the plot height apart, and a number above 50 is drawn above
    the plot area. *)
Theorem projected_height_follows_number :
  forall (w : Canvas) (td1 td2 : TermData) (r1 r2 : nat) (now1 now2 : Z),
    0 < plotHeight w ->
    let y1 := lineY (mkElement r1 now1 (terminationLineFor w td1)) in
    let y2 := lineY (mkElement r2 now2 (terminationLineFor w td2)) in
    ((tnumber td1 < tnumber td2)%Z -> y2 < y1) /\
    (tnumber td2 = (tnumber td1 + 1)%Z -> y1 - y2 == plotHeight w / 50) /\
    ((50 < tnumber td1)%Z -> y1 < top padding) /\
    ((tnumber td1 <= 50)%Z -> top padding <= y1).
Proof.
  intros w td1 td2 r1 r2 now1 now2 Hph y1 y2. subst y1 y2.
  unfold lineY, terminationLineFor. cbn [data].
  unfold plotHeight in *. cbn [top bottom padding] in *.
  set (H := inject_Z (canvasHeight w)) in *.
  repeat split.
  - intros Hlt. rewrite Zlt_Qlt in Hlt.
    set (n1 := inject_Z (tnumber td1)) in *.
    set (n2 := inject_Z (tnumber td2)) in *.
    assert (E1 : n1 / 50 == n1 * (1 # 50)) by (field).
    assert (E2 : n2 / 50 == n2 * (1 # 50)) by (field).
    rewrite E1, E2. nra.
  - intros ->. rewrite inject_Z_plus. field.
  - intros Hgt. rewrite Zlt_Qlt in Hgt. change (inject_Z 50) with 50 in Hgt.
    set (n1 := inject_Z (tnumber td1)) in *.
    assert (E1 : n1 / 50 == n1 * (1 # 50)) by (field).
    rewrite E1. nra.
  - intros Hle. rewrite Zle_Qle in Hle. change (inject_Z 50) with 50 in Hle.
    set (n1 := inject_Z (tnumber td1)) in *.
    assert (E1 : n1 / 50 == n1 * (1 # 50)) by (field).
    rewrite E1. nra.
Qed.

Lemma projected_height_follows_number_witness :
  let w := constructor 1400 750 in
  let td1 := mkTermData 100 300 200 220 "50-50" 50 "#FF0000" 1400 500 in
  let td2 := mkTermData 100 300 200 220 "51-51" 51 "#FF0000" 1400 500 in
  0 < plotHeight w /\
  lineY (mkElement 1 0 (terminationLineFor w td2))
  < lineY (mkElement 0 0 (terminationLineFor w td1)) /\
  lineY (mkElement 1 0 (terminationLineFor w td2)) < top padding.
Proof.
  intros w td1 td2.
  assert (Hph : 0 < plotHeight w) by reflexivity.
  split; [exact Hph|]. split.
  - apply (proj1 (projected_height_follows_number w td1 td2 0 1 0 0 Hph)).
    simpl. lia.
  - apply (proj1 (proj2 (proj2
             (projected_height_follows_number w td2 td1 1 0 0 0 Hph)))).
    simpl. lia.
Defined.

(** ** Undo and redo across the two canvases *)

Lemma undo_empty (s : Canvas) (reg : Registry) :
  undoStack s = [] -> undo s reg = (false, s, reg).
Proof. intros H. unfold undo. now rewrite H. Qed.

Lemma redo_empty (s : Canvas) : redoStack s = [] -> redo s = (false, s).
Proof. intros H. unfold redo. now rewrite H. Qed.

Lemma undo_nonempty (s : Canvas) (reg : Registry) :
  undoStack s <> [] ->
  undo s reg = (true, snd (fst (undo s reg)), snd (undo s reg)).
Proof.
  intros H. apply (HistoryProps.undo_available s reg) in H.
  destruct (undo s reg) as [[ok s'] reg']. simpl in *. now subst.
Qed.

Lemma redo_nonempty (s : Canvas) :
  redoStack s <> [] -> redo s = (true, snd (redo s)).
Proof.
  intros H. apply (HistoryProps.redo_available s) in H.
  destruct (redo s) as [ok s']. simpl in *. now subst.
Qed.

(** X20. [handleUndo] undoes at most one action: on the active canvas
    when that has something to undo, otherwise on the other canvas; the
    canvas not chosen is left alone, and when neither has anything to undo
    nothing changes and no toast is shown. *)
Theorem handleUndo_prefers_active_canvas :
  forall (app : AppState) (activeCanvas : string) (act oth : Canvas),
    getActiveDrawingCanvas app activeCanvas = Some act ->
    otherCanvas app activeCanvas = Some oth ->
    let reg := terminationCounter app in
    let app' := handleUndo app activeCanvas in
    (undoStack act <> [] ->
     getActiveDrawingCanvas app' activeCanvas = Some (snd (fst (undo act reg))) /\
     otherCanvas app' activeCanvas = Some oth /\
     terminationCounter app' = snd (undo act reg) /\
     toasts app' = toasts app ++ [mkToast "Undo" "info"]) /\
    (undoStack act = [] -> undoStack oth <> [] ->
     getActiveDrawingCanvas app' activeCanvas = Some act /\
     otherCanvas app' activeCanvas = Some (snd (fst (undo oth reg))) /\
     terminationCounter app' = snd (undo oth reg) /\
     toasts app' = toasts app ++ [mkToast "Undo" "info"]) /\
    (undoStack act = [] -> undoStack oth = [] -> app' = app).
Proof.
  intros app activeCanvas act oth Hact Hoth reg app'. subst app' reg.
  unfold handleUndo, getActiveDrawingCanvas, otherCanvas, undoOn in *.
  destruct app as [cs wh reg nr ts]. cbn [crossSectionCanvas wheelerCanvas
    terminationCounter nextRef toasts] in *.
  destruct (String.eqb activeCanvas "crossSection"); subst cs wh;
    cbn [negb crossSectionCanvas wheelerCanvas terminationCounter nextRef toasts].
  - split; [|split].
    + intros Hne. rewrite (undo_nonempty act reg Hne). repeat split.
    + intros He Hne. rewrite (undo_empty act reg He).
      cbn [crossSectionCanvas wheelerCanvas terminationCounter nextRef toasts].
      rewrite (undo_nonempty oth reg Hne). repeat split.
    + intros He He'. rewrite (undo_empty act reg He).
      cbn [crossSectionCanvas wheelerCanvas terminationCounter nextRef toasts].
      rewrite (undo_empty oth reg He'). reflexivity.
  - split; [|split].
    + intros Hne. rewrite (undo_nonempty act reg Hne). repeat split.
    + intros He Hne. rewrite (undo_empty act reg He).
      cbn [crossSectionCanvas wheelerCanvas terminationCounter nextRef toasts].
      rewrite (undo_nonempty oth reg Hne). repeat split.
    + intros He He'. rewrite (undo_empty act reg He).
      cbn [crossSectionCanvas wheelerCanvas terminationCounter nextRef toasts].
      rewrite (undo_empty oth reg He'). reflexivity.
Qed.

Lemma handleUndo_prefers_active_canvas_witness :
  let app := Scenarios.appWith Scenarios.wheeler27 in
  getActiveDrawingCanvas app "crossSection" = Some Scenarios.freshCanvas /\
  otherCanvas app "crossSection" = Some Scenarios.wheeler27 /\
  undoStack Scenarios.freshCanvas = [] /\
  undoStack Scenarios.wheeler27 <> [] /\
  getActiveDrawingCanvas (handleUndo app "crossSection") "crossSection"
  = Some Scenarios.freshCanvas.
Proof.
  intros app.
  assert (H1 : getActiveDrawingCanvas app "crossSection"
               = Some Scenarios.freshCanvas) by reflexivity.
  assert (H2 : otherCanvas app "crossSection" = Some Scenarios.wheeler27)
    by reflexivity.
  assert (H3 : undoStack Scenarios.freshCanvas = []) by reflexivity.
  assert (H4 : undoStack Scenarios.wheeler27 <> []) by discriminate.
  repeat (split; [assumption|]).
  exact (proj1 (proj1 (proj2 (handleUndo_prefers_active_canvas
                  app "crossSection" _ _ H1 H2)) H3 H4)).
Defined.

(** X21. [handleRedo] redoes at most one action, with the same
    preference: the active canvas when it has something to redo, otherwise
    the other canvas; the numbering registry is never touched. *)
Theorem handleRedo_prefers_active_canvas :
  forall (app : AppState) (activeCanvas : string) (act oth : Canvas),
    getActiveDrawingCanvas app activeCanvas = Some act ->
    otherCanvas app activeCanvas = Some oth ->
    let app' := handleRedo app activeCanvas in
    terminationCounter app' = terminationCounter app /\
    (redoStack act <> [] ->
     getActiveDrawingCanvas app' activeCanvas = Some (snd (redo act)) /\
     otherCanvas app' activeCanvas = Some oth /\
     toasts app' = toasts app ++ [mkToast "Redo" "info"]) /\
    (redoStack act = [] -> redoStack oth <> [] ->
     getActiveDrawingCanvas app' activeCanvas = Some act /\
     otherCanvas app' activeCanvas = Some (snd (redo oth)) /\
     toasts app' = toasts app ++ [mkToast "Redo" "info"]) /\
    (redoStack act = [] -> redoStack oth = [] -> app' = app).
Proof.
  intros app activeCanvas act oth Hact Hoth app'. subst app'.
  unfold handleRedo, getActiveDrawingCanvas, otherCanvas, redoOn in *.
  destruct app as [cs wh reg nr ts]. cbn [crossSectionCanvas wheelerCanvas
    terminationCounter nextRef toasts] in *.
  destruct (String.eqb activeCanvas "crossSection"); subst cs wh;
    cbn [negb crossSectionCanvas wheelerCanvas terminationCounter nextRef toasts].
  - split; [|split; [|split]].
    + destruct (redo act) as [[|] act'];
        cbn [crossSectionCanvas wheelerCanvas terminationCounter nextRef toasts];
        [reflexivity|].
      destruct (redo oth) as [[|] oth']; reflexivity.
    + intros Hne. rewrite (redo_nonempty act Hne). repeat split.
    + intros He Hne. rewrite (redo_empty act He).
      cbn [crossSectionCanvas wheelerCanvas terminationCounter nextRef toasts].
      rewrite (redo_nonempty oth Hne). repeat split.
    + intros He He'. rewrite (redo_empty act He).
      cbn [crossSectionCanvas wheelerCanvas terminationCounter nextRef toasts].
      rewrite (redo_empty oth He'). reflexivity.
  - split; [|split; [|split]].
    + destruct (redo act) as [[|] act'];
        cbn [crossSectionCanvas wheelerCanvas terminationCounter nextRef toasts];
        [reflexivity|].
      destruct (redo oth) as [[|] oth']; reflexivity.
    + intros Hne. rewrite (redo_nonempty act Hne). repeat split.
    + intros He Hne. rewrite (redo_empty act He).
      cbn [crossSectionCanvas wheelerCanvas terminationCounter nextRef toasts].
      rewrite (redo_nonempty oth Hne). repeat split.
    + intros He He'. rewrite (redo_empty act He).
      cbn [crossSectionCanvas wheelerCanvas terminationCounter nextRef toasts].
      rewrite (redo_empty oth He'). reflexivity.
Qed.

Lemma handleRedo_prefers_active_canvas_witness :
  let w := snd (fst (undo Scenarios.wheeler27 Scenarios.freshRegistry)) in
  let app := Scenarios.appWith w in
  getActiveDrawingCanvas app "wheeler" = Some w /\
  otherCanvas app "wheeler" = Some Scenarios.freshCanvas /\
  redoStack w <> [] /\
  getActiveDrawingCanvas (handleRedo app "wheeler") "wheeler"
  = Some (snd (redo w)) /\
  elements (snd (redo w)) = elements Scenarios.wheeler27.
Proof.
  intros w app.
  assert (H1 : getActiveDrawingCanvas app "wheeler" = Some w) by reflexivity.
  assert (H2 : otherCanvas app "wheeler" = Some Scenarios.freshCanvas)
    by reflexivity.
  assert (H3 : redoStack w <> []) by discriminate.
  repeat (split; [assumption|]).
  split; [|reflexivity].
  exact (proj1 (proj1 (proj2 (handleRedo_prefers_active_canvas
                  app "wheeler" _ _ H1 H2)) H3)).
Defined.

(** ** Clearing *)

(** X22. Clearing the cross-section empties that canvas and its history
    and resets the numbering, while the Wheeler canvas keeps its lines.
    When no second click was awaited, the next click starts a pair
    numbered 1; when one was awaited, the next click is still the second
    click of that pair and carries its old number.  Clearing the Wheeler
    canvas leaves the cross-section and the numbering alone; clearing all
    does both; any other target changes nothing. *)
Theorem clear_cross_section_restarts_numbering :
  forall (app : AppState) (c w : Canvas),
    crossSectionCanvas app = Some c ->
    wheelerCanvas app = Some w ->
    let fresh := mkRegistry 0 (Some []) in
    let app1 := handleConfirmClear app "crossSection" in
    let app2 := handleConfirmClear app "wheeler" in
    let app3 := handleConfirmClear app "all" in
    (crossSectionCanvas app1 = Some (clear c) /\
     wheelerCanvas app1 = Some w /\ terminationCounter app1 = fresh) /\
    (terminationState c = Idle ->
     forall pos now,
     exists c2,
       crossSectionCanvas (crossSectionTerminationClick app1 pos now) = Some c2
       /\ terminationNumbers (elements c2) = [1%Z]
       /\ clickNumbers true (elements c2) = [1%Z]) /\
    (forall fp n color,
        terminationState c = Awaiting fp n color ->
        forall pos now,
        exists c2,
          crossSectionCanvas (crossSectionTerminationClick app1 pos now) = Some c2
          /\ terminationNumbers (elements c2) = [n]
          /\ clickNumbers false (elements c2) = [n]
          /\ terminationState c2 = Idle) /\
    (crossSectionCanvas app2 = Some c /\
     wheelerCanvas app2 = Some (clear w) /\
     terminationCounter app2 = terminationCounter app) /\
    (crossSectionCanvas app3 = Some (clear c) /\
     wheelerCanvas app3 = Some (clear w) /\ terminationCounter app3 = fresh) /\
    (forall target,
        target <> "crossSection"%string -> target <> "wheeler"%string ->
        target <> "all"%string -> handleConfirmClear app target = app).
Proof.
  intros app c w Hc Hw fresh app1 app2 app3. subst app1 app2 app3.
  unfold handleConfirmClear, confirmClearCrossSection, confirmClearWheeler.
  rewrite Hc, Hw.
  cbn [String.eqb Ascii.eqb Bool.eqb andb isSome option_map].
  split; [repeat split|].
  split; [|split; [|split; [repeat split|split; [repeat split|]]]].
  - intros Hidle pos now. unfold crossSectionTerminationClick.
    cbn [crossSectionCanvas terminationCounter nextRef showToast
         resetTerminationCounter wheelerCanvas toasts].
    rewrite (TerminationProps.first_click (clear c) (mkRegistry 0 (Some []))
               pos now (nextRef app)) by exact Hidle.
    eexists. split; [reflexivity|].
    rewrite ProjectorProps.elements_addElement. split; reflexivity.
  - intros fp n color Hts pos now. unfold crossSectionTerminationClick.
    cbn [crossSectionCanvas terminationCounter nextRef showToast
         resetTerminationCounter wheelerCanvas toasts].
    rewrite (TerminationProps.second_click (clear c) (mkRegistry 0 (Some []))
               pos now (nextRef app) fp n color) by exact Hts.
    unfold handleTerminationPlaced.
    cbn [crossSectionCanvas terminationCounter nextRef showToast
         wheelerCanvas toasts].
    eexists. split; [reflexivity|].
    cbn [elements terminationState set_terminationState].
    rewrite ProjectorProps.elements_addElement.
    unfold terminationNumbers, clickNumbers, terminationNumber.
    cbn [elements clear set_drawing set_history List.app flat_map data
         Bool.eqb].
    repeat split.
  - intros target H1 H2 H3.
    apply String.eqb_neq in H1, H2, H3. now rewrite H1, H2, H3.
Qed.

Lemma clear_cross_section_restarts_numbering_witness :
  let c := fst Scenarios.onePair in
  let app := mkApp (Some c) (Some Scenarios.wheeler27)
                   (snd Scenarios.onePair) 10 [] in
  let pending :=
    fst (fst (placeTermination Scenarios.freshCanvas (mkRegistry 7 (Some []))
                               (mkPoint 100 200) 0 10)) in
  let app8 := mkApp (Some pending) (Some Scenarios.wheeler27)
                    (mkRegistry 8 (Some [])) 11 [] in
  terminationState c = Idle /\
  terminationNumbers (elements c) = [1%Z; 1%Z] /\
  (exists c2,
      crossSectionCanvas
        (crossSectionTerminationClick (handleConfirmClear app "crossSection")
                                      (mkPoint 10 10) 5) = Some c2
      /\ terminationNumbers (elements c2) = [1%Z]) /\
  terminationState pending = Awaiting (mkPoint 100 200) 8 "#FF0000" /\
  (exists c2,
      crossSectionCanvas
        (crossSectionTerminationClick (handleConfirmClear app8 "crossSection")
                                      (mkPoint 10 10) 5) = Some c2
      /\ terminationNumbers (elements c2) = [8%Z]).
Proof.
  intros c app pending app8.
  assert (Hidle : terminationState c = Idle) by reflexivity.
  assert (Hts : terminationState pending
                = Awaiting (mkPoint 100 200) 8 "#FF0000") by reflexivity.
  split; [exact Hidle|]. split; [reflexivity|]. split; [|split; [exact Hts|]].
  - destruct (proj1 (proj2 (clear_cross_section_restarts_numbering
                       app c Scenarios.wheeler27 eq_refl eq_refl))
                Hidle (mkPoint 10 10) 5%Z) as (c2 & H1 & H2 & _).
    exists c2. split; assumption.
  - destruct (proj1 (proj2 (proj2 (clear_cross_section_restarts_numbering
                       app8 pending Scenarios.wheeler27 eq_refl eq_refl)))
                _ _ _ Hts (mkPoint 10 10) 5%Z) as (c2 & H1 & H2 & _).
    exists c2. split; assumption.
Defined.

(** ** A pair and its projection *)

Lemma NoDup_fresh_refs (l : list nat) (n : nat) :
  NoDup l -> (forall r, In r l -> (r < n)%nat) -> NoDup (l ++ [n; S n]).
Proof.
  intros Hnd Hlt. change [n; S n] with ([n] ++ [S n]). rewrite app_assoc.
  apply CanvasExtra.NoDup_app_snoc; [apply CanvasExtra.NoDup_app_snoc|].
  - exact Hnd.
  - intros H. apply Hlt in H. lia.
  - intros H. apply in_app_or in H. destruct H as [H|[H|[]]].
    + apply Hlt in H. lia.
    + lia.
Qed.

(** X23. Undo works on one canvas at a time: after a pair was placed and
    both of its clicks were undone from the cross-section, the line the
    pair projected is still on the Wheeler canvas, and its number is the
    one the next pair will get. *)
Theorem undone_pair_leaves_projection :
  forall (app : AppState) (c w : Canvas) (a b : Point) (now1 now2 : Z),
    crossSectionCanvas app = Some c ->
    wheelerCanvas app = Some w ->
    terminationState c = Idle ->
    NoDup (map ref (elements c)) ->
    (forall r, In r (map ref (elements c)) -> (r < nextRef app)%nat) ->
    let num := fst (getNextTerminationNumber (terminationCounter app)) in
    let app2 := crossSectionTerminationClick
                  (crossSectionTerminationClick app a now1) b now2 in
    let app4 := handleUndoTimes 2 app2 "crossSection" in
    exists c4 w4 line,
      crossSectionCanvas app4 = Some c4 /\ elements c4 = elements c /\
      wheelerCanvas app4 = Some w4 /\ elements w4 = elements w ++ [line] /\
      lineNumber line = num /\
      fst (getNextTerminationNumber (terminationCounter app4)) = num.
Proof.
  intros app c w a b now1 now2 Hc Hw Hidle Hnd Hlt num app2 app4.
  destruct (CanvasExtra.pair_undone c (terminationCounter app) a b now1 now2
              (nextRef app) (S (nextRef app)) Hidle
              (NoDup_fresh_refs _ _ Hnd Hlt))
    as (s1 & s2 & s3 & s4 & payload & H1 & H2 & _ & Hu1 & _ & Hu2 & Hel4 & _ & Hnum).
  set (reg1 := snd (getNextTerminationNumber (terminationCounter app))) in *.
  assert (E1 : crossSectionTerminationClick app a now1
               = mkApp (Some s1) (Some w) reg1 (S (nextRef app)) (toasts app)).
  { unfold crossSectionTerminationClick. now rewrite Hc, H1, Hw. }
  assert (E2 : exists r nr ts,
             app2 = mkApp (Some s2)
                          (Some (addElement w
                                   (mkElement r now2
                                      (terminationLineFor w payload))))
                          reg1 nr ts).
  { unfold app2. rewrite E1. unfold crossSectionTerminationClick.
    cbn [crossSectionCanvas terminationCounter nextRef wheelerCanvas toasts].
    rewrite H2. unfold handleTerminationPlaced, showToast.
    cbn [crossSectionCanvas terminationCounter nextRef wheelerCanvas toasts].
    eexists. eexists. eexists. reflexivity. }
  destruct E2 as (r & nr & ts & E2).
  assert (E4 : exists ts',
             app4 = mkApp (Some s4)
                          (Some (addElement w
                                   (mkElement r now2
                                      (terminationLineFor w payload))))
                          (recycleTerminationNumber reg1 num) nr ts').
  { unfold app4. rewrite E2. cbn [handleUndoTimes]. unfold handleUndo, undoOn.
    cbn [String.eqb Ascii.eqb Bool.eqb negb crossSectionCanvas
         terminationCounter nextRef wheelerCanvas toasts].
    rewrite Hu1. unfold showToast.
    cbn [crossSectionCanvas terminationCounter nextRef wheelerCanvas toasts].
    rewrite Hu2.
    cbn [crossSectionCanvas terminationCounter nextRef wheelerCanvas toasts].
    eexists. reflexivity. }
  destruct E4 as (ts' & E4). rewrite E4.
  cbn [crossSectionCanvas terminationCounter wheelerCanvas].
  eexists. eexists. eexists.
  split; [reflexivity|]. split; [exact Hel4|]. split; [reflexivity|].
  split; [apply ProjectorProps.elements_addElement|].
  split; [exact Hnum|].
  apply (RegistryProps.getNext_recycle_getNext (terminationCounter app)).
  unfold num, reg1. now destruct (getNextTerminationNumber (terminationCounter app)).
Qed.

Lemma undone_pair_leaves_projection_witness :
  let app := Scenarios.appWith Scenarios.wheeler27 in
  NoDup (map ref (elements Scenarios.freshCanvas)) /\
  (forall r, In r (map ref (elements Scenarios.freshCanvas)) ->
             (r < nextRef app)%nat) /\
  exists c4 w4 line,
    crossSectionCanvas
      (handleUndoTimes 2
         (crossSectionTerminationClick
            (crossSectionTerminationClick app (mkPoint 100 200) 0)
            (mkPoint 300 220) 1) "crossSection") = Some c4 /\
    elements c4 = [] /\
    wheelerCanvas
      (handleUndoTimes 2
         (crossSectionTerminationClick
            (crossSectionTerminationClick app (mkPoint 100 200) 0)
            (mkPoint 300 220) 1) "crossSection") = Some w4 /\
    elements w4 = elements Scenarios.wheeler27 ++ [line] /\
    lineNumber line = 8%Z.
Proof.
  intros app.
  assert (Hnd : NoDup (map ref (elements Scenarios.freshCanvas)))
    by constructor.
  assert (Hlt : forall r, In r (map ref (elements Scenarios.freshCanvas)) ->
                          (r < nextRef app)%nat) by (intros r []).
  split; [exact Hnd|]. split; [exact Hlt|].
  destruct (undone_pair_leaves_projection app Scenarios.freshCanvas
              Scenarios.wheeler27 (mkPoint 100 200) (mkPoint 300 220) 0 1
              eq_refl eq_refl eq_refl Hnd Hlt)
    as (c4 & w4 & line & H1 & H2 & H3 & H4 & H5 & _).
  exists c4, w4, line. auto.
Defined.

End OrchestratorExtra.
